(** * HVAC cost comparison calculator: climate lookup, dataset merges and the
      annual cost model of [script.js], embedded and verified.

    The development follows [src/temp_commit/script.js].  Every function that
    the verified statements talk about is transcribed with the name it has in
    the source; the line numbers in the comments refer to that file.

    ** Numbers

    A JavaScript number is modelled by [num]: the three non-finite values
    [NaN], [+Infinity], [-Infinity] and the finite values, carried by exact
    rationals.  Arithmetic follows IEEE-754 for every case that involves a
    non-finite operand or a division by zero; on finite operands it is exact
    (binary rounding is idealised away), and there is a single zero (no path
    modelled here divides by a zero of negative sign: [x - x] is [+0]).
    Finite results are kept in lowest terms, so that concrete runs can be
    compared with [=].

    ** Objects, globals and effects

    Table entries and records are records whose numeric fields hold a number
    or are absent ([undefined]); [countyAshraeData] is a finite map from FIPS
    codes to entries; the ZIP table is kept in the order in which the source
    enumerates it.  The globals a lookup reads and writes are passed
    explicitly, the services it awaits are functions of a [Network.t], and
    every request it makes is recorded. *)

From Stdlib Require Import QArith Qround Qabs Lqa Lia Bool List String Ascii.
From Stdlib Require Import DecimalString.
From stdpp Require Import base option list gmap strings fin_maps.

Local Open Scope Q_scope.

(* ===================================================================== *)
(** ** JavaScript numbers                                                 *)
(* ===================================================================== *)

Inductive num : Type :=
  | NaN
  | PInf
  | NInf
  | Fin (q : Q).

Declare Scope num_scope.
Delimit Scope num_scope with num.
Bind Scope num_scope with num.

Module Num.

(** A literal of the source, in lowest terms. *)
Definition lit (q : Q) : num := Fin (Qred q).

Definition Qltb (x y : Q) : bool := negb (Qle_bool y x).

(** [Number.isFinite]. *)
Definition isFinite (a : num) : bool :=
  match a with Fin _ => true | _ => false end.

(** Sign of a number that is not [NaN]. *)
Definition sign (a : num) : comparison :=
  match a with
  | NaN => Eq
  | PInf => Gt
  | NInf => Lt
  | Fin q => q ?= 0
  end.

Definition neg (a : num) : num :=
  match a with
  | NaN => NaN
  | PInf => NInf
  | NInf => PInf
  | Fin q => Fin (Qred (- q))
  end.

Definition add (a b : num) : num :=
  match a, b with
  | NaN, _ | _, NaN => NaN
  | PInf, NInf | NInf, PInf => NaN
  | PInf, _ | _, PInf => PInf
  | NInf, _ | _, NInf => NInf
  | Fin x, Fin y => Fin (Qred (x + y))
  end.

Definition sub (a b : num) : num :=
  match a, b with
  | NaN, _ | _, NaN => NaN
  | PInf, PInf | NInf, NInf => NaN
  | PInf, _ | _, NInf => PInf
  | NInf, _ | _, PInf => NInf
  | Fin x, Fin y => Fin (Qred (x - y))
  end.

(** Product: [0 * Infinity] is [NaN]; otherwise the signs multiply. *)
Definition mul (a b : num) : num :=
  match a, b with
  | NaN, _ | _, NaN => NaN
  | Fin x, Fin y => Fin (Qred (x * y))
  | _, _ =>
      match sign a, sign b with
      | Eq, _ | _, Eq => NaN
      | Gt, Gt | Lt, Lt => PInf
      | _, _ => NInf
      end
  end.

(** Quotient: a non-zero finite number over zero is an infinity of its own
    sign, [0 / 0] and [Infinity / Infinity] are [NaN], a finite number over
    an infinity is zero. *)
Definition div (a b : num) : num :=
  match a, b with
  | NaN, _ | _, NaN => NaN
  | Fin x, Fin y =>
      if Qeq_bool y 0 then
        match x ?= 0 with Gt => PInf | Lt => NInf | Eq => NaN end
      else Fin (Qred (x / y))
  | Fin _, _ => Fin 0
  | _, Fin y =>
      match sign a, y ?= 0 with
      | Gt, Lt | Lt, (Gt | Eq) => NInf
      | _, _ => PInf
      end
  | _, _ => NaN
  end.

(** The relational operators; each is [false] as soon as an operand is
    [NaN]. *)
Definition ltb (a b : num) : bool :=
  match a, b with
  | NaN, _ | _, NaN => false
  | _, NInf => false
  | NInf, _ => true
  | PInf, _ => false
  | Fin _, PInf => true
  | Fin x, Fin y => Qltb x y
  end.

Definition leb (a b : num) : bool :=
  match a, b with
  | NaN, _ | _, NaN => false
  | NInf, _ => true
  | _, PInf => true
  | _, NInf => false
  | PInf, _ => false
  | Fin x, Fin y => Qle_bool x y
  end.

Definition gtb (a b : num) : bool := ltb b a.
Definition geb (a b : num) : bool := leb b a.

(** [ToBoolean] on a number: [NaN] and zero are falsy. *)
Definition truthy (a : num) : bool :=
  match a with
  | NaN => false
  | Fin q => negb (Qeq_bool q 0)
  | _ => true
  end.

(** [a || b] on numbers. *)
Definition or_else (a b : num) : num := if truthy a then a else b.

(** [Math.min] and [Math.max] of two numbers. *)
Definition min (a b : num) : num :=
  match a, b with
  | NaN, _ | _, NaN => NaN
  | _, _ => if leb a b then a else b
  end.

Definition max (a b : num) : num :=
  match a, b with
  | NaN, _ | _, NaN => NaN
  | _, _ => if leb a b then b else a
  end.

(** [Math.round]: the nearest integer, ties towards [+Infinity]. *)
Definition round (a : num) : num :=
  match a with
  | Fin q => Fin (inject_Z (Qfloor (q + (1 # 2))))
  | _ => a
  end.

(** [Math.abs]. *)
Definition abs (a : num) : num :=
  match a with
  | NaN => NaN
  | PInf | NInf => PInf
  | Fin q => Fin (Qred (Qabs q))
  end.

End Num.

Arguments Num.lit q%_Q.
Abbreviation lit := Num.lit.
Infix "+" := Num.add : num_scope.
Infix "-" := Num.sub : num_scope.
Infix "*" := Num.mul : num_scope.
Infix "/" := Num.div : num_scope.
Infix "<?" := Num.ltb : num_scope.
Infix "<=?" := Num.leb : num_scope.
Infix ">?" := Num.gtb : num_scope.
Infix ">=?" := Num.geb : num_scope.

(** [Math.PI], the double nearest to pi. *)
Definition Math_PI : num := Num.lit 3.141592653589793.


(* ===================================================================== *)
(** ** The host's numeric library                                         *)
(* ===================================================================== *)

(** [Math.sin], [Math.cos], [Math.sqrt] and [Math.atan2] are
    implementation-approximated in ECMAScript: the standard fixes only their
    values at boundary arguments.  The same holds, for this development, of
    the two conversions from text to numbers.  The code is therefore verified
    against any host that honours the boundary cases below. *)
Class Host : Type := {
  Math_sin : num -> num;
  Math_cos : num -> num;
  Math_sqrt : num -> num;
  Math_atan2 : num -> num -> num;
  (** [Number(s)] on a string. *)
  StringToNumber : string -> num;
  (** [parseFloat(s)]. *)
  parseFloat : string -> num;
  sin_NaN : Math_sin NaN = NaN;
  sin_PInf : Math_sin PInf = NaN;
  sin_NInf : Math_sin NInf = NaN;
  sin_zero : Math_sin (Fin 0) = Fin 0;
  cos_NaN : Math_cos NaN = NaN;
  cos_zero : Math_cos (Fin 0) = Fin 1;
  (** the cosine of a finite number is a finite number *)
  cos_finite : forall q, Num.isFinite (Math_cos (Fin q)) = true;
  sqrt_NaN : Math_sqrt NaN = NaN;
  sqrt_zero : Math_sqrt (Fin 0) = Fin 0;
  sqrt_one : Math_sqrt (Fin 1) = Fin 1;
  atan2_NaN_l : forall x, Math_atan2 NaN x = NaN;
  atan2_NaN_r : forall y, Math_atan2 y NaN = NaN;
  atan2_zero_one : Math_atan2 (Fin 0) (Fin 1) = Fin 0
}.

(** A reference host, built from low-order rational approximations.  It shows
    that the interface is inhabited and lets concrete runs be evaluated. *)
Module RefHost.

Definition half_pi : Q := 3.141592653589793 / 2.

Definition sin (a : num) : num :=
  match a with
  | Fin x => Fin (Qred (x - x * x * x / 6 + x * x * x * x * x / 120))
  | _ => NaN
  end.

Definition cos (a : num) : num :=
  match a with
  | Fin x => Fin (Qred (1 - x * x / 2 + x * x * x * x / 24))
  | _ => NaN
  end.

(** Square root to six decimal places, exact on perfect squares. *)
Definition sqrt (a : num) : num :=
  match a with
  | NaN | NInf => NaN
  | PInf => PInf
  | Fin x =>
      if Num.Qltb x 0 then NaN
      else
        let n := Qnum x in
        let d := Zpos (Qden x) in
        let s := 1000000%Z in
        Fin (Qred (Qmake (Z.sqrt (n * d * s * s)) (Z.to_pos (d * s))))
  end.

Definition atan (t : Q) : Q :=
  if Qle_bool (Qabs t) 1 then t / (1 + 0.28 * t * t)
  else (if Qle_bool 0 t then half_pi else - half_pi) - t / (t * t + 0.28).

Definition atan2 (y x : num) : num :=
  match y, x with
  | NaN, _ | _, NaN => NaN
  | Fin b, Fin a =>
      match a ?= 0 with
      | Gt => Fin (Qred (atan (b / a)))
      | Lt => if Qle_bool 0 b then Fin (Qred (atan (b / a) + 2 * half_pi))
              else Fin (Qred (atan (b / a) - 2 * half_pi))
      | Eq => match b ?= 0 with
              | Gt => Fin (Qred half_pi)
              | Lt => Fin (Qred (- half_pi))
              | Eq => Fin 0
              end
      end
  | Fin b, PInf => Fin 0
  | Fin b, NInf => if Qle_bool 0 b then Fin (Qred (2 * half_pi))
                   else Fin (Qred (- (2 * half_pi)))
  | PInf, Fin _ => Fin (Qred half_pi)
  | NInf, Fin _ => Fin (Qred (- half_pi))
  | PInf, PInf => Fin (Qred (half_pi / 2))
  | PInf, NInf => Fin (Qred (3 * half_pi / 2))
  | NInf, PInf => Fin (Qred (- (half_pi / 2)))
  | NInf, NInf => Fin (Qred (- (3 * half_pi / 2)))
  end.

Definition digit (c : ascii) : option Z :=
  let n := Z.of_nat (nat_of_ascii c) in
  if ((48 <=? n) && (n <=? 57))%Z then Some (n - 48)%Z else None.

(** Digits of an unsigned decimal numeral: the value read so far and the
    number of digits after the point. *)
Fixpoint digits (s : string) (seen_point : bool) (acc : Z) (frac : nat)
  : option (Z * nat) :=
  match s with
  | EmptyString => Some (acc, frac)
  | String c rest =>
      match digit c with
      | Some d => digits rest seen_point (acc * 10 + d)%Z
                    (if seen_point then S frac else frac)
      | None =>
          if (Ascii.eqb c "."%char && negb seen_point)%bool
          then digits rest true acc frac
          else None
      end
  end.

Definition unsigned (s : string) : num :=
  match s with
  | EmptyString | String "."%char EmptyString => NaN
  | _ => match digits s false 0%Z 0%nat with
         | Some (n, k) => Fin (Qred (Qmake n (Z.to_pos (10 ^ Z.of_nat k))))
         | None => NaN
         end
  end.

(** Plain signed decimal numerals; everything else is [NaN]. *)
Definition decimal (s : string) : num :=
  match s with
  | String "-"%char rest => Num.neg (unsigned rest)
  | String "+"%char rest => unsigned rest
  | _ => unsigned s
  end.

Definition toNumber (s : string) : num :=
  match s with EmptyString => Fin 0 | _ => decimal s end.

End RefHost.

Definition refHost : Host.
Proof.
  refine {|
    Math_sin := RefHost.sin;
    Math_cos := RefHost.cos;
    Math_sqrt := RefHost.sqrt;
    Math_atan2 := RefHost.atan2;
    StringToNumber := RefHost.toNumber;
    parseFloat := RefHost.decimal
  |}; try reflexivity; intros []; reflexivity.
Defined.

(* ===================================================================== *)
(** ** Values read from objects                                           *)
(* ===================================================================== *)

(** A numeric property of an object is a number or is absent (it then reads
    as [undefined]).  All bundled tables and every entry built by the CSV
    loader have this shape. *)

(** [Number.isFinite(v)]: no coercion, [undefined] is not finite. *)
Definition Number_isFinite (v : option num) : bool :=
  match v with Some n => Num.isFinite n | None => false end.

(** [Number(v)], also the implicit coercion of arithmetic:
    [undefined] becomes [NaN]. *)
Definition Number (v : option num) : num :=
  match v with Some n => n | None => NaN end.

(** [v ?? w]. *)
Definition nullish {A} (v w : option A) : option A :=
  match v with Some _ => v | None => w end.
Infix "??" := nullish (at level 61, left associativity).

(** [s || d] on an optional string: the empty string is falsy too. *)
Definition str_or (s : option string) (d : string) : string :=
  match s with
  | Some (String c r) => String c r
  | _ => d
  end.

(** [`${s}`] on an optional string. *)
Definition template (s : option string) : string :=
  match s with Some t => t | None => "undefined" end.

(** A raw climate entry, as found in [RESNET_ASHRAE_DATA],
    [LOCAL_RESNET_FALLBACK], [ASHRAE_COUNTY_DATA] and the external files,
    with all the spellings [normalizeCountyEntry] looks for. *)
Module Entry.
Record t : Type := mk {
  name : option string;
  state : option string;
  fips : option string;
  heating : option num;
  heating_99 : option num;
  heatingDesign : option num;
  heating_design : option num;
  cooling : option num;
  cooling_01 : option num;
  coolingDesign : option num;
  cooling_design : option num;
  hdd : option num;
  HDD : option num;
  heating_degree_days : option num;
  HDD65 : option num;
  cdd : option num;
  CDD : option num;
  cooling_degree_days : option num;
  CDD65 : option num;
  source : option string;
  lat : option num;
  lon : option num
}.

(** [entry.hdd = v], [entry.cdd = v], [entry.source = s]. *)
Definition set_hdd (v : option num) (e : t) : t :=
  mk (name e) (state e) (fips e) (heating e) (heating_99 e)
     (heatingDesign e) (heating_design e) (cooling e) (cooling_01 e)
     (coolingDesign e) (cooling_design e) v (HDD e)
     (heating_degree_days e) (HDD65 e) (cdd e) (CDD e)
     (cooling_degree_days e) (CDD65 e) (source e) (lat e) (lon e).

Definition set_cdd (v : option num) (e : t) : t :=
  mk (name e) (state e) (fips e) (heating e) (heating_99 e)
     (heatingDesign e) (heating_design e) (cooling e) (cooling_01 e)
     (coolingDesign e) (cooling_design e) (hdd e) (HDD e)
     (heating_degree_days e) (HDD65 e) v (CDD e)
     (cooling_degree_days e) (CDD65 e) (source e) (lat e) (lon e).

Definition set_source (s : option string) (e : t) : t :=
  mk (name e) (state e) (fips e) (heating e) (heating_99 e)
     (heatingDesign e) (heating_design e) (cooling e) (cooling_01 e)
     (coolingDesign e) (cooling_design e) (hdd e) (HDD e)
     (heating_degree_days e) (HDD65 e) (cdd e) (CDD e)
     (cooling_degree_days e) (CDD65 e) s (lat e) (lon e).

(** The object literal of the ZIP tables:
    [{ name, heating, cooling, hdd, cdd, source, lat, lon }]. *)
Definition station (n : string) (h c hd cd : Q) (src : string) (la lo : Q)
  : t :=
  mk (Some n) None None (Some (lit h)) None None None (Some (lit c)) None
     None None (Some (lit hd)) None None None (Some (lit cd)) None None
     None (Some src) (Some (lit la)) (Some (lit lo)).

(** The object literal of [ASHRAE_COUNTY_DATA]. *)
Definition county (n st f : string) (h c hd cd : Q) (src : string)
  (la lo : Q) : t :=
  mk (Some n) (Some st) (Some f) (Some (lit h)) None None None
     (Some (lit c)) None None None (Some (lit hd)) None None None
     (Some (lit cd)) None None None (Some src) (Some (lit la))
     (Some (lit lo)).
End Entry.

(** A station of [noaa_climate_database.json]. *)
Module NoaaStation.
Record t : Type := mk {
  latitude : option num;
  longitude : option num;
  hdd : option num;
  cdd : option num;
  name : option string;
  station_id : option string
}.
End NoaaStation.

(** A station parsed from [noaa_normals_hdd_cdd_1991_2020.csv]. *)
Module Normal.
Record t : Type := mk {
  id : string;
  name : string;
  lat : num;
  lon : num;
  hdd : option num;
  cdd : option num
}.
End Normal.

(** The climate record handed to the cost model ([climateData]). *)
Module Climate.
Record t : Type := mk {
  name : string;
  heating : option num;
  cooling : option num;
  hdd : option num;
  cdd : option num;
  source : string;
  lat : option num;
  lon : option num
}.
End Climate.

(** Lookup of a key in an object whose enumeration order matters
    ([Object.values]); the keys of an object are distinct. *)
Fixpoint assoc {A} (k : string) (l : list (string * A)) : option A :=
  match l with
  | [] => None
  | (k', v) :: r => if String.eqb k k' then Some v else assoc k r
  end.

(* ===================================================================== *)
(** ** Geo distance utility                                               *)
(* ===================================================================== *)

Section Distance.
Context {H : Host}.
Local Open Scope num_scope.

(** [calculateDistance] (lines 781-791): haversine distance in miles. *)
Definition calculateDistance (lat1 lon1 lat2 lon2 : num) : num :=
  let R := lit 3959 in
  let dLat := (lat2 - lat1) * Math_PI / lit 180 in
  let dLon := (lon2 - lon1) * Math_PI / lit 180 in
  let a := Math_sin (dLat / lit 2) * Math_sin (dLat / lit 2) +
           Math_cos (lat1 * Math_PI / lit 180) *
           Math_cos (lat2 * Math_PI / lit 180) *
           Math_sin (dLon / lit 2) * Math_sin (dLon / lit 2) in
  let c := lit 2 * Math_atan2 (Math_sqrt a) (Math_sqrt (lit 1 - a)) in
  R * c.

(** [haversine] (lines 252-260): the same distance in kilometres. *)
Definition haversine (lat1 lon1 lat2 lon2 : num) : num :=
  let R := lit 6371 in
  let toRad := fun v => v * Math_PI / lit 180 in
  let dLat := toRad (lat2 - lat1) in
  let dLon := toRad (lon2 - lon1) in
  let a := Math_sin (dLat / lit 2) * Math_sin (dLat / lit 2) +
           Math_cos (toRad lat1) * Math_cos (toRad lat2) *
           Math_sin (dLon / lit 2) * Math_sin (dLon / lit 2) in
  let c := lit 2 * Math_atan2 (Math_sqrt a) (Math_sqrt (lit 1 - a)) in
  R * c.

(** One turn of a nearest-match loop: [if (d < bestD) { bestD = d; best = s }]. *)
Definition closer {A} (s : A) (d : num) (acc : option A * num)
  : option A * num :=
  if d <? snd acc then (Some s, d) else acc.

(** [nearestStation] (lines 242-250).  Its coordinates come from a raw
    entry and may be absent. *)
Definition nearestStation (lat lon : option num) (stations : list Normal.t)
  : option Normal.t :=
  if negb (Number_isFinite lat) || negb (Number_isFinite lon)
     || (length stations =? 0)%nat
  then None
  else
    fst (fold_left
           (fun acc s =>
              closer s (haversine (Number lat) (Number lon)
                          (Normal.lat s) (Normal.lon s)) acc)
           stations (None, PInf)).

(** [findNearestNoaaStation] (lines 36-47): the station and the distance
    rounded to a tenth of a mile. *)
Definition findNearestNoaaStation (lat lon : num)
  (stations : list NoaaStation.t) : option (NoaaStation.t * num) :=
  if negb (Num.isFinite lat) || negb (Num.isFinite lon)
     || (length stations =? 0)%nat
  then None
  else
    let r :=
      fold_left
        (fun acc s =>
           if negb (Number_isFinite (NoaaStation.latitude s))
              || negb (Number_isFinite (NoaaStation.longitude s))
           then acc
           else closer s (calculateDistance lat lon
                            (Number (NoaaStation.latitude s))
                            (Number (NoaaStation.longitude s))) acc)
        stations (None, PInf) in
    match fst r with
    | None => None
    | Some best => Some (best, Num.round (snd r * lit 10) / lit 10)
    end.

(** [getResnetStations] (lines 472-475). *)
Definition getResnetStations (RESNET_ASHRAE_DATA : list (string * Entry.t))
  : list Entry.t :=
  List.filter
    (fun s => Number_isFinite (Entry.lat s) && Number_isFinite (Entry.lon s))
    (map snd RESNET_ASHRAE_DATA).

(** [findNearestResnetStation] (lines 477-494). *)
Definition findNearestResnetStation
  (RESNET_ASHRAE_DATA : list (string * Entry.t)) (lat lon : num)
  : option Entry.t :=
  let stations := getResnetStations RESNET_ASHRAE_DATA in
  if (length stations =? 0)%nat || negb (Num.isFinite lat)
     || negb (Num.isFinite lon)
  then None
  else
    fst (fold_left
           (fun acc station =>
              closer station
                (calculateDistance lat lon (Number (Entry.lat station))
                   (Number (Entry.lon station))) acc)
           stations (None, PInf)).

End Distance.

(* ===================================================================== *)
(** ** HVAC cost model                                                    *)
(* ===================================================================== *)

Inductive SystemType : Type := heatPump | furnace | hybrid.

(** [specs]: a property that a system does not carry reads as [NaN] in
    arithmetic; it is never read on that system's branch. *)
Module Specs.
Record t : Type := mk { cop : num; furnaceAFUE : num }.
End Specs.

Module Costs.
Record t : Type := mk {
  install : num;
  energy : num;
  maintenance : num;
  total : num;
  annualTherms : num;
  annualKWh : num
}.
End Costs.

(** The global [houseLoads]. *)
Module HouseLoads.
Record t : Type := mk { heating : num; cooling : num }.
End HouseLoads.

(** What [calculateHVACCosts] reads from the page: [parseFloat] of each input
    field and the state of the automatic-crossover box. *)
Module Page.
Record t : Type := mk {
  electricityRate : num;
  gasRate : num;
  heatPumpCOP : num;
  furnaceEfficiency : num;
  autoCrossover : bool;
  crossoverTemp : num
}.
End Page.

Module Results.
Record t : Type := mk {
  heatPump : Costs.t;
  furnace : Costs.t;
  hybrid : Costs.t
}.
End Results.

(** The hybrid split bar: [data-state] and, when populated, the width of the
    heat-pump part in percent. *)
Inductive SplitBar : Type :=
  | SplitDefault
  | SplitPopulated (hpPercent : num).

Section CostModel.
Local Open Scope num_scope.

(** [!v] on a number that may be absent. *)
Definition falsy (v : option num) : bool :=
  match v with Some n => negb (Num.truthy n) | None => true end.

(** The heat-pump share chosen by the hybrid branch of
    [calculateSystemCosts] (lines 1010-1022). *)
Definition heatPumpPercentage (heatingDesign crossoverTemp : num) : num :=
  let xover := if Num.isFinite crossoverTemp then crossoverTemp else lit 35 in
  if heatingDesign >? xover then lit 1.0
  else if heatingDesign >? (xover - lit 15) then lit 0.7
  else if heatingDesign >? (xover - lit 25) then lit 0.5
  else lit 0.3.

(** [calculateSystemCosts] (lines 953-1048). *)
Definition calculateSystemCosts (houseLoads : HouseLoads.t)
  (systemType : SystemType) (specs : Specs.t) (hdd : option num)
  (cdd heatingDesign coolingDesign electricityRate gasRate crossoverTemp
     : num) : Costs.t :=
  let designHeatingLoad :=
    Num.or_else (HouseLoads.heating houseLoads) (lit 50000) in
  let designCoolingLoad :=
    Num.or_else (HouseLoads.cooling houseLoads) (lit 40000) in
  let indoorTemp := lit 65 in
  let heatingDesignDiff := indoorTemp - heatingDesign in
  let coolingDesignDiff := coolingDesign - indoorTemp in
  let heatLossRate := designHeatingLoad / heatingDesignDiff in
  let coolGainRate := designCoolingLoad / coolingDesignDiff in
  let annualHeatingLoad := heatLossRate * Number hdd * lit 24 in
  let annualCoolingLoad := coolGainRate * cdd * lit 24 in
  let '(annualHeatingCost, annualCoolingCost, annualTherms, annualKWh) :=
    match systemType with
    | furnace =>
        let heatingTherms :=
          annualHeatingLoad / (lit 100000 * Specs.furnaceAFUE specs) in
        (heatingTherms * gasRate, lit 0, heatingTherms, lit 0)
    | heatPump =>
        let heatingkWh :=
          annualHeatingLoad / (Specs.cop specs * lit 3412) in
        (heatingkWh * electricityRate, lit 0, lit 0, heatingkWh)
    | hybrid =>
        let heatPumpPercentage :=
          heatPumpPercentage heatingDesign crossoverTemp in
        let heatPumpHeatingLoad := annualHeatingLoad * heatPumpPercentage in
        let gasHeatingLoad :=
          annualHeatingLoad * (lit 1 - heatPumpPercentage) in
        let heatPumpkWh :=
          heatPumpHeatingLoad / (Specs.cop specs * lit 3412) in
        let gasHeatingTherms :=
          gasHeatingLoad / (lit 100000 * Specs.furnaceAFUE specs) in
        (heatPumpkWh * electricityRate + gasHeatingTherms * gasRate,
         lit 0, gasHeatingTherms, heatPumpkWh)
    end in
  let annualEnergyCost := annualHeatingCost + annualCoolingCost in
  Costs.mk (lit 0) (Num.round annualEnergyCost) (lit 0)
           (Num.round annualEnergyCost) annualTherms annualKWh.

(** [calculateHeatPumpEfficiency] (lines 1050-1081); [None] is [null]. *)
Definition calculateHeatPumpEfficiency (heatingDesign crossoverTemp : num)
  (hdd : option num) : option num :=
  let baseTemp := lit 65 in
  if falsy hdd || (Number hdd <=? lit 0) then None
  else if crossoverTemp >=? baseTemp then Some (lit 1.0)
  else if crossoverTemp <=? heatingDesign then Some (lit 0.0)
  else
    let totalRange := baseTemp - heatingDesign in
    let hpRange := baseTemp - crossoverTemp in
    if totalRange <=? lit 0 then Some (lit 0)
    else Some (Num.min (lit 1) (hpRange / totalRange)).

(** [computeAutoCrossoverTemperature] (lines 1090-1102).  Its arguments
    are numbers already, on which [parseFloat] is the identity. *)
Definition computeAutoCrossoverTemperature
  (pricePerKWh pricePerTherm furnaceEffPercent copAt47F : num) : num :=
  let afue :=
    Num.max (lit 0.5)
      (Num.min (lit 1.0) (Num.or_else furnaceEffPercent (lit 95) / lit 100)) in
  let e := Num.max (lit 0.01) (Num.or_else pricePerKWh (lit 0.12)) in
  let g := Num.max (lit 0.01) (Num.or_else pricePerTherm (lit 1.2)) in
  let cop47 := Num.max (lit 1.0) (Num.or_else copAt47F (lit 3.5)) in
  let cop17 := Num.max (lit 1.0) (cop47 - lit 1.5) in
  let slopePerDeg := (cop17 - cop47) / (lit 17 - lit 47) in
  let copThreshold := lit 29.3 * afue * (e / g) in
  if Num.abs slopePerDeg <? lit 0.000001 then lit 35
  else
    let t := lit 47 + (copThreshold - cop47) / slopePerDeg in
    Num.max (lit 0) (Num.min (lit 70) t).

(** [setHybridSplit] and [updateHybridSplitBar] (lines 1676-1731). *)
Definition setHybridSplit (hpPercent : num) : SplitBar :=
  if negb (Num.isFinite hpPercent) then SplitDefault
  else SplitPopulated (Num.max (lit 0) (Num.min (lit 100) hpPercent)).

Definition updateHybridSplitBar (heatPumpEfficiency : option num)
  : SplitBar :=
  match heatPumpEfficiency with
  | None => SplitDefault
  | Some e =>
      if (e <? lit 0) || (e >? lit 1) then SplitDefault
      else setHybridSplit (e * lit 100)
  end.

(** What a run of [calculateHVACCosts] leaves on the page. *)
Record Display : Type := mkDisplay {
  results : Results.t;
  maxCost : num;
  usedCrossover : num;
  splitBar : SplitBar
}.

(** [calculateHVACCosts] (lines 889-951). *)
Definition calculateHVACCosts (climateData : Climate.t)
  (houseLoads : HouseLoads.t) (page : Page.t) : Display :=
  let hdd := Climate.hdd climateData in
  let cdd := if Number_isFinite (Climate.cdd climateData)
             then Number (Climate.cdd climateData) else lit 0 in
  let heatingDesign := Number (Climate.heating climateData) in
  let coolingDesign := if Number_isFinite (Climate.cooling climateData)
                       then Number (Climate.cooling climateData) else lit 0 in
  let electricityRate := Num.or_else (Page.electricityRate page) (lit 0.12) in
  let gasRate := Num.or_else (Page.gasRate page) (lit 1.20) in
  let heatPumpCOP := Num.or_else (Page.heatPumpCOP page) (lit 3.5) in
  let furnaceEfficiency :=
    Num.or_else (Page.furnaceEfficiency page) (lit 95) in
  let crossoverTemp0 :=
    if Num.isFinite (Page.crossoverTemp page) then Page.crossoverTemp page
    else lit 35 in
  let crossoverTemp :=
    if Page.autoCrossover page then
      let auto := computeAutoCrossoverTemperature electricityRate gasRate
                    furnaceEfficiency heatPumpCOP in
      Num.max (lit 20) (Num.min (lit 50) (Num.round auto))
    else crossoverTemp0 in
  let run systemType specs :=
    calculateSystemCosts houseLoads systemType specs hdd cdd heatingDesign
      coolingDesign electricityRate gasRate crossoverTemp in
  let rHeatPump := run heatPump (Specs.mk heatPumpCOP NaN) in
  let rFurnace := run furnace (Specs.mk NaN (furnaceEfficiency / lit 100)) in
  let rHybrid :=
    run hybrid (Specs.mk heatPumpCOP (furnaceEfficiency / lit 100)) in
  let hpEff := calculateHeatPumpEfficiency heatingDesign crossoverTemp hdd in
  mkDisplay (Results.mk rHeatPump rFurnace rHybrid)
    (Num.max (Num.max (Costs.total rHeatPump) (Costs.total rFurnace))
             (Costs.total rHybrid))
    crossoverTemp (updateHybridSplitBar hpEff).

End CostModel.

(** An input field that is blank (so that [parseFloat] gives [NaN]) or holds
    a non-negative number. *)
Definition blankOrNonNegative (v : num) : Prop :=
  v = NaN \/ exists q, v = Fin q /\ (0 <= q)%Q.

(** The annual heating load in BTU, [heatLossRate * hdd * 24], on finite
    values: design load [l], design temperature [h], degree days [d]. *)
Definition annualLoad (l h d : Q) : Q := l / (65 - h) * d * 24.

(* ===================================================================== *)
(** ** Text helpers of the CSV loaders                                    *)
(* ===================================================================== *)

(** The string methods the loaders call, on ASCII text. *)
Module Str.

Definition is_space (c : ascii) : bool :=
  let n := nat_of_ascii c in
  ((n =? 32) || ((9 <=? n) && (n <=? 13)))%nat.

Fixpoint trimStart (s : string) : string :=
  match s with
  | String c r => if is_space c then trimStart r else s
  | EmptyString => EmptyString
  end.

(** [trimEnd] keeps a character when it is not a space or when something
    is kept after it. *)
Fixpoint trimEnd (s : string) : string :=
  match s with
  | EmptyString => EmptyString
  | String c r =>
      match trimEnd r with
      | EmptyString => if is_space c then EmptyString else String c EmptyString
      | r' => String c r'
      end
  end.

Definition trim (s : string) : string := trimEnd (trimStart s).

Definition lower (c : ascii) : ascii :=
  let n := nat_of_ascii c in
  if ((65 <=? n) && (n <=? 90))%nat then ascii_of_nat (n + 32) else c.

Definition upper (c : ascii) : ascii :=
  let n := nat_of_ascii c in
  if ((97 <=? n) && (n <=? 122))%nat then ascii_of_nat (n - 32) else c.

Fixpoint map_chars (f : ascii -> ascii) (s : string) : string :=
  match s with
  | EmptyString => EmptyString
  | String c r => String (f c) (map_chars f r)
  end.

Definition toLowerCase : string -> string := map_chars lower.
Definition toUpperCase : string -> string := map_chars upper.

(** [s.split(sep)] for a one-character separator; the current piece is
    accumulated in reverse. *)
Fixpoint split_acc (sep : ascii) (s : string) (piece : list ascii)
  : list string :=
  match s with
  | EmptyString => [string_of_list_ascii (rev piece)]
  | String c r =>
      if Ascii.eqb c sep
      then string_of_list_ascii (rev piece) :: split_acc sep r []
      else split_acc sep r (c :: piece)
  end.

Definition split (sep : ascii) (s : string) : list string :=
  split_acc sep s [].

(** Removes one trailing carriage return. *)
Fixpoint dropCR (s : string) : string :=
  match s with
  | EmptyString => EmptyString
  | String c EmptyString => if Ascii.eqb c "013" then EmptyString else s
  | String c r => String c (dropCR r)
  end.

(** All members but the last are mapped. *)
Fixpoint map_init {A} (f : A -> A) (l : list A) : list A :=
  match l with
  | [] => []
  | [x] => [x]
  | x :: r => f x :: map_init f r
  end.

(** [text.split(/\r?\n/)]. *)
Definition splitLines (text : string) : list string :=
  map_init dropCR (split "010" text).

Fixpoint zeros (n : nat) : string :=
  match n with O => EmptyString | S k => String "0" (zeros k) end.

(** [s.padStart(n, '0')]. *)
Definition padStart0 (n : nat) (s : string) : string :=
  zeros (n - String.length s) +:+ s.

(** [header.indexOf(name)], [None] for [-1]. *)
Fixpoint indexOf (name : string) (header : list string) : option nat :=
  match header with
  | [] => None
  | h :: r => if String.eqb h name then Some O
              else option_map S (indexOf name r)
  end.

(** [[idx(a), idx(b), ...].find(i => i >= 0)], [None] for [undefined]. *)
Fixpoint firstIndex (names : list string) (header : list string)
  : option nat :=
  match names with
  | [] => None
  | n :: r => match indexOf n header with
              | Some i => Some i
              | None => firstIndex r header
              end
  end.

(** [String(cols[i])]: a missing column reads as the text [undefined]. *)
Definition col (cols : list string) (i : nat) : string :=
  nth i cols "undefined".

End Str.

(* ===================================================================== *)
(** ** Dataset merges into [countyAshraeData]                             *)
(* ===================================================================== *)

(** [countyAshraeData] is an object keyed by FIPS code whose values are
    entries (objects, hence truthy): a finite map. *)

Section Merges.
Context {H : Host}.

(** The merge loop of [tryLoadExternalCountyJson] (lines 121-127) over
    [Object.entries(idx)]. *)
Definition mergeJsonIndex (idx : list (string * Entry.t))
  (countyAshraeData : gmap string Entry.t) : gmap string Entry.t :=
  fold_left
    (fun acc kv =>
       match acc !! fst kv with
       | Some _ => acc
       | None => <[fst kv := snd kv]> acc
       end)
    idx countyAshraeData.

(** [tryLoadExternalCountyJson] (lines 104-132).  [json] is the index that
    [buildCountyFipsIndex] makes of the first candidate file that loads,
    [None] when none does. *)
Definition tryLoadExternalCountyJson
  (json : option (list (string * Entry.t)))
  (countyAshraeData : gmap string Entry.t) : gmap string Entry.t :=
  match json with
  | None => countyAshraeData
  | Some idx => mergeJsonIndex idx countyAshraeData
  end.

(** The non-blank lines of a file and its header cells. *)
Definition csvLines (text : string) : list string :=
  List.filter (fun l => (0 <? String.length (Str.trim l))%nat)
              (Str.splitLines text).

Definition csvHeader (line : string) : list string :=
  map (fun h => Str.toLowerCase (Str.trim h)) (Str.split "," line).

(** [getNum] of the CSV loader (lines 162-165). *)
Definition csvGetNum (v : string) : option num :=
  let n := StringToNumber (Str.trim v) in
  if Num.isFinite n then Some n else None.

(** A cell under an optional column. *)
Definition optCell {A} (i : option nat) (f : string -> A) (cols : list string)
  : option A :=
  match i with Some k => Some (f (Str.col cols k)) | None => None end.

Definition optNum (i : option nat) (cols : list string) : option num :=
  match i with Some k => csvGetNum (Str.col cols k) | None => None end.

(** One row of [tryLoadExternalCountyCsv] (lines 158-177). *)
Definition csvRow (fipsIdx : nat)
  (nameIdx stateIdx heatingIdx coolingIdx hddIdx cddIdx : option nat)
  (countyAshraeData : gmap string Entry.t) (line : string)
  : gmap string Entry.t :=
  let cols := Str.split "," line in
  if (length cols <=? fipsIdx)%nat then countyAshraeData
  else
    let fips := Str.padStart0 5 (Str.trim (Str.col cols fipsIdx)) in
    if (String.length fips =? 0)%nat then countyAshraeData
    else
      match countyAshraeData !! fips with
      | Some _ => countyAshraeData
      | None =>
          let entry :=
            Entry.mk
              (optCell nameIdx Str.trim cols)
              (optCell stateIdx (fun c => Str.toUpperCase (Str.trim c)) cols)
              (Some fips)
              (optNum heatingIdx cols) None None None
              (optNum coolingIdx cols) None None None
              (optNum hddIdx cols) None None None
              (optNum cddIdx cols) None None None
              (Some "External CSV import"%string) None None in
          <[fips := entry]> countyAshraeData
      end.

(** [tryLoadExternalCountyCsv] (lines 134-183); [None] when the file is
    not served. *)
Definition tryLoadExternalCountyCsv (response : option string)
  (countyAshraeData : gmap string Entry.t) : gmap string Entry.t :=
  match response with
  | None => countyAshraeData
  | Some text =>
      match csvLines text with
      | first :: ((_ :: _) as rows) =>
          let header := csvHeader first in
          let idx := fun names => Str.firstIndex names header in
          match idx ["fips"; "county_fips"]%string with
          | None => countyAshraeData
          | Some fipsIdx =>
              fold_left
                (csvRow fipsIdx
                   (idx ["name"; "county"; "county_name"]%string)
                   (idx ["state"; "state_abbr"; "state_code"]%string)
                   (idx ["heating"; "heating_99"; "heatingdesign";
                         "heating_design"]%string)
                   (idx ["cooling"; "cooling_01"; "coolingdesign";
                         "cooling_design"]%string)
                   (idx ["hdd"; "hdd65"; "heating_degree_days"]%string)
                   (idx ["cdd"; "cdd65"; "cooling_degree_days"]%string))
                rows countyAshraeData
          end
      | _ => countyAshraeData
      end
  end.

(** One station row of the normals file (lines 208-218): the station, when
    the row is long enough and its coordinates are finite. *)
Definition normalsRow (idIdx latIdx lonIdx : nat)
  (nameIdx hddIdx cddIdx : option nat) (line : string) : option Normal.t :=
  let cols := Str.split "," line in
  if (length cols <=? Nat.max (Nat.max idIdx latIdx) lonIdx)%nat then None
  else
    let station :=
      Normal.mk (Str.trim (Str.col cols idIdx))
        (match nameIdx with
         | Some k => Str.trim (Str.col cols k)
         | None => EmptyString
         end)
        (parseFloat (Str.col cols latIdx))
        (parseFloat (Str.col cols lonIdx))
        (optCell hddIdx parseFloat cols)
        (optCell cddIdx parseFloat cols) in
    if Num.isFinite (Normal.lat station) && Num.isFinite (Normal.lon station)
    then Some station else None.

(** The body of the county loop (lines 225-235): an entry is touched only
    in the fields it is missing. *)
Definition fillFromNormals (stations : list Normal.t) (entry : Entry.t)
  : Entry.t :=
  let needsHdd := negb (Number_isFinite (Entry.hdd entry)) in
  let needsCdd := negb (Number_isFinite (Entry.cdd entry)) in
  if negb needsHdd && negb needsCdd then entry
  else
    match nearestStation (Entry.lat entry) (Entry.lon entry) stations with
    | None => entry
    | Some nearest =>
        let entry1 :=
          if needsHdd && Number_isFinite (Normal.hdd nearest)
          then Entry.set_hdd (Normal.hdd nearest) entry else entry in
        if needsCdd && Number_isFinite (Normal.cdd nearest)
        then Entry.set_cdd (Normal.cdd nearest) entry1 else entry1
    end.

(** [tryMergeNoaaNormalsHddCdd] (lines 186-240).  The loop visits every
    entry of the index once and writes to that entry only. *)
Definition tryMergeNoaaNormalsHddCdd (response : option string)
  (countyAshraeData : gmap string Entry.t) : gmap string Entry.t :=
  match response with
  | None => countyAshraeData
  | Some text =>
      match csvLines text with
      | first :: ((_ :: _) as rows) =>
          let header := csvHeader first in
          let idx := fun names => Str.firstIndex names header in
          match idx ["station_id"; "id"; "station"]%string,
                idx ["latitude"; "lat"]%string,
                idx ["longitude"; "lon"; "lng"]%string with
          | Some idIdx, Some latIdx, Some lonIdx =>
              let stations :=
                omap (normalsRow idIdx latIdx lonIdx
                        (idx ["station_name"; "name"]%string)
                        (idx ["hdd65_ann"; "hdd65"; "hdd"]%string)
                        (idx ["cdd65_ann"; "cdd65"; "cdd"]%string))
                     rows in
              match stations with
              | [] => countyAshraeData
              | _ => fillFromNormals stations <$> countyAshraeData
              end
          | _, _, _ => countyAshraeData
          end
      | _ => countyAshraeData
      end
  end.

(** A merge step of the start-up sequence (lines 353-355) with the file it
    finds. *)
Inductive MergeOp : Type :=
  | MergeJson (json : option (list (string * Entry.t)))
  | MergeCsv (response : option string)
  | MergeNormals (response : option string).

Definition runMerge (countyAshraeData : gmap string Entry.t) (op : MergeOp)
  : gmap string Entry.t :=
  match op with
  | MergeJson json => tryLoadExternalCountyJson json countyAshraeData
  | MergeCsv response => tryLoadExternalCountyCsv response countyAshraeData
  | MergeNormals response =>
      tryMergeNoaaNormalsHddCdd response countyAshraeData
  end.

Definition runMerges (ops : list MergeOp)
  (countyAshraeData : gmap string Entry.t) : gmap string Entry.t :=
  fold_left runMerge ops countyAshraeData.

End Merges.

(** [e'] is [e] up to its two degree-day fields. *)
Definition sameButDegreeDays (e e' : Entry.t) : Prop :=
  Entry.set_hdd None (Entry.set_cdd None e)
  = Entry.set_hdd None (Entry.set_cdd None e').

(** [e'] keeps what [e] holds: it differs from [e] at most in [hdd] and
    [cdd], and there only where [e] has no finite number. *)
Definition kept (e e' : Entry.t) : Prop :=
  sameButDegreeDays e e'
  /\ (Number_isFinite (Entry.hdd e) = true -> Entry.hdd e' = Entry.hdd e)
  /\ (Number_isFinite (Entry.cdd e) = true -> Entry.cdd e' = Entry.cdd e).

(* ===================================================================== *)
(** ** Climate record resolver                                            *)
(* ===================================================================== *)

(** [ZIP_TO_FIPS_OVERRIDE] (lines 50-56). *)
Definition ZIP_TO_FIPS_OVERRIDE : list (string * string) :=
  [ ("97201", "41051"); ("97219", "41051"); ("97501", "41029");
    ("97015", "41005"); ("96001", "06089") ]%string.

(** [LOCAL_RESNET_FALLBACK] (lines 467-470). *)
Definition LOCAL_RESNET_FALLBACK : list (string * Entry.t) :=
  [ ("01001"%string,
     Entry.station "AGAWAM/WESTFIELD, MA" 5 87 6479 764 "Hardcoded Fallback"
       42.1 (-72.6));
    ("97201"%string,
     Entry.station "PORTLAND, OR" 25 85 4635 341 "Hardcoded Fallback"
       45.5 (-122.7)) ].

(** What [getLocationFromZip] returns (lines 651-656). *)
Module Location.
Record t : Type := mk {
  latitude : num;
  longitude : num;
  city : option string;
  state : option string
}.
End Location.

(** What [getCountyFIPS] returns (lines 676-680); [countyFIPS] may be
    [null]. *)
Module FipsInfo.
Record t : Type := mk {
  countyFIPS : option string;
  countyName : string;
  stateAbbr : string
}.
End FipsInfo.

(** The services behind the suspend points of a lookup.  [None] stands for
    the file not being served. *)
Module Network.
Record t : Type := mk {
  (** the record, or the error thrown *)
  getLocationFromZip : string -> Location.t + string;
  getCountyFIPS : num -> num -> FipsInfo.t + string;
  (** the station array served as [noaa_climate_database.json] *)
  fetchNoaaStations : option (list NoaaStation.t)
}.
End Network.

(** A request that left the page. *)
Inductive NetCall : Type :=
  | CallZippopotam (zipCode : string)
  | CallFcc (lat lon : num)
  | FetchNoaaDb.

(** The globals a lookup reads and writes. *)
Module State.
Record t : Type := mk {
  RESNET_ASHRAE_DATA : list (string * Entry.t);
  countyAshraeData : gmap string Entry.t;
  NOAA_STATIONS_DB : option (list NoaaStation.t);
  climateData : option Climate.t
}.
End State.

(** How a lookup ends on the page: results are displayed, or an error is
    shown (with the message logged to the console, when there is one). *)
Inductive Outcome : Type :=
  | Shown (climateData : Climate.t) (display : Display)
  | Failed (shown : string) (logged : option string).

Module Lookup.
Record t : Type := mk {
  outcome : Outcome;
  calls : list NetCall;
  state : State.t
}.
End Lookup.

Section Resolver.
Context {H : Host}.

(** [normalizeCountyEntry] (lines 617-631). *)
Definition getNum (v : option num) : option num :=
  let n := Number v in
  if Num.isFinite n then Some n else None.

Definition normalizeCountyEntry (entry : Entry.t) (fipsInfo : FipsInfo.t)
  : Climate.t :=
  let heating := getNum (Entry.heating entry) ?? getNum (Entry.heating_99 entry)
                 ?? getNum (Entry.heatingDesign entry)
                 ?? getNum (Entry.heating_design entry) in
  let cooling := getNum (Entry.cooling entry) ?? getNum (Entry.cooling_01 entry)
                 ?? getNum (Entry.coolingDesign entry)
                 ?? getNum (Entry.cooling_design entry) in
  let hdd := getNum (Entry.hdd entry) ?? getNum (Entry.HDD entry)
             ?? getNum (Entry.heating_degree_days entry)
             ?? getNum (Entry.HDD65 entry) in
  let cdd := getNum (Entry.cdd entry) ?? getNum (Entry.CDD entry)
             ?? getNum (Entry.cooling_degree_days entry)
             ?? getNum (Entry.CDD65 entry) in
  let name := str_or (Entry.name entry)
                (FipsInfo.countyName fipsInfo +:+ ", " +:+
                 FipsInfo.stateAbbr fipsInfo) in
  let source := str_or (Entry.source entry)
                  "Appendix A (Normative) + RESNET HDD/CDD" in
  Climate.mk name heating cooling hdd cdd source
             (getNum (Entry.lat entry)) (getNum (Entry.lon entry)).

(** [loadNoaaStationsDb] (lines 16-34): the stations, the cache and the
    request made, if any. *)
Definition loadNoaaStationsDb (net : Network.t)
  (NOAA_STATIONS_DB : option (list NoaaStation.t))
  : list NoaaStation.t * option (list NoaaStation.t) * list NetCall :=
  match NOAA_STATIONS_DB with
  | Some db => (db, Some db, [])
  | None =>
      let db := match Network.fetchNoaaStations net with
                | Some json => json
                | None => []
                end in
      (db, Some db, [FetchNoaaDb])
  end.

(** Step 2b of the lookup (lines 560-578): the nearest station's degree
    days and its name are merged into the normalized record. *)
Definition mergeNearestNoaa (lat lon : num) (stations : list NoaaStation.t)
  (normalized : Climate.t) : Climate.t :=
  if (length stations =? 0)%nat then normalized
  else
    match findNearestNoaaStation lat lon stations with
    | None => normalized
    | Some (station, _) =>
        let hdd := Number (NoaaStation.hdd station) in
        let cdd := Number (NoaaStation.cdd station) in
        let nearestName :=
          str_or (NoaaStation.name station)
            (str_or (NoaaStation.station_id station) "NOAA Station") in
        let note :=
          "NOAA Normals 2006–2020 (nearest: " +:+ nearestName +:+ ")" in
        Climate.mk (Climate.name normalized) (Climate.heating normalized)
          (Climate.cooling normalized)
          (if Num.isFinite hdd then Some hdd else Climate.hdd normalized)
          (if Num.isFinite cdd then Some cdd else Climate.cdd normalized)
          (match Climate.source normalized with
           | EmptyString => note
           | src => src +:+ " + " +:+ note
           end)
          (Climate.lat normalized) (Climate.lon normalized)
    end.

Definition noData : string :=
  "No valid county-level ASHRAE data available for this ZIP.".

(** Step 1 of the lookup (lines 509-527): the record made of the in-memory
    entry of the ZIP, when it has one with four finite numbers. *)
Definition inMemoryRecord (RESNET_ASHRAE_DATA : list (string * Entry.t))
  (zipCode : string) : option Climate.t :=
  let resnetData := assoc zipCode RESNET_ASHRAE_DATA in
  let fallbackData := assoc zipCode LOCAL_RESNET_FALLBACK in
  match resnetData ?? fallbackData with
  | None => None
  | Some zr =>
      if forallb (fun v => Num.isFinite (Number v))
           [Entry.heating zr; Entry.cooling zr; Entry.hdd zr; Entry.cdd zr]
      then
        Some (Climate.mk
                (str_or (Entry.name zr) ("ZIP " +:+ zipCode))
                (Some (Number (Entry.heating zr)))
                (Some (Number (Entry.cooling zr)))
                (Some (Number (Entry.hdd zr)))
                (Some (Number (Entry.cdd zr)))
                (match Entry.source zr with
                 | Some (String c r) =>
                     "RESNET/ASHRAE ZIP " +:+ zipCode +:+ " – " +:+ String c r
                 | _ => "RESNET/ASHRAE ZIP " +:+ zipCode
                 end)
                (Some (Number (Entry.lat zr)))
                (Some (Number (Entry.lon zr))))
      else None
  end.

(** Step 2 of the lookup up to the first completeness check (lines
    544-558): the county entry of the FIPS code the resolver returned, else
    the nearest ZIP station, normalized.  The result is the record or the
    error thrown.  (In the source the new [source] text is written into the
    station object of the table itself; the table of the model is left as it
    was, as no statement below reads it after a network lookup.) *)
Definition countyRecord (st : State.t) (locationData : Location.t)
  (fipsInfo : FipsInfo.t) : Climate.t + string :=
  let key := match FipsInfo.countyFIPS fipsInfo with
             | Some f => f
             | None => "null"%string
             end in
  let countyEntry :=
    match State.countyAshraeData st !! key with
    | Some e => Some e
    | None =>
        match findNearestResnetStation (State.RESNET_ASHRAE_DATA st)
                (Location.latitude locationData)
                (Location.longitude locationData)
        with
        | Some s =>
            Some (Entry.set_source
                    (Some ("Nearest RESNET Station: " +:+
                           template (Entry.name s))) s)
        | None => None
        end
    end in
  match countyEntry with
  | None => inr "All lookups and fallbacks failed."%string
  | Some entry =>
      let normalized := normalizeCountyEntry entry fipsInfo in
      if negb (Number_isFinite (Climate.heating normalized))
      then inr "Final data is incomplete (missing heating design temperature)."%string
      else inl normalized
  end.

Definition setState (st : State.t) (cache : option (list NoaaStation.t))
  (climateData : option Climate.t) : State.t :=
  State.mk (State.RESNET_ASHRAE_DATA st) (State.countyAshraeData st) cache
           climateData.

Definition needsNetwork : string :=
  "This ZIP requires a network lookup. Please use " +:+ String "034" "Go Live"
  +:+ String "034" " to run on a local server.".

(** [lookupClimateData] (lines 496-595) on the trimmed content of the ZIP
    field.  [file] tells whether the page runs from [file:].  Rendering
    ([displayClimateData], the DOM writes of [calculateHVACCosts]) is taken
    not to throw, so that step 1 returns once it has a record; the resolver
    calls are made in sequence, each recorded in [calls]. *)
Definition lookupClimateData (net : Network.t) (file : bool)
  (houseLoads : HouseLoads.t) (page : Page.t) (st : State.t)
  (zipCode : string) : Lookup.t :=
  if negb (String.length zipCode =? 5)%nat
  then Lookup.mk (Failed "Please enter a valid 5-digit zip code" None) [] st
  else
    match inMemoryRecord (State.RESNET_ASHRAE_DATA st) zipCode with
    | Some climateData =>
        Lookup.mk
          (Shown climateData (calculateHVACCosts climateData houseLoads page))
          [] (setState st (State.NOAA_STATIONS_DB st) (Some climateData))
    | None =>
        if file then Lookup.mk (Failed needsNetwork None) [] st
        else
          match Network.getLocationFromZip net zipCode with
          | inr err =>
              Lookup.mk (Failed noData (Some err)) [CallZippopotam zipCode] st
          | inl locationData =>
              let lat := Location.latitude locationData in
              let lon := Location.longitude locationData in
              match Network.getCountyFIPS net lat lon with
              | inr err =>
                  Lookup.mk (Failed noData (Some err))
                    [CallZippopotam zipCode; CallFcc lat lon] st
              | inl fipsInfo =>
                  match countyRecord st locationData fipsInfo with
                  | inr err =>
                      Lookup.mk (Failed noData (Some err))
                        [CallZippopotam zipCode; CallFcc lat lon] st
                  | inl normalized =>
                      let '(stations, cache, fetched) :=
                        loadNoaaStationsDb net (State.NOAA_STATIONS_DB st) in
                      let calls :=
                        [CallZippopotam zipCode; CallFcc lat lon] ++ fetched in
                      let normalized :=
                        mergeNearestNoaa lat lon stations normalized in
                      if negb (Number_isFinite (Climate.hdd normalized))
                      then
                        Lookup.mk
                          (Failed noData
                             (Some "Final data is incomplete (missing HDD after NOAA merge)."%string))
                          calls (setState st cache (State.climateData st))
                      else
                        Lookup.mk
                          (Shown normalized
                             (calculateHVACCosts normalized houseLoads page))
                          calls (setState st cache (Some normalized))
                  end
              end
          end
    end.

End Resolver.

(* ===================================================================== *)
(** ** The bundled tables                                                 *)
(* ===================================================================== *)

(** [RESNET_ASHRAE_DATA] ([resnet_ashrae_data.js]), in the order in which
    [Object.values] enumerates it: the keys that are canonical integers in
    ascending order, then ['02101']. *)
Definition RESNET_ASHRAE_DATA : list (string * Entry.t) :=
  [ ("10001"%string, Entry.station "New York, NY" 8 88 5000 600
       "John F. Kennedy International Airport" 40.641 (-73.778));
    ("30301"%string, Entry.station "Atlanta, GA" 18 92 3000 1800
       "Hartsfield-Jackson Atlanta International Airport" 33.640 (-84.428));
    ("33040"%string, Entry.station "Key West, FL" 50 90 100 3800
       "Key West International Airport" 24.556 (-81.759));
    ("33101"%string, Entry.station "Miami, FL" 48 89 200 3500
       "Miami International Airport" 25.795 (-80.287));
    ("55401"%string, Entry.station "Minneapolis, MN" (-15) 85 9000 300
       "Minneapolis-Saint Paul International Airport" 44.884 (-93.222));
    ("60601"%string, Entry.station "Chicago, IL" (-5) 88 7000 600
       "Chicago O'Hare International Airport" 41.978 (-87.907));
    ("75201"%string, Entry.station "Dallas, TX" 18 98 2500 2500
       "Dallas/Fort Worth International Airport" 32.896 (-97.038));
    ("77001"%string, Entry.station "Houston, TX" 28 95 1500 3000
       "George Bush Intercontinental Airport" 29.984 (-95.341));
    ("80202"%string, Entry.station "Denver, CO" 5 92 6000 800
       "Denver International Airport" 39.856 (-104.673));
    ("83001"%string, Entry.station "Jackson, WY" (-15) 82 10000 200
       "Jackson Hole Airport" 43.607 (-110.738));
    ("85001"%string, Entry.station "Phoenix, AZ" 32 108 1000 4500
       "Phoenix Sky Harbor International Airport" 33.434 (-112.011));
    ("89101"%string, Entry.station "Las Vegas, NV" 28 108 1500 3500
       "McCarran International Airport" 36.085 (-115.153));
    ("90210"%string, Entry.station "Los Angeles, CA" 40 85 800 1200
       "Los Angeles International Airport" 34.052 (-118.244));
    ("94102"%string, Entry.station "San Francisco, CA" 38 75 2000 200
       "San Francisco International Airport" 37.774 (-122.419));
    ("96001"%string, Entry.station "Redding, CA" 25 108 3000 2500
       "Redding Municipal Airport" 40.509 (-122.293));
    ("97201"%string, Entry.station "Portland, OR" 20 88 4000 400
       "Portland International Airport" 45.589 (-122.593));
    ("97501"%string, Entry.station "Jacksonville, OR" 15 98 4500 600
       "Rogue Valley International-Medford Airport" 42.374 (-122.873));
    ("97701"%string, Entry.station "Bend, OR" 5 88 6000 300
       "Bend Municipal Airport" 44.094 (-121.200));
    ("98101"%string, Entry.station "Seattle, WA" 25 82 4000 200
       "Seattle-Tacoma International Airport" 47.450 (-122.309));
    ("02101"%string, Entry.station "Boston, MA" 5 85 6000 400
       "Logan International Airport" 42.360 (-71.058)) ].

Definition multnomahEntry : Entry.t :=
  Entry.county "Multnomah County, OR" "OR" "41051" 24 88 4000 400
    "Appendix A (Normative) 2013 + RESNET HDD/CDD (Portland Intl Airport)"
    45.52 (-122.68).

(** [ASHRAE_COUNTY_DATA] of [ashrae_county_data_updated.js]; every entry
    carries its own [fips], under which [buildCountyFipsIndex] files it. *)
Definition ASHRAE_COUNTY_DATA : list (string * Entry.t) :=
  [ ("41051"%string, multnomahEntry);
    ("41029"%string, Entry.county "Jackson County, OR" "OR" "41029"
       15 98 4500 600
       "Appendix A (Normative) + RESNET HDD/CDD (Rogue Valley Intl–Medford)"
       42.33 (-122.87));
    ("41005"%string, Entry.county "Clackamas County, OR" "OR" "41005"
       24 88 4000 400
       "Appendix A (design temps, PDX proxy) + HDD/CDD provisional for dev test"
       45.41 (-122.57));
    ("06089"%string, Entry.county "Shasta County, CA" "CA" "06089"
       25 108 3000 2500
       "RESNET/ASHRAE (Redding 96001) – Redding Municipal Airport normals"
       40.509 (-122.293)) ].

(** Sample files for the merges: a county CSV that names a county already
    in the index and a new one, and a normals CSV with one usable station. *)
Definition newline : string := String "010" EmptyString.

Definition sampleCountyCsv : string :=
  "FIPS,Heating_99,HDD" +:+ newline +:+ "41051,99,1" +:+ newline
  +:+ "1234,10.5,n/a".

Definition sampleNormalsCsv : string :=
  "station_id,lat,lon,hdd65,cdd65" +:+ newline
  +:+ "USW00024229,45.5,-122.6,4400,390" +:+ newline
  +:+ "USW00000000,unknown,-122.6,1,1".

(** The entry of ZIP 33101 and the record step 1 makes of it. *)
Definition miamiEntry : Entry.t :=
  Entry.station "Miami, FL" 48 89 200 3500 "Miami International Airport"
    25.795 (-80.287).

Definition miamiRecord : Climate.t :=
  Climate.mk "Miami, FL" (Some (lit 48)) (Some (lit 89)) (Some (lit 200))
    (Some (lit 3500)) "RESNET/ASHRAE ZIP 33101 – Miami International Airport"
    (Some (lit 25.795)) (Some (lit (-80.287))).

(** The record of Clackamas County, as normalized from its county entry. *)
Definition clackamasRecord : Climate.t :=
  Climate.mk "Clackamas County, OR" (Some (lit 24)) (Some (lit 88))
    (Some (lit 4000)) (Some (lit 400))
    "Appendix A (design temps, PDX proxy) + HDD/CDD provisional for dev test"
    (Some (lit 45.41)) (Some (lit (-122.57))).

(** ZIP 97219 (south-west Portland) as the services may answer it: the
    geocoder places it at its centroid, the county resolver answers with a
    county FIPS code, and the station file holds the stations given. *)
Definition zip97219 (fips : string) (county : string)
  (stations : option (list NoaaStation.t)) : Network.t :=
  Network.mk
    (fun _ => inl (Location.mk (lit 45.4543) (lit (-122.707))
                     (Some "Portland"%string) (Some "OR"%string)))
    (fun _ _ => inl (FipsInfo.mk (Some fips) county "OR"))
    stations.

(** A station of the station file that sits on that centroid. *)
Definition stationAt97219 : NoaaStation.t :=
  NoaaStation.mk (Some (lit 45.4543)) (Some (lit (-122.707)))
    (Some (lit 4461)) (Some (lit 433)) (Some "PORTLAND SW"%string) None.

(** The page as first loaded: the tables above, no station cache, no record
    displayed. *)
Definition initialState : State.t :=
  State.mk RESNET_ASHRAE_DATA (list_to_map ASHRAE_COUNTY_DATA) None None.

(** The load of the worked examples: 50000 BTU/hr of heating, no cooling
    load entered. *)
Definition exampleLoads : HouseLoads.t := HouseLoads.mk (lit 50000) (lit 0).

(** A record whose heating design temperature sits on the degree-day base. *)
Definition recordAt65 : Climate.t :=
  Climate.mk "Design temperature 65" (Some (lit 65)) (Some (lit 89))
    (Some (lit 200)) (Some (lit 3500)) "example" None None.

(** The record of Multnomah County, as normalized from its county entry. *)
Definition multnomahRecord : Climate.t :=
  Climate.mk "Multnomah County, OR" (Some (lit 24)) (Some (lit 88))
    (Some (lit 4000)) (Some (lit 400))
    "Appendix A (Normative) 2013 + RESNET HDD/CDD (Portland Intl Airport)"
    (Some (lit 45.52)) (Some (lit (-122.68))).

(** The default content of the input fields. *)
Definition defaultPage : Page.t :=
  Page.mk (lit 0.12) (lit 1.20) (lit 3.5) (lit 95) false (lit 35).

(** A network on which nothing answers. *)
Definition noNetwork : Network.t :=
  Network.mk (fun _ => inr "Location lookup failed"%string)
             (fun _ _ => inr "FIPS lookup failed"%string) None.

(* ===================================================================== *)
(** ** The heat-pump share of the design notes                            *)
(* ===================================================================== *)

(** The piecewise share the design document describes for the hybrid system,
    word for word: 1 when the design temperature exceeds the crossover, 1
    when the crossover is at or above 65, 0 when the crossover is at or below
    the design temperature, else [min(1, (65 - crossover) / (65 - design))].
    It is kept apart from the code to be compared with it. *)
Definition documentedShare (heatingDesign crossover : num) : num :=
  if (heatingDesign >? crossover)%num then lit 1
  else if (crossover >=? lit 65)%num then lit 1
  else if (crossover <=? heatingDesign)%num then lit 0
  else Num.min (lit 1) ((lit 65 - crossover) / (lit 65 - heatingDesign))%num.

(* ===================================================================== *)
(** ** Further numeric operations                                         *)
(* ===================================================================== *)

(** [a === b] on numbers: [NaN] equals nothing. *)
Definition strictEq (a b : num) : bool :=
  match a, b with
  | Fin x, Fin y => Qeq_bool x y
  | PInf, PInf | NInf, NInf => true
  | _, _ => false
  end.

(** [Math.min(...l)]. *)
Definition Math_min (l : list num) : num := fold_left Num.min l PInf.

(** [Math.pow(x, y)] for a whole number [y] of years. *)
Fixpoint Math_pow (x : num) (y : nat) : num :=
  match y with
  | O => lit 1
  | S k => (x * Math_pow x k)%num
  end.

(** The coercion of [null] in arithmetic is [0]; it serves where [None]
    stands for [null]. *)
Definition nullToZero (v : option num) : num :=
  match v with Some n => n | None => lit 0 end.

(* ===================================================================== *)
(** ** Degree-day estimates                                               *)
(* ===================================================================== *)

Section Estimates.
Local Open Scope num_scope.

(** [calculateHDD] and [calculateCDD] (lines 808-818). *)
Definition calculateHDD (heatingDesign : num) : num :=
  let baseTemp := lit 65 in
  let dailyHDD := Num.max (lit 0) (baseTemp - heatingDesign) in
  Num.round (dailyHDD * lit 365.25).

Definition calculateCDD (coolingDesign : num) : num :=
  let baseTemp := lit 65 in
  let dailyCDD := Num.max (lit 0) (coolingDesign - baseTemp) in
  Num.round (dailyCDD * lit 365.25).

End Estimates.

(* ===================================================================== *)
(** ** The heating load field and the annual energy figures               *)
(* ===================================================================== *)

(** What the page does to the text of an input field before it reads a
    number from it. *)
Module Input.

Definition is_digit (c : ascii) : bool :=
  let n := nat_of_ascii c in ((48 <=? n) && (n <=? 57))%nat.

Fixpoint keep (p : ascii -> bool) (s : string) : string :=
  match s with
  | EmptyString => EmptyString
  | String c r => if p c then String c (keep p r) else keep p r
  end.

(** [value.replace(/[^\d]/g, '')]. *)
Definition keepDigits : string -> string := keep is_digit.

(** [String(value).replace(/[^0-9.\-]/g, '')]. *)
Definition keepMoney : string -> string :=
  keep (fun c => is_digit c || Ascii.eqb c "." || Ascii.eqb c "-").

Fixpoint digitsAcc (s : string) (acc : Z) : Z :=
  match s with
  | EmptyString => acc
  | String c r => digitsAcc r (acc * 10 + (Z.of_nat (nat_of_ascii c) - 48))%Z
  end.

(** [parseFloat] on a text made of decimal digits only: its value, [NaN]
    for the empty text.  (As everywhere, the value is exact: a text too long
    for a double does not overflow to [Infinity].) *)
Definition parseDigits (s : string) : num :=
  match s with
  | EmptyString => NaN
  | _ => Fin (inject_Z (digitsAcc s 0))
  end.

End Input.

(** The four figures of the annual energy panel, before they are
    formatted. *)
Module Annual.
Record t : Type := mk {
  gasHeat : num;
  heatPump : num;
  hybridGas : num;
  hybridElec : num
}.
End Annual.

Section HeatingLoad.
Local Open Scope num_scope.

(** [updateAnnualHeatingDisplay] (lines 281-315): the figures written, or
    [None] when the function returns before writing. *)
Definition updateAnnualHeatingDisplay (climateData : option Climate.t)
  (page : Page.t) (heatingLoad : num) : option Annual.t :=
  match climateData with
  | None => None
  | Some climateData =>
      let hdd := Num.or_else (Number (Climate.hdd climateData)) (lit 0) in
      let heatingDesign := Number (Climate.heating climateData) in
      let indoorTemp := lit 65 in
      let heatingDesignDiff := indoorTemp - heatingDesign in
      if heatingDesignDiff <=? lit 0 then None
      else
        let heatLossRate := heatingLoad / heatingDesignDiff in
        let annualHeatingLoadBTU := heatLossRate * hdd * lit 24 in
        let afue :=
          Num.or_else (Page.furnaceEfficiency page) (lit 95) / lit 100 in
        let cop := Num.or_else (Page.heatPumpCOP page) (lit 3.5) in
        let crossoverTemp := Num.or_else (Page.crossoverTemp page) (lit 35) in
        let hpShare :=
          nullToZero
            (calculateHeatPumpEfficiency heatingDesign crossoverTemp
               (Some hdd)) in
        let gasTherms := annualHeatingLoadBTU / (lit 100000 * afue) in
        let hpKWh := annualHeatingLoadBTU / (cop * lit 3412) in
        let hybridGasTherms :=
          (annualHeatingLoadBTU * (lit 1 - hpShare)) / (lit 100000 * afue) in
        let hybridElecKWh :=
          (annualHeatingLoadBTU * hpShare) / (cop * lit 3412) in
        Some (Annual.mk (Num.round gasTherms) (Num.round hpKWh)
                (Num.round hybridGasTherms) (Num.round hybridElecKWh))
  end.

(** [updateHeatingLoad] (lines 263-279) on the text of the load field: the
    new [houseLoads] and the annual figures written. *)
Definition updateHeatingLoad (value : string)
  (climateData : option Climate.t) (page : Page.t)
  : HouseLoads.t * option Annual.t :=
  let heatingLoadInput :=
    Num.or_else (Input.parseDigits (Input.keepDigits value)) (lit 0) in
  let coolingLoad := Num.round (heatingLoadInput * lit 0.8) in
  (HouseLoads.mk heatingLoadInput coolingLoad,
   updateAnnualHeatingDisplay climateData page heatingLoadInput).

(** [updateHybridSplitFromLoads] (lines 1696-1708), on numbers. *)
Definition updateHybridSplitFromLoads (hpLoad furnaceLoad : num) : SplitBar :=
  let hp := hpLoad in
  let fn := furnaceLoad in
  if negb (hp >=? lit 0) || negb (fn >=? lit 0) then SplitDefault
  else
    let total := hp + fn in
    if total <=? lit 0 then SplitDefault
    else setHybridSplit (hp / total * lit 100).

End HeatingLoad.

(* ===================================================================== *)
(** ** Rendering of the results                                           *)
(* ===================================================================== *)

(** The keys of [results], in the order in which they were added. *)
Definition systemTypes : list SystemType := [heatPump; furnace; hybrid].

Definition resultOf (results : Results.t) (s : SystemType) : Costs.t :=
  match s with
  | heatPump => Results.heatPump results
  | furnace => Results.furnace results
  | hybrid => Results.hybrid results
  end.

Definition totalOf (results : Results.t) (s : SystemType) : num :=
  Costs.total (resultOf results s).

(** What the hybrid decision panel shows. *)
Module Decision.
Record t : Type := mk {
  hpPct : num;
  gasPct : num;
  (** the two amounts of the savings line, [None] for [Savings: --] *)
  savings : option (num * num);
  lowestBadge : bool
}.
End Decision.

Section Rendering.
Local Open Scope num_scope.

(** [displayCostBars] (lines 1136-1159): the box that gets the class
    [lowest].  [None] stands for the [TypeError] raised by [.type] when
    [find] meets no cost equal to the minimum. *)
Definition displayCostBars (results : Results.t) : option SystemType :=
  let costs := map (fun s => (s, totalOf results s)) systemTypes in
  let lowestCost := Math_min (map snd costs) in
  option_map fst (List.find (fun c => strictEq (snd c) lowestCost) costs).

(** [showWinner] (lines 1240-1260): the box that gets the class. *)
Definition showWinner (results : Results.t) : SystemType :=
  let costs := map (totalOf results) systemTypes in
  let minCost := Math_min costs in
  match List.find (fun s => strictEq (totalOf results s) minCost) systemTypes
  with
  | Some systemType => systemType
  | None => heatPump
  end.

(** [updateHybridDecision] (lines 1104-1134). *)
Definition updateHybridDecision (results : Results.t)
  (heatingDesign crossoverTemp : num) (hdd : option num) : Decision.t :=
  let hpEff := calculateHeatPumpEfficiency heatingDesign crossoverTemp hdd in
  let hpPct := Num.round (nullToZero hpEff * lit 100) in
  let gasPct := lit 100 - hpPct in
  let hpCost := totalOf results heatPump in
  let gasCost := totalOf results furnace in
  let hybCost := totalOf results hybrid in
  if forallb Num.isFinite [hpCost; gasCost; hybCost] then
    let saveVsHP := hpCost - hybCost in
    let saveVsGas := gasCost - hybCost in
    Decision.mk hpPct gasPct
      (Some (Num.round (Num.max (lit 0) saveVsHP),
             Num.round (Num.max (lit 0) saveVsGas)))
      ((hybCost <=? hpCost) && (hybCost <=? gasCost))
  else Decision.mk hpPct gasPct None false.

End Rendering.

(* ===================================================================== *)
(** ** Cost of ownership                                                  *)
(* ===================================================================== *)

(** The fields of the ownership card, as text; a money field may be missing
    from the page. *)
Module Tco.
Record Inputs : Type := mkInputs {
  includeTCO : bool;
  tcoYears : string;
  tcoDiscount : string;
  install : SystemType -> option string;
  maint : SystemType -> option string;
  rebate : SystemType -> option string;
  tcoCarbonPrice : string
}.
Record t : Type := mk {
  years : num;
  tcoHeatPump : num;
  tcoFurnace : num;
  tcoHybrid : num
}.
End Tco.

Section Ownership.
Context {H : Host}.
Local Open Scope num_scope.

(** [parseMoney] (lines 1742-1747). *)
Definition parseMoney (field : option string) : num :=
  match field with
  | None => lit 0
  | Some value =>
      let n := StringToNumber (Input.keepMoney value) in
      if Num.isFinite n then n else lit 0
  end.

(** The number of turns of [for (let y = 1; y <= years; y++)]; the loop
    does not end when [years] is [Infinity]. *)
Definition turns (years : num) : option nat :=
  match years with
  | PInf => None
  | Fin q => Some (Z.to_nat (Qfloor q))
  | _ => Some O
  end.

(** [npvOfSeries] (lines 1749-1757) on a rate that is a number already;
    [None] when the loop does not end. *)
Definition npvOfSeries (years ratePct : num) (annualSeries : list num)
  : option num :=
  let r := Num.or_else ratePct (lit 0) / lit 100 in
  match turns years with
  | None => None
  | Some n =>
      Some (fold_left
              (fun npv y =>
                 let cf :=
                   Num.or_else (Number (nth_error annualSeries (y - 1)))
                     (lit 0) in
                 npv + cf / Math_pow (lit 1 + r) y)
              (seq 1 n) (lit 0))
  end.

(** [computeCarbonCost] (lines 1759-1762). *)
Definition computeCarbonCost (annualTons pricePerTon : num) : num :=
  let p := Num.or_else pricePerTon (lit 0) in
  Num.or_else annualTons (lit 0) * p.

(** [Array.from({ length: years }, () => annual)]. *)
Definition constantSeries (years annual : num) : list num :=
  match years with
  | Fin q => repeat annual (Z.to_nat (Qfloor q))
  | _ => []
  end.

(** [computeTCO] (lines 1764-1816): the years and the three totals written,
    [None] when the card is switched off. *)
Definition computeTCO (inputs : Tco.Inputs) (results : Results.t)
  : option Tco.t :=
  if negb (Tco.includeTCO inputs) then None
  else
    let years :=
      Num.max (lit 1)
        (Num.min (lit 30)
           (Num.or_else (StringToNumber (Tco.tcoYears inputs)) (lit 15))) in
    let rate := Num.or_else (StringToNumber (Tco.tcoDiscount inputs)) (lit 0) in
    let carbonPrice :=
      Num.or_else (StringToNumber (Tco.tcoCarbonPrice inputs)) (lit 0) in
    let series k :=
      let carbonCost := computeCarbonCost (lit 0) carbonPrice in
      let annual :=
        totalOf results k + parseMoney (Tco.maint inputs k) + carbonCost in
      constantSeries years annual in
    let tco k :=
      let upfront :=
        Num.max (lit 0)
          (parseMoney (Tco.install inputs k)
           - parseMoney (Tco.rebate inputs k)) in
      let pv := Number (npvOfSeries years rate (series k)) in
      upfront + pv in
    Some (Tco.mk years (tco heatPump) (tco furnace) (tco hybrid)).

End Ownership.

(* ===================================================================== *)
(** ** The county index                                                   *)
(* ===================================================================== *)

(** A value of a dataset file.  The members of an object are kept in the
    order in which the object enumerates them; its keys are distinct. *)
#[warnings="-register-all"]
Inductive json : Type :=
  | JNull
  | JBool (b : bool)
  | JNum (n : num)
  | JStr (s : string)
  | JArr (items : list json)
  | JObj (props : list (string * json)).

(** What [buildCountyFipsIndex] returns: an index it built, or the dataset
    itself. *)
Inductive CountyIndex : Type :=
  | Indexed (index : gmap string json)
  | Raw (dataset : json).

Module Json.

Definition truthy (v : json) : bool :=
  match v with
  | JNull => false
  | JBool b => b
  | JNum n => Num.truthy n
  | JStr s => negb (String.eqb s EmptyString)
  | JArr _ | JObj _ => true
  end.

(** [v && typeof v === 'object']. *)
Definition isObject (v : json) : bool :=
  match v with JArr _ | JObj _ => true | _ => false end.

(** [v.k], [None] for [undefined]; only the members of objects are read
    here. *)
Definition get (k : string) (v : json) : option json :=
  match v with JObj props => assoc k props | _ => None end.

(** [a || b] on values that may be [undefined]. *)
Definition or_else (a b : option json) : option json :=
  match a with
  | Some v => if truthy v then a else b
  | None => b
  end.

Fixpoint indexed {A} (i : nat) (l : list A) : list (string * A) :=
  match l with
  | [] => []
  | x :: r => (NilEmpty.string_of_uint (Nat.to_uint i), x) :: indexed (S i) r
  end.

Fixpoint chars (s : string) : list json :=
  match s with
  | EmptyString => []
  | String c r => JStr (String c EmptyString) :: chars r
  end.

(** [Object.entries(v)]: the members of an object, the items of an array
    and the characters of a text under their indices. *)
Definition entries (v : json) : list (string * json) :=
  match v with
  | JObj props => props
  | JArr items => indexed 0 items
  | JStr s => indexed 0 (chars s)
  | _ => []
  end.

End Json.

Section CountyIndex.

(** [String(n)] on a number. *)
Variable NumberToString : num -> string.

(** [String(v)]. *)
Fixpoint toString (v : json) : string :=
  match v with
  | JNull => "null"
  | JBool true => "true"
  | JBool false => "false"
  | JNum n => NumberToString n
  | JStr s => s
  | JArr items =>
      (fix join (l : list json) : string :=
         match l with
         | [] => EmptyString
         | x :: r =>
             let sx := match x with JNull => EmptyString | _ => toString x end in
             match r with
             | [] => sx
             | _ => sx +:+ "," +:+ join r
             end
         end) items
  | JObj _ => "[object Object]"
  end.

(** [val.fips || val.FIPS || val.countyFIPS || val.county_fips]. *)
Definition fipsRaw (val : json) : option json :=
  Json.or_else
    (Json.or_else
       (Json.or_else (Json.get "fips" val) (Json.get "FIPS" val))
       (Json.get "countyFIPS" val))
    (Json.get "county_fips" val).

(** The key under which [addEntry] files a value, if it does. *)
Definition fipsKey (raw : option json) : option string :=
  match raw with
  | None | Some JNull => None
  | Some v => Some (Str.padStart0 5 (toString v))
  end.

(** [addEntry] (lines 61-68). *)
Definition addEntry (val : json) (index : gmap string json)
  : gmap string json :=
  if negb (Json.isObject val) then index
  else
    match fipsKey (fipsRaw val) with
    | Some fips => <[fips := val]> index
    | None => index
    end.

(** [walk] (lines 69-86).  [fuel] is the number of levels left: the walk
    at depth [d] has [4 - d] of them and returns at once when [d > 3]. *)
Fixpoint walk (fuel : nat) (node : json) (index : gmap string json)
  : gmap string json :=
  match fuel with
  | O => index
  | S deeper =>
      match node with
      | JArr items =>
          fold_left
            (fun index item =>
               let index := addEntry item index in
               if Json.isObject item then walk deeper item index else index)
            items index
      | JObj props =>
          fold_left
            (fun index v =>
               if Json.isObject v then walk deeper v index else index)
            (map snd props) (addEntry node index)
      | _ => index
      end
  end.

(** The shallow key scan (lines 89-96). *)
Definition shallowScan (dataset : json) : gmap string json :=
  fold_left
    (fun shallow kv =>
       if negb (Json.isObject (snd kv)) then shallow
       else
         match fipsKey (Json.or_else (fipsRaw (snd kv))
                          (Some (JStr (fst kv)))) with
         | Some fips =>
             if (String.length fips =? 0)%nat then shallow
             else <[fips := snd kv]> shallow
         | None => shallow
         end)
    (if Json.truthy dataset then Json.entries dataset else []) ∅.

(** [buildCountyFipsIndex] (lines 58-102). *)
Definition buildCountyFipsIndex (dataset : json) : CountyIndex :=
  let index := walk 4 dataset ∅ in
  if negb (size index =? 0)%nat then Indexed index
  else
    let shallow := shallowScan dataset in
    if negb (size shallow =? 0)%nat then Indexed shallow
    else Raw (if Json.truthy dataset then dataset else JObj []).

End CountyIndex.

(* ===================================================================== *)
(** ** Vocabulary of the further properties                               *)
(* ===================================================================== *)

(** [best] is a nearest member of [l] under the distance [d]: its distance
    is below [Infinity], no member is strictly closer, and the members met
    before it are not even as close. *)
Definition nearestIn {A} (d : A -> num) (l : list A) (best : A) : Prop :=
  exists before after,
    l = before ++ best :: after
    /\ (d best <? PInf)%num = true
    /\ (forall s, In s before -> (d s <=? d best)%num = false)
    /\ (forall s, In s after -> (d s <? d best)%num = false).

(** A station of the station file that carries both coordinates. *)
Definition hasCoordinates (s : NoaaStation.t) : bool :=
  Number_isFinite (NoaaStation.latitude s)
  && Number_isFinite (NoaaStation.longitude s).

(** The heat-pump part of a populated split bar lies within the bar. *)
Definition barWithinBounds (bar : SplitBar) : Prop :=
  match bar with
  | SplitDefault => True
  | SplitPopulated w => exists q, w = Fin q /\ (0 <= q)%Q /\ (q <= 100)%Q
  end.

(** An input field that is blank or holds a finite number. *)
Definition blankOrFinite (v : num) : Prop :=
  v = NaN \/ exists q, v = Fin q.

(** A lookup the user starts: the page and the services as they are at
    that moment, and the text of the ZIP field. *)
Module Request.
Record t : Type := mk {
  net : Network.t;
  file : bool;
  houseLoads : HouseLoads.t;
  page : Page.t;
  zipCode : string
}.
End Request.

(** Lookups run one after the other, each on the globals the one before
    left: the requests made, in order, and the globals at the end. *)
Fixpoint session {H : Host} (st : State.t) (requests : list Request.t)
  : list NetCall * State.t :=
  match requests with
  | [] => ([], st)
  | r :: rest =>
      let l := lookupClimateData (Request.net r) (Request.file r)
                 (Request.houseLoads r) (Request.page r) st
                 (Request.zipCode r) in
      let '(calls, st') := session (Lookup.state l) rest in
      (Lookup.calls l ++ calls, st')
  end.

(** The number of times the station file is requested. *)
Definition fetches (calls : list NetCall) : nat :=
  length (List.filter
            (fun c => match c with FetchNoaaDb => true | _ => false end)
            calls).

(** A numeric field that is absent or holds a finite number. *)
Definition absentOrFinite (v : option num) : Prop :=
  v = None \/ exists q, v = Some (Fin q).

(** An entry as [tryLoadExternalCountyCsv] builds it for the key [k]: it
    carries the key as its FIPS code, the import tag as its source, a
    finite number or nothing in each numeric column, and no coordinates. *)
Definition csvEntry (k : string) (e : Entry.t) : Prop :=
  Entry.fips e = Some k
  /\ Entry.source e = Some "External CSV import"%string
  /\ (5 <= String.length k)%nat
  /\ absentOrFinite (Entry.heating e) /\ absentOrFinite (Entry.cooling e)
  /\ absentOrFinite (Entry.hdd e) /\ absentOrFinite (Entry.cdd e)
  /\ Entry.lat e = None /\ Entry.lon e = None.

(** The values directly inside an array or an object, and the values at
    most [depth] levels below [node], [node] included. *)
Definition children (v : json) : list json :=
  match v with
  | JArr items => items
  | JObj props => map snd props
  | _ => []
  end.

Fixpoint nodesWithin (depth : nat) (node : json) : list json :=
  node ::
  match depth with
  | O => []
  | S d => flat_map (nodesWithin d) (children node)
  end.

(** [String(n)] on the whole numbers from 0 on, for concrete runs. *)
Definition wholeToString (n : num) : string :=
  match n with
  | NaN => "NaN"
  | PInf => "Infinity"
  | NInf => "-Infinity"
  | Fin q => NilEmpty.string_of_uint (N.to_uint (Z.to_N (Qfloor q)))
  end.

(** A dataset file as an array of entries: the first carries its FIPS code
    as text without its leading zero, the second as a number, the third
    carries none. *)
Definition sampleCountyJson : json :=
  JArr [ JObj [("fips"%string, JStr "6089"); ("heating"%string, JNum (lit 25))];
         JObj [("FIPS"%string, JNum (lit 41051));
               ("heating"%string, JNum (lit 24))];
         JObj [("heating"%string, JNum (lit 5))] ].

(** The total of ownership written for a system. *)
Definition tcoOf (t : Tco.t) (k : SystemType) : num :=
  match k with
  | heatPump => Tco.tcoHeatPump t
  | furnace => Tco.tcoFurnace t
  | hybrid => Tco.tcoHybrid t
  end.

(** A record that differs from that of Multnomah County in everything the
    cost model does not read: no cooling figures, no coordinates. *)
Definition heatingOnlyRecord : Climate.t :=
  Climate.mk "Heating only" (Some (lit 24)) None (Some (lit 4000)) None
    "example" None None.

(* ===================================================================== *)
(** * Properties                                                          *)
(* ===================================================================== *)

(** ** Arithmetic of [num] *)

Module NumFacts.

Lemma Qle_bool_false x y : Qle_bool x y = false <-> y < x.
Proof.
  split; intros Hf.
  - apply Qnot_le_lt. intros Hle. apply Qle_bool_iff in Hle. congruence.
  - destruct (Qle_bool x y) eqn:E; [|reflexivity].
    apply Qle_bool_iff in E. lra.
Qed.

Lemma Qltb_true x y : Num.Qltb x y = true <-> x < y.
Proof.
  unfold Num.Qltb. rewrite negb_true_iff. apply Qle_bool_false.
Qed.

Lemma Qltb_false x y : Num.Qltb x y = false <-> y <= x.
Proof.
  unfold Num.Qltb. rewrite negb_false_iff. apply Qle_bool_iff.
Qed.

Lemma Qeq_bool_false x y : Qeq_bool x y = false <-> ~ x == y.
Proof.
  split.
  - intros Hf Heq. apply Qeq_bool_iff in Heq. congruence.
  - intros Hn. destruct (Qeq_bool x y) eqn:E; [|reflexivity].
    apply Qeq_bool_iff in E. contradiction.
Qed.

Lemma Qcompare_Gt x y : (x ?= y) = Gt <-> y < x.
Proof. symmetry. apply Qgt_alt. Qed.

Lemma Qcompare_Lt x y : (x ?= y) = Lt <-> x < y.
Proof. symmetry. apply Qlt_alt. Qed.

Lemma sub_Fin x y : (Fin x - Fin y)%num = Fin (Qred (x - y)).
Proof. reflexivity. Qed.

Lemma add_Fin x y : (Fin x + Fin y)%num = Fin (Qred (x + y)).
Proof. reflexivity. Qed.

Lemma mul_Fin x y : (Fin x * Fin y)%num = Fin (Qred (x * y)).
Proof. reflexivity. Qed.

Lemma div_Fin x y : ~ y == 0 -> (Fin x / Fin y)%num = Fin (Qred (x / y)).
Proof.
  intros Hy. unfold Num.div. apply Qeq_bool_false in Hy. now rewrite Hy.
Qed.

Lemma div_Fin_zero x y :
  y == 0 -> 0 < x -> (Fin x / Fin y)%num = PInf.
Proof.
  intros Hy Hx. unfold Num.div. apply Qeq_bool_iff in Hy. rewrite Hy.
  apply Qcompare_Gt in Hx. now rewrite Hx.
Qed.

Lemma leb_Fin x y : (Fin x <=? Fin y)%num = Qle_bool x y.
Proof. reflexivity. Qed.

Lemma ltb_Fin x y : (Fin x <? Fin y)%num = Num.Qltb x y.
Proof. reflexivity. Qed.

(** A number above zero is truthy and is not [<= 0]. *)
Lemma positive_passes n :
  (lit 0 <? n)%num = true ->
  falsy (Some n) = false /\ (n <=? lit 0)%num = false.
Proof.
  destruct n as [| | |q]; try discriminate; auto.
  change (lit 0) with (Fin 0). rewrite ltb_Fin, leb_Fin.
  intros Hq. apply Qltb_true in Hq.
  split.
  - unfold falsy, Num.truthy. rewrite negb_involutive.
    apply Qeq_bool_false. lra.
  - apply Qle_bool_false. exact Hq.
Qed.

End NumFacts.

(** ** The heat-pump share shown on the page *)

Section ShareFacts.
Import NumFacts.
Local Open Scope num_scope.

(** With degree days present and positive the two guards on [hdd] are
    passed. *)
Lemma share_guard_passed hd xo n :
  (lit 0 <? n) = true ->
  calculateHeatPumpEfficiency hd xo (Some n) =
    if xo >=? lit 65 then Some (lit 1)
    else if xo <=? hd then Some (lit 0)
    else if lit 65 - hd <=? lit 0 then Some (lit 0)
    else Some (Num.min (lit 1) ((lit 65 - xo) / (lit 65 - hd))).
Proof.
  intros Hn. destruct (positive_passes n Hn) as [Hf Hle].
  unfold calculateHeatPumpEfficiency. cbv zeta.
  change (Number (Some n)) with n. rewrite Hf, Hle. reflexivity.
Qed.

(** Strictly between the design temperature and 65 the share is the
    quotient of the two ranges. *)
Lemma share_interior h x n :
  (lit 0 <? n) = true -> (h < x)%Q -> (x < 65)%Q ->
  exists s, calculateHeatPumpEfficiency (Fin h) (Fin x) (Some n) = Some (Fin s)
            /\ (lit 65 - Fin x) / (lit 65 - Fin h) = Fin s
            /\ (s == (65 - x) / (65 - h))%Q.
Proof.
  intros Hn Hhx Hx.
  rewrite share_guard_passed by assumption.
  change (lit 65) with (Fin 65). change (lit 0) with (Fin 0).
  change (lit 1) with (Fin 1).
  unfold Num.geb. rewrite !leb_Fin, !sub_Fin, leb_Fin.
  assert (H1 : Qle_bool 65 x = false) by (apply Qle_bool_false; lra).
  assert (H2 : Qle_bool x h = false) by (apply Qle_bool_false; lra).
  assert (H3 : Qle_bool (Qred (65 - h)) 0 = false).
  { apply Qle_bool_false. rewrite Qred_correct. lra. }
  rewrite H1, H2, H3.
  rewrite div_Fin by (rewrite Qred_correct; lra).
  set (r := Qred (Qred (65 - x) / Qred (65 - h))).
  assert (Hr : (r == (65 - x) / (65 - h))%Q).
  { unfold r. now rewrite !Qred_correct. }
  assert (Hlt : (r < 1)%Q).
  { rewrite Hr. apply Qlt_shift_div_r; lra. }
  unfold Num.min. rewrite leb_Fin.
  assert (H4 : Qle_bool 1 r = false) by (apply Qle_bool_false; exact Hlt).
  rewrite H4. exists r. split; [reflexivity | split; [reflexivity | exact Hr]].
Qed.

End ShareFacts.

Section ShareClaims.
Import NumFacts.
Local Open Scope num_scope.

Lemma finite_is_Fin a : Num.isFinite a = true -> exists q, a = Fin q.
Proof. destruct a; try discriminate. eauto. Qed.

(** C6, as the design notes state it, fails on the code: at a design
    temperature of 20 and 5000 degree days, raising the crossover from 30
    to 40 lowers the share from 7/9 to 5/9. *)
Lemma share_drops_from_30_to_40 :
  (lit 30 <=? lit 40) = true
  /\ calculateHeatPumpEfficiency (lit 20) (lit 30) (Some (lit 5000))
     = Some (Fin (7 # 9))
  /\ calculateHeatPumpEfficiency (lit 20) (lit 40) (Some (lit 5000))
     = Some (Fin (5 # 9))
  /\ (Fin (7 # 9) <=? Fin (5 # 9)) = false.
Proof. repeat split; vm_compute; reflexivity. Qed.

(** C6 (amended).  For a finite design temperature below 65 and positive
    degree days, [calculateHeatPumpEfficiency] is exactly 1 at a crossover
    of 65 and exactly 0 at a crossover equal to the design temperature;
    strictly between the two the share is
    [(65 - crossover) / (65 - design)] and does not increase with the
    crossover. *)
Theorem share_endpoints_and_interior (hd n : num) :
  Num.isFinite hd = true ->
  (hd <? lit 65) = true ->
  (lit 0 <? n) = true ->
  calculateHeatPumpEfficiency hd (lit 65) (Some n) = Some (Fin 1)
  /\ calculateHeatPumpEfficiency hd hd (Some n) = Some (Fin 0)
  /\ forall c1 c2,
       (hd <? c1) = true -> (c1 <=? c2) = true -> (c2 <? lit 65) = true ->
       let s1 := (lit 65 - c1) / (lit 65 - hd) in
       let s2 := (lit 65 - c2) / (lit 65 - hd) in
       calculateHeatPumpEfficiency hd c1 (Some n) = Some s1
       /\ calculateHeatPumpEfficiency hd c2 (Some n) = Some s2
       /\ (s2 <=? s1) = true.
Proof.
  intros Hfin Hlt Hn.
  destruct (finite_is_Fin hd Hfin) as [h ->].
  change (lit 65) with (Fin 65) in *.
  rewrite ltb_Fin in Hlt. apply Qltb_true in Hlt.
  split; [|split].
  - rewrite share_guard_passed by assumption. reflexivity.
  - rewrite share_guard_passed by assumption.
    change (lit 65) with (Fin 65). unfold Num.geb. rewrite !leb_Fin.
    assert (H1 : Qle_bool 65 h = false) by (apply Qle_bool_false; lra).
    assert (H2 : Qle_bool h h = true) by (apply Qle_bool_iff; lra).
    rewrite H1, H2. reflexivity.
  - intros c1 c2 H1 H12 H2.
    destruct c1 as [| | |x1]; try discriminate;
      destruct c2 as [| | |x2]; try discriminate.
    rewrite ltb_Fin in H1, H2. rewrite leb_Fin in H12.
    apply Qltb_true in H1, H2. apply Qle_bool_iff in H12.
    destruct (share_interior h x1 n Hn) as (s1 & E1 & F1 & V1); [lra | lra |].
    destruct (share_interior h x2 n Hn) as (s2 & E2 & F2 & V2); [lra | lra |].
    cbv zeta. change (lit 65) with (Fin 65) in F1, F2.
    rewrite F1, F2. repeat split; try assumption.
    rewrite leb_Fin. apply Qle_bool_iff. rewrite V1, V2.
    unfold Qdiv. apply Qmult_le_compat_r; [lra |].
    apply Qinv_le_0_compat. lra.
Qed.

Lemma share_endpoints_at_20 :
  calculateHeatPumpEfficiency (lit 20) (lit 65) (Some (lit 5000))
    = Some (Fin 1)
  /\ calculateHeatPumpEfficiency (lit 20) (lit 20) (Some (lit 5000))
    = Some (Fin 0).
Proof.
  destruct (share_endpoints_and_interior (lit 20) (lit 5000)
              eq_refl eq_refl eq_refl) as (A & B & _).
  split; assumption.
Defined.

(** C10.  Whatever the design and crossover temperatures, when [hdd] is
    absent, zero or negative ([hdd <= 0]) the share is [null], and the
    split bar that receives it falls back to its default state. *)
Theorem share_is_null_without_degree_days (hd xo : num) (hdd : option num) :
  hdd = None \/ (exists n, hdd = Some n /\ (n <=? lit 0) = true) ->
  calculateHeatPumpEfficiency hd xo hdd = None
  /\ updateHybridSplitBar (calculateHeatPumpEfficiency hd xo hdd)
     = SplitDefault.
Proof.
  intros Hd.
  assert (E : calculateHeatPumpEfficiency hd xo hdd = None).
  { unfold calculateHeatPumpEfficiency. cbv zeta.
    destruct Hd as [-> | (n & -> & Hle)].
    - reflexivity.
    - change (Number (Some n)) with n. rewrite Hle, orb_true_r. reflexivity. }
  rewrite E. split; reflexivity.
Qed.

Lemma share_is_null_examples :
  (calculateHeatPumpEfficiency (lit 20) (lit 35) None = None
   /\ updateHybridSplitBar
        (calculateHeatPumpEfficiency (lit 20) (lit 35) None) = SplitDefault)
  /\ (calculateHeatPumpEfficiency (lit 20) (lit 35) (Some (lit 0)) = None
      /\ updateHybridSplitBar
           (calculateHeatPumpEfficiency (lit 20) (lit 35) (Some (lit 0)))
         = SplitDefault)
  /\ (calculateHeatPumpEfficiency (lit 20) (lit 35) (Some (lit (-120))) = None
      /\ updateHybridSplitBar
           (calculateHeatPumpEfficiency (lit 20) (lit 35) (Some (lit (-120))))
         = SplitDefault).
Proof.
  split; [|split].
  - apply share_is_null_without_degree_days. left. reflexivity.
  - apply share_is_null_without_degree_days. right.
    exists (lit 0). split; reflexivity.
  - apply share_is_null_without_degree_days. right.
    exists (lit (-120)). split; reflexivity.
Defined.

(** The hybrid branch of [calculateSystemCosts] splits the annual heating
    load by [heatPumpPercentage]. *)
Lemma hybrid_split loads specs hdd cdd hd cd e g xo :
  let load :=
    Num.or_else (HouseLoads.heating loads) (lit 50000) / (lit 65 - hd)
    * Number hdd * lit 24 in
  let p := heatPumpPercentage hd xo in
  let r := calculateSystemCosts loads hybrid specs hdd cdd hd cd e g xo in
  Costs.annualKWh r = load * p / (Specs.cop specs * lit 3412)
  /\ Costs.annualTherms r
     = load * (lit 1 - p) / (lit 100000 * Specs.furnaceAFUE specs).
Proof. split; reflexivity. Qed.

(** The four steps of [heatPumpPercentage] on finite temperatures. *)
Lemma heatPumpPercentage_steps (h x : Q) :
  ((x < h)%Q -> heatPumpPercentage (Fin h) (Fin x) = Fin 1)
  /\ ((h <= x)%Q -> (x - 15 < h)%Q ->
      heatPumpPercentage (Fin h) (Fin x) = Fin (7 # 10))
  /\ ((h <= x - 15)%Q -> (x - 25 < h)%Q ->
      heatPumpPercentage (Fin h) (Fin x) = Fin (1 # 2))
  /\ ((h <= x - 25)%Q -> heatPumpPercentage (Fin h) (Fin x) = Fin (3 # 10)).
Proof.
  unfold heatPumpPercentage, Num.gtb. cbv zeta.
  change (Num.isFinite (Fin x)) with true. cbv iota.
  change (lit 15) with (Fin 15). change (lit 25) with (Fin 25).
  rewrite !sub_Fin, !ltb_Fin.
  repeat split; intros.
  - assert (E : Num.Qltb x h = true) by (apply Qltb_true; lra).
    rewrite E. reflexivity.
  - assert (E1 : Num.Qltb x h = false) by (apply Qltb_false; lra).
    assert (E2 : Num.Qltb (Qred (x - 15)) h = true).
    { apply Qltb_true. rewrite Qred_correct. lra. }
    rewrite E1, E2. reflexivity.
  - assert (E1 : Num.Qltb x h = false) by (apply Qltb_false; lra).
    assert (E2 : Num.Qltb (Qred (x - 15)) h = false).
    { apply Qltb_false. rewrite Qred_correct. lra. }
    assert (E3 : Num.Qltb (Qred (x - 25)) h = true).
    { apply Qltb_true. rewrite Qred_correct. lra. }
    rewrite E1, E2, E3. reflexivity.
  - assert (E1 : Num.Qltb x h = false) by (apply Qltb_false; lra).
    assert (E2 : Num.Qltb (Qred (x - 15)) h = false).
    { apply Qltb_false. rewrite Qred_correct. lra. }
    assert (E3 : Num.Qltb (Qred (x - 25)) h = false).
    { apply Qltb_false. rewrite Qred_correct. lra. }
    rewrite E1, E2, E3. reflexivity.
Qed.

(** C2, as stated, fails on the code: at a design temperature of 20 and a
    crossover of 35 the hybrid branch takes a share of 1/2, where the
    documented piecewise function gives 2/3. *)
Lemma hybrid_share_is_not_documented_share :
  heatPumpPercentage (lit 20) (lit 35) = Fin (1 # 2)
  /\ documentedShare (lit 20) (lit 35) = Fin (2 # 3)
  /\ Costs.annualKWh
       (calculateSystemCosts (HouseLoads.mk (lit 50000) (lit 0)) hybrid
          (Specs.mk (lit 3.5) (lit 0.95)) (Some (lit 5000)) (lit 600)
          (lit 20) (lit 88) (lit 0.12) (lit 1.20) (lit 35))
     = (lit 50000 / (lit 65 - lit 20) * lit 5000 * lit 24) * Fin (1 # 2)
       / (lit 3.5 * lit 3412).
Proof. repeat split; vm_compute; reflexivity. Qed.

(** C2 (amended).  The share used by the hybrid branch of the cost
    computation is a step function of how far the design temperature lies
    below the crossover (35 when the crossover is not finite): 1.0 when the
    design temperature exceeds the crossover, 0.7 when it is less than 15
    degrees below, 0.5 when less than 25 degrees below, 0.3 otherwise; the
    branch charges that part of the annual load to the heat pump and the
    rest to the furnace. *)
Theorem hybrid_share_is_step_function
  loads specs hdd cdd cd e g (h : Q) (xo : num) :
  let x := match xo with Fin x => x | _ => 35%Q end in
  let p := heatPumpPercentage (Fin h) xo in
  let r := calculateSystemCosts loads hybrid specs hdd cdd (Fin h) cd e g xo in
  let load :=
    Num.or_else (HouseLoads.heating loads) (lit 50000) / (lit 65 - Fin h)
    * Number hdd * lit 24 in
  (((x < h)%Q -> p = Fin 1)
   /\ ((h <= x)%Q -> (x - 15 < h)%Q -> p = Fin (7 # 10))
   /\ ((h <= x - 15)%Q -> (x - 25 < h)%Q -> p = Fin (1 # 2))
   /\ ((h <= x - 25)%Q -> p = Fin (3 # 10)))
  /\ Costs.annualKWh r = load * p / (Specs.cop specs * lit 3412)
  /\ Costs.annualTherms r
     = load * (lit 1 - p) / (lit 100000 * Specs.furnaceAFUE specs).
Proof.
  cbv zeta. split; [| apply hybrid_split].
  destruct xo as [| | |x]; try apply heatPumpPercentage_steps;
    apply (heatPumpPercentage_steps h 35).
Qed.

Lemma hybrid_share_step_at_20_35 :
  heatPumpPercentage (lit 20) (lit 35) = Fin (1 # 2).
Proof.
  pose proof (hybrid_share_is_step_function
                (HouseLoads.mk (lit 50000) (lit 0))
                (Specs.mk (lit 3.5) (lit 0.95)) (Some (lit 5000)) (lit 600)
                (lit 88) (lit 0.12) (lit 1.20) 20 (lit 35)) as Hs.
  cbv zeta in Hs. destruct Hs as ((_ & _ & H3 & _) & _).
  apply H3; reflexivity || discriminate.
Defined.

End ShareClaims.

(** ** The cost model on finite inputs *)

Section CostFacts.
Import NumFacts.
Local Open Scope num_scope.

Lemma or_else_positive v (dflt : Q) :
  blankOrNonNegative v -> (0 < dflt)%Q ->
  exists q, Num.or_else v (lit dflt) = Fin q /\ (0 < q)%Q.
Proof.
  intros [-> | (q & -> & Hq)] Hd.
  - exists (Qred dflt). split; [reflexivity | now rewrite Qred_correct].
  - unfold Num.or_else, Num.truthy.
    destruct (Qeq_bool q 0) eqn:E; cbn [negb].
    + exists (Qred dflt). split; [reflexivity | now rewrite Qred_correct].
    + apply Qeq_bool_false in E. exists q. split; [reflexivity | lra].
Qed.

(** The share of the hybrid branch is one of four constants. *)
Lemma heatPumpPercentage_range hd xo :
  exists p, heatPumpPercentage hd xo = Fin p /\ (0 < p)%Q /\ (p <= 1)%Q.
Proof.
  unfold heatPumpPercentage. cbv zeta.
  repeat match goal with
         | |- context [if ?b then _ else _] => destruct b
         end;
    eexists; (split; [reflexivity | split; reflexivity || discriminate]).
Qed.

(** Closes [~ q == 0] from a hypothesis of the same kind. *)
Ltac nonzero :=
  rewrite ?Qred_correct; intros ?;
  match goal with H : ~ (_ == _)%Q |- _ => apply H; lra end.

Ltac fin_arith :=
  repeat first
    [ rewrite sub_Fin | rewrite add_Fin | rewrite mul_Fin
    | rewrite div_Fin by nonzero ].

Variables (loads : HouseLoads.t) (specs : Specs.t).
Variables (l c a h d e g : Q) (cdd cd xo : num).
Hypothesis Hload :
  Num.or_else (HouseLoads.heating loads) (lit 50000) = Fin l.
Hypothesis Hh : ~ (h == 65)%Q.

Lemma furnace_closed_form :
  Specs.furnaceAFUE specs = Fin a -> ~ (a == 0)%Q ->
  exists v, Costs.total
              (calculateSystemCosts loads furnace specs (Some (Fin d)) cdd
                 (Fin h) cd (Fin e) (Fin g) xo) = Num.round (Fin v)
            /\ (v == annualLoad l h d / (100000 * a) * g)%Q.
Proof.
  intros Ha Ha0. unfold annualLoad, calculateSystemCosts.
  cbv beta zeta iota. rewrite Hload, Ha. unfold Num.lit.
  cbn [Number Costs.total]. fin_arith.
  eexists. split; [reflexivity|].
  rewrite !Qred_correct. field. repeat split; nonzero.
Qed.

Lemma heatPump_closed_form :
  Specs.cop specs = Fin c -> ~ (c == 0)%Q ->
  exists v, Costs.total
              (calculateSystemCosts loads heatPump specs (Some (Fin d)) cdd
                 (Fin h) cd (Fin e) (Fin g) xo) = Num.round (Fin v)
            /\ (v == annualLoad l h d / (c * 3412) * e)%Q.
Proof.
  intros Hc Hc0. unfold annualLoad, calculateSystemCosts.
  cbv beta zeta iota. rewrite Hload, Hc. unfold Num.lit.
  cbn [Number Costs.total]. fin_arith.
  eexists. split; [reflexivity|].
  rewrite !Qred_correct. field. repeat split; nonzero.
Qed.

Lemma hybrid_closed_form p :
  Specs.cop specs = Fin c -> ~ (c == 0)%Q ->
  Specs.furnaceAFUE specs = Fin a -> ~ (a == 0)%Q ->
  heatPumpPercentage (Fin h) xo = Fin p ->
  exists v, Costs.total
              (calculateSystemCosts loads hybrid specs (Some (Fin d)) cdd
                 (Fin h) cd (Fin e) (Fin g) xo) = Num.round (Fin v)
            /\ (v == p * (annualLoad l h d / (c * 3412) * e)
                     + (1 - p) * (annualLoad l h d / (100000 * a) * g))%Q.
Proof.
  intros Hc Hc0 Ha Ha0 Hp. unfold annualLoad, calculateSystemCosts.
  cbv beta zeta iota. rewrite Hload, Hc, Ha, Hp. unfold Num.lit.
  cbn [Number Costs.total]. fin_arith.
  eexists. split; [reflexivity|].
  rewrite !Qred_correct. field. repeat split; nonzero.
Qed.

End CostFacts.

(** ** The three systems compared *)

Section CostClaims.
Import NumFacts.
Local Open Scope num_scope.

Lemma roundQ_le (x y : Q) :
  (x <= y)%Q ->
  (inject_Z (Qfloor (x + (1 # 2))) <= inject_Z (Qfloor (y + (1 # 2))))%Q.
Proof.
  intros Hxy. rewrite <- Zle_Qle. apply Qfloor_resp_le. lra.
Qed.

Lemma mul_PInf_pos q : (0 < q)%Q -> PInf * Fin q = PInf.
Proof.
  intros Hq. unfold Num.mul, Num.sign.
  apply Qcompare_Gt in Hq. now rewrite Hq.
Qed.

Lemma div_PInf_pos q : (0 < q)%Q -> PInf / Fin q = PInf.
Proof.
  intros Hq. unfold Num.div, Num.sign.
  apply Qcompare_Gt in Hq. now rewrite Hq.
Qed.

Lemma mul_PInf_nonneg q :
  (0 <= q)%Q -> PInf * Fin q = PInf \/ PInf * Fin q = NaN.
Proof.
  intros Hq. unfold Num.mul, Num.sign.
  destruct (q ?= 0) eqn:E; auto.
  assert (Hneg : (q < 0)%Q) by (apply Qcompare_Lt; exact E).
  exfalso. lra.
Qed.

Lemma annualLoad_positive l h d :
  (0 < l)%Q -> (h < 65)%Q -> (0 < d)%Q -> (0 < annualLoad l h d)%Q.
Proof.
  intros Hl Hh Hd. unfold annualLoad.
  repeat apply Qmult_lt_0_compat; try lra.
  apply Qinv_lt_0_compat. lra.
Qed.

(** What the page hands to the three runs of [calculateSystemCosts]. *)
Lemma calculateHVACCosts_runs climate loads page :
  let shown := calculateHVACCosts climate loads page in
  let e := Num.or_else (Page.electricityRate page) (lit 0.12) in
  let g := Num.or_else (Page.gasRate page) (lit 1.20) in
  let cop := Num.or_else (Page.heatPumpCOP page) (lit 3.5) in
  let afue := Num.or_else (Page.furnaceEfficiency page) (lit 95) / lit 100 in
  let cdd := if Number_isFinite (Climate.cdd climate)
             then Number (Climate.cdd climate) else lit 0 in
  let cd := if Number_isFinite (Climate.cooling climate)
            then Number (Climate.cooling climate) else lit 0 in
  let run sys specs :=
    calculateSystemCosts loads sys specs (Climate.hdd climate) cdd
      (Number (Climate.heating climate)) cd e g (usedCrossover shown) in
  results shown =
    Results.mk (run heatPump (Specs.mk cop NaN))
               (run furnace (Specs.mk NaN afue))
               (run hybrid (Specs.mk cop afue)).
Proof. reflexivity. Qed.

Section ValidInputs.
Variables (climate : Climate.t) (loads : HouseLoads.t) (page : Page.t).
Variables (h d : Q).
Hypothesis Hheating : Climate.heating climate = Some (Fin h).
Hypothesis Hhdd : Climate.hdd climate = Some (Fin d).
Hypothesis Hload : blankOrNonNegative (HouseLoads.heating loads).
Hypothesis Helec : blankOrNonNegative (Page.electricityRate page).
Hypothesis Hgas : blankOrNonNegative (Page.gasRate page).
Hypothesis Hcop : blankOrNonNegative (Page.heatPumpCOP page).
Hypothesis Heff : blankOrNonNegative (Page.furnaceEfficiency page).

(** Away from a design temperature of 65 the three totals are the
    rounded values of the closed forms, the hybrid one being the blend
    of the other two by the share of the hybrid branch. *)
Lemma totals_closed_form :
  ~ (h == 65)%Q ->
  let r := results (calculateHVACCosts climate loads page) in
  exists vp vf vh p,
    Costs.total (Results.heatPump r) = Num.round (Fin vp)
    /\ Costs.total (Results.furnace r) = Num.round (Fin vf)
    /\ Costs.total (Results.hybrid r) = Num.round (Fin vh)
    /\ heatPumpPercentage (Fin h)
         (usedCrossover (calculateHVACCosts climate loads page)) = Fin p
    /\ (0 < p)%Q /\ (p <= 1)%Q
    /\ (vh == p * vp + (1 - p) * vf)%Q
    /\ ((h < 65)%Q -> (0 < d)%Q -> (0 < vp)%Q /\ (0 < vf)%Q).
Proof.
  intros Hh. cbv zeta. rewrite calculateHVACCosts_runs. cbv zeta.
  set (xo := usedCrossover _).
  rewrite Hheating, Hhdd. change (Number (Some (Fin h))) with (Fin h).
  destruct (or_else_positive _ 50000 Hload) as (l & El & Hl); [reflexivity|].
  destruct (or_else_positive _ 0.12 Helec) as (e & Ee & He); [reflexivity|].
  destruct (or_else_positive _ 1.20 Hgas) as (g & Eg & Hg); [reflexivity|].
  destruct (or_else_positive _ 3.5 Hcop) as (c & Ec & Hc); [reflexivity|].
  destruct (or_else_positive _ 95 Heff) as (f & Ef & Hf); [reflexivity|].
  rewrite Ee, Eg, Ec, Ef.
  change (lit 100) with (Fin 100).
  rewrite div_Fin by (intros E; discriminate).
  set (a := Qred (f / 100)).
  assert (Ha : (0 < a)%Q).
  { unfold a. rewrite Qred_correct. apply Qlt_shift_div_l; lra. }
  assert (Ha0 : ~ (a == 0)%Q) by lra.
  assert (Hc0 : ~ (c == 0)%Q) by lra.
  destruct (heatPumpPercentage_range (Fin h) xo) as (p & Ep & Hp0 & Hp1).
  cbn [Results.heatPump Results.furnace Results.hybrid].
  set (cdd := if Number_isFinite (Climate.cdd climate) then _ else _).
  set (cd := if Number_isFinite (Climate.cooling climate) then _ else _).
  set (sp := Specs.mk (Fin c) NaN).
  set (sf := Specs.mk NaN (Fin a)).
  set (sh := Specs.mk (Fin c) (Fin a)).
  destruct (heatPump_closed_form loads sp l c h d e g cdd cd xo El Hh
              eq_refl Hc0) as (vp & Tp & Vp).
  destruct (furnace_closed_form loads sf l a h d e g cdd cd xo El Hh
              eq_refl Ha0) as (vf & Tf & Vf).
  destruct (hybrid_closed_form loads sh l c a h d e g cdd cd xo El Hh p
              eq_refl Hc0 eq_refl Ha0 Ep) as (vh & Th & Vh).
  exists vp, vf, vh, p.
  rewrite Tp, Tf, Th.
  repeat split; try reflexivity; try assumption.
  - rewrite Vh, Vp, Vf. reflexivity.
  - rewrite Vp. apply Qmult_lt_0_compat; [|lra].
    apply Qlt_shift_div_l; [lra|].
    rewrite Qmult_0_l. now apply annualLoad_positive.
  - rewrite Vf. apply Qmult_lt_0_compat; [|lra].
    apply Qlt_shift_div_l; [lra|].
    rewrite Qmult_0_l. now apply annualLoad_positive.
Qed.

End ValidInputs.

Section AtSixtyFive.
Variables (loads : HouseLoads.t) (l d e g c a : Q) (cdd cd xo : num).
Hypothesis Hload :
  Num.or_else (HouseLoads.heating loads) (lit 50000) = Fin l.
Hypothesis (Hl : (0 < l)%Q) (Hd : (0 < d)%Q) (He : (0 < e)%Q)
           (Hg : (0 < g)%Q) (Hc : (0 < c)%Q) (Ha : (0 < a)%Q).

Ltac at_65 :=
  unfold calculateSystemCosts; cbv beta zeta iota; rewrite Hload;
  cbn [Number Costs.total Specs.cop Specs.furnaceAFUE];
  change (lit 65 - Fin 65) with (Fin 0);
  rewrite (div_Fin_zero l 0) by (reflexivity || assumption);
  rewrite (mul_PInf_pos d) by assumption;
  change (PInf * lit 24) with PInf.

Ltac positive := rewrite ?Qred_correct; lra.

(** With a design temperature of 65 the heat loss rate is a division by
    zero: the furnace and the heat pump cost [Infinity]. *)
Lemma furnace_at_65 cop :
  Costs.total
    (calculateSystemCosts loads furnace (Specs.mk cop (Fin a))
       (Some (Fin d)) cdd (Fin 65) cd (Fin e) (Fin g) xo) = PInf.
Proof.
  at_65. unfold Num.lit. rewrite mul_Fin.
  rewrite div_PInf_pos by positive.
  rewrite mul_PInf_pos by assumption. reflexivity.
Qed.

Lemma heatPump_at_65 afue :
  Costs.total
    (calculateSystemCosts loads heatPump (Specs.mk (Fin c) afue)
       (Some (Fin d)) cdd (Fin 65) cd (Fin e) (Fin g) xo) = PInf.
Proof.
  at_65. unfold Num.lit. rewrite mul_Fin.
  rewrite div_PInf_pos by positive.
  rewrite mul_PInf_pos by assumption. reflexivity.
Qed.

(** The hybrid system costs [NaN] when its share is 1 (the furnace part
    is [Infinity * 0]) and [Infinity] otherwise. *)
Lemma hybrid_at_65 :
  let t := Costs.total
             (calculateSystemCosts loads hybrid (Specs.mk (Fin c) (Fin a))
                (Some (Fin d)) cdd (Fin 65) cd (Fin e) (Fin g) xo) in
  t = NaN \/ t = PInf.
Proof.
  cbv zeta. at_65.
  destruct (heatPumpPercentage_range (Fin 65) xo) as (p & Ep & Hp0 & Hp1).
  rewrite Ep. rewrite (mul_PInf_pos p) by assumption.
  unfold Num.lit. rewrite sub_Fin, !mul_Fin.
  rewrite div_PInf_pos by positive.
  rewrite mul_PInf_pos by assumption.
  destruct (mul_PInf_nonneg (Qred (Qred 1 - p))) as [E | E];
    [positive | rewrite E .. ].
  - right. rewrite div_PInf_pos by positive.
    rewrite mul_PInf_pos by assumption. reflexivity.
  - left. reflexivity.
Qed.

End AtSixtyFive.




(** Whatever share the hybrid branch takes, its total lies between the other
    two: before rounding it is their blend, and rounding is monotone. *)
Lemma hybrid_total_between_any_share climate loads page (h d : Q) :
  Climate.heating climate = Some (Fin h) -> (h < 65)%Q ->
  Climate.hdd climate = Some (Fin d) -> (0 < d)%Q ->
  blankOrNonNegative (HouseLoads.heating loads) ->
  blankOrNonNegative (Page.electricityRate page) ->
  blankOrNonNegative (Page.gasRate page) ->
  blankOrNonNegative (Page.heatPumpCOP page) ->
  blankOrNonNegative (Page.furnaceEfficiency page) ->
  let r := results (calculateHVACCosts climate loads page) in
  let hp := Costs.total (Results.heatPump r) in
  let fu := Costs.total (Results.furnace r) in
  let hy := Costs.total (Results.hybrid r) in
  (Num.min hp fu <=? hy) = true /\ (hy <=? Num.max hp fu) = true.
Proof.
  intros Hheating Hh Hhdd Hd Hload Helec Hgas Hcop Heff. cbv zeta.
  destruct (totals_closed_form climate loads page h d Hheating Hhdd Hload
              Helec Hgas Hcop Heff)
    as (vp & vf & vh & p & Tp & Tf & Th & _ & Hp0 & Hp1 & Vh & _).
  { lra. }
  cbv zeta in Tp, Tf, Th. rewrite Tp, Tf, Th.
  unfold Num.round, Num.min, Num.max. rewrite leb_Fin.
  set (rp := inject_Z (Qfloor (vp + (1 # 2)))).
  set (rf := inject_Z (Qfloor (vf + (1 # 2)))).
  set (rh := inject_Z (Qfloor (vh + (1 # 2)))).
  assert (Hbetween : (rp <= rh /\ rh <= rf)%Q \/ (rf <= rh /\ rh <= rp)%Q).
  { destruct (Qlt_le_dec vf vp) as [Hlt | Hle].
    - right. split; apply roundQ_le; rewrite Vh; nra.
    - left. split; apply roundQ_le; rewrite Vh; nra. }
  destruct (Qle_bool rp rf) eqn:E; rewrite !leb_Fin;
    [apply Qle_bool_iff in E | apply Qle_bool_false in E];
    split; apply Qle_bool_iff; lra.
Qed.



End CostClaims.

(** ** The distance utility and the nearest-match scans *)

Section DistanceClaims.
Context {H : Host}.
Import NumFacts.
Local Open Scope num_scope.

Lemma sub_non_finite a b :
  Num.isFinite a && Num.isFinite b = false -> Num.isFinite (a - b) = false.
Proof. destruct a, b; cbn; intros E; try reflexivity; discriminate. Qed.

(** Degrees to radians, and halving, keep a non-finite number non-finite. *)
Lemma toRad_non_finite a :
  Num.isFinite a = false -> Num.isFinite (a * Math_PI / lit 180) = false.
Proof. destruct a; intros E; try reflexivity; discriminate. Qed.

Lemma half_non_finite a :
  Num.isFinite a = false -> Num.isFinite (a / lit 2) = false.
Proof. destruct a; intros E; try reflexivity; discriminate. Qed.

Lemma sin_non_finite a : Num.isFinite a = false -> Math_sin a = NaN.
Proof.
  destruct a; intros E; try discriminate;
    [apply sin_NaN | apply sin_PInf | apply sin_NInf].
Qed.

Lemma mul_NaN_r a : a * NaN = NaN.
Proof. destruct a; reflexivity. Qed.

Lemma add_NaN_r a : a + NaN = NaN.
Proof. destruct a; reflexivity. Qed.

(** The sine of half the angular difference of two coordinates, one of
    which is not finite. *)
Lemma half_angle_sin x1 x2 :
  Num.isFinite x1 && Num.isFinite x2 = false ->
  Math_sin ((x2 - x1) * Math_PI / lit 180 / lit 2) = NaN.
Proof.
  intros E. apply sin_non_finite, half_non_finite, toRad_non_finite,
    sub_non_finite.
  now rewrite andb_comm.
Qed.

(** The haversine term [a] once one of its two summands is [NaN]. *)
Lemma haversine_tail (R a : num) :
  a = NaN -> R * (lit 2 * Math_atan2 (Math_sqrt a) (Math_sqrt (lit 1 - a))) = NaN.
Proof.
  intros ->. rewrite sqrt_NaN, atan2_NaN_l.
  change (lit 2 * NaN) with NaN. apply mul_NaN_r.
Qed.

Lemma non_finite_coordinates lat1 lon1 lat2 lon2 :
  Num.isFinite lat1 && Num.isFinite lon1 && Num.isFinite lat2
    && Num.isFinite lon2 = false ->
  Num.isFinite lat1 && Num.isFinite lat2 = false
  \/ Num.isFinite lon1 && Num.isFinite lon2 = false.
Proof.
  destruct (Num.isFinite lat1), (Num.isFinite lon1), (Num.isFinite lat2),
    (Num.isFinite lon2); cbn; auto.
Qed.

Lemma calculateDistance_non_finite lat1 lon1 lat2 lon2 :
  Num.isFinite lat1 && Num.isFinite lon1 && Num.isFinite lat2
    && Num.isFinite lon2 = false ->
  calculateDistance lat1 lon1 lat2 lon2 = NaN.
Proof.
  intros E. unfold calculateDistance. cbv zeta. apply haversine_tail.
  destruct (non_finite_coordinates _ _ _ _ E) as [Hlat | Hlon].
  - rewrite (half_angle_sin lat1 lat2 Hlat). reflexivity.
  - rewrite (half_angle_sin lon1 lon2 Hlon). rewrite mul_NaN_r.
    apply add_NaN_r.
Qed.

Lemma haversine_non_finite lat1 lon1 lat2 lon2 :
  Num.isFinite lat1 && Num.isFinite lon1 && Num.isFinite lat2
    && Num.isFinite lon2 = false ->
  haversine lat1 lon1 lat2 lon2 = NaN.
Proof.
  intros E. unfold haversine. cbv beta zeta. apply haversine_tail.
  destruct (non_finite_coordinates _ _ _ _ E) as [Hlat | Hlon].
  - rewrite (half_angle_sin lat1 lat2 Hlat). reflexivity.
  - rewrite (half_angle_sin lon1 lon2 Hlon). rewrite mul_NaN_r.
    apply add_NaN_r.
Qed.

(** The distance from a point to itself is zero. *)
Lemma calculateDistance_same_point (p q : Q) :
  calculateDistance (Fin p) (Fin q) (Fin p) (Fin q) = Fin 0.
Proof.
  unfold calculateDistance. cbv zeta.
  assert (Z : forall x, Fin x - Fin x = Fin 0).
  { intros x. rewrite sub_Fin. f_equal.
    change 0%Q with (Qred 0). apply Qred_complete. ring. }
  rewrite !Z.
  change (Fin 0 * Math_PI / lit 180 / lit 2) with (Fin 0).
  rewrite sin_zero.
  unfold Math_PI, Num.lit. rewrite !mul_Fin.
  rewrite !div_Fin by discriminate.
  destruct (finite_is_Fin _ (cos_finite (Qred (Qred (p * Qred 3.141592653589793) / Qred 180))))
    as (v & ->).
  rewrite !mul_Fin, !add_Fin.
  assert (A : Qred (Qred (0 * 0)
                    + Qred (Qred (Qred (v * v) * 0) * 0)) = 0%Q).
  { change 0%Q with (Qred 0) at 5. apply Qred_complete.
    rewrite !Qred_correct. ring. }
  rewrite A. rewrite sqrt_zero.
  change (Fin (Qred 1) - Fin 0) with (Fin 1).
  rewrite sqrt_one, atan2_zero_one. reflexivity.
Qed.

Lemma findNearestNoaaStation_none lat lon stations :
  Num.isFinite lat && Num.isFinite lon = false \/ stations = [] ->
  findNearestNoaaStation lat lon stations = None.
Proof.
  intros [E | ->]; unfold findNearestNoaaStation.
  - destruct (Num.isFinite lat), (Num.isFinite lon);
      try discriminate; reflexivity.
  - cbn [length Nat.eqb]. now rewrite orb_true_r.
Qed.

(** C9 (amended).  The distance functions are total (they never throw) and
    return the number [NaN], not [null], as soon as a coordinate is not
    finite.  The nearest-match scans built on them return [null] when a
    coordinate of the query is not finite or the candidate set is empty. *)
Theorem distance_and_scans_on_bad_input :
  (forall lat1 lon1 lat2 lon2,
      Num.isFinite lat1 && Num.isFinite lon1 && Num.isFinite lat2
        && Num.isFinite lon2 = false ->
      calculateDistance lat1 lon1 lat2 lon2 = NaN
      /\ haversine lat1 lon1 lat2 lon2 = NaN)
  /\ (forall lat lon stations,
        Number_isFinite lat && Number_isFinite lon = false \/ stations = [] ->
        nearestStation lat lon stations = None)
  /\ (forall lat lon stations,
        Num.isFinite lat && Num.isFinite lon = false \/ stations = [] ->
        findNearestNoaaStation lat lon stations = None)
  /\ (forall table lat lon,
        Num.isFinite lat && Num.isFinite lon = false
        \/ getResnetStations table = [] ->
        findNearestResnetStation table lat lon = None).
Proof.
  split; [|split; [|split]].
  - intros * E. split;
      [now apply calculateDistance_non_finite | now apply haversine_non_finite].
  - intros lat lon stations [E | ->].
    + unfold nearestStation.
      destruct (Number_isFinite lat), (Number_isFinite lon);
        try discriminate; reflexivity.
    + unfold nearestStation. cbn [length Nat.eqb]. now rewrite orb_true_r.
  - apply findNearestNoaaStation_none.
  - intros table lat lon [E | E].
    + unfold findNearestResnetStation. cbv zeta.
      destruct (Num.isFinite lat), (Num.isFinite lon); try discriminate;
        cbn [negb]; rewrite ?orb_true_r; reflexivity.
    + unfold findNearestResnetStation. cbv zeta. rewrite E. reflexivity.
Qed.

End DistanceClaims.

(** C9, as stated, fails on the code: on a [NaN] coordinate both distance
    functions return [NaN], the very value C9 excludes, whatever the host. *)
Lemma distance_of_NaN_is_NaN :
  Num.isFinite NaN = false
  /\ (forall H : Host,
        @calculateDistance H NaN (lit 0) (lit 10) (lit 20) = NaN
        /\ @haversine H NaN (lit 0) (lit 10) (lit 20) = NaN).
Proof.
  split; [reflexivity|]. intros H. split.
  - apply calculateDistance_non_finite. reflexivity.
  - apply haversine_non_finite. reflexivity.
Qed.

Lemma distance_and_scans_examples :
  (@calculateDistance refHost PInf (lit 0) (lit 10) (lit 20) = NaN
   /\ @haversine refHost PInf (lit 0) (lit 10) (lit 20) = NaN)
  /\ @nearestStation refHost None (Some (lit 0)) [] = None
  /\ @findNearestNoaaStation refHost NaN (lit 0) [] = None
  /\ @findNearestResnetStation refHost [] (lit 0) (lit 0) = None.
Proof.
  destruct (@distance_and_scans_on_bad_input refHost) as (D & S1 & S2 & S3).
  split; [|split; [|split]].
  - apply D. reflexivity.
  - apply S1. left. reflexivity.
  - apply S2. left. reflexivity.
  - apply S3. right. reflexivity.
Defined.

(** ** The resolver chain *)

Section ResolverClaims.
Context {H : Host}.
Import NumFacts.
Local Open Scope num_scope.

Lemma length_append (s t : string) :
  String.length (s +:+ t) = (String.length s + String.length t)%nat.
Proof.
  induction s as [|c s IH]; [reflexivity|].
  change (S (String.length (s +:+ t))
          = S (String.length s + String.length t)).
  now rewrite IH.
Qed.

Lemma isFinite_Number v :
  Number_isFinite v = true ->
  Num.isFinite (Number v) = true /\ Some (Number v) = v.
Proof. destruct v; [auto | discriminate]. Qed.

(** Step 1 succeeds on an entry with four finite numbers and copies them. *)
Lemma inMemoryRecord_complete table zipCode zr :
  assoc zipCode table ?? assoc zipCode LOCAL_RESNET_FALLBACK = Some zr ->
  Number_isFinite (Entry.heating zr) = true ->
  Number_isFinite (Entry.cooling zr) = true ->
  Number_isFinite (Entry.hdd zr) = true ->
  Number_isFinite (Entry.cdd zr) = true ->
  exists climateData,
    inMemoryRecord table zipCode = Some climateData
    /\ Climate.heating climateData = Entry.heating zr
    /\ Climate.cooling climateData = Entry.cooling zr
    /\ Climate.hdd climateData = Entry.hdd zr
    /\ Climate.cdd climateData = Entry.cdd zr.
Proof.
  intros Hzr Hh Hc Hd Hcd.
  destruct (isFinite_Number _ Hh) as [Fh Eh].
  destruct (isFinite_Number _ Hc) as [Fc Ec].
  destruct (isFinite_Number _ Hd) as [Fd Ed].
  destruct (isFinite_Number _ Hcd) as [Fcd Ecd].
  unfold inMemoryRecord. cbv zeta. rewrite Hzr.
  cbn [forallb]. rewrite Fh, Fc, Fd, Fcd. cbn [andb].
  eexists. split; [reflexivity|].
  cbn [Climate.heating Climate.cooling Climate.hdd Climate.cdd].
  auto.
Qed.

(** A lookup that step 1 resolves makes no request. *)
Lemma lookup_in_memory net file loads page st zipCode climateData :
  String.length zipCode = 5%nat ->
  inMemoryRecord (State.RESNET_ASHRAE_DATA st) zipCode = Some climateData ->
  let r := lookupClimateData net file loads page st zipCode in
  Lookup.calls r = []
  /\ Lookup.outcome r
     = Shown climateData (calculateHVACCosts climateData loads page).
Proof.
  intros Hlen E. cbv zeta. unfold lookupClimateData. rewrite Hlen, E.
  split; reflexivity.
Qed.

(** Every ZIP of the two bundled tables is a five-character key that step 1
    resolves. *)
Lemma bundled_zips_complete :
  forallb
    (fun zipCode =>
       (String.length zipCode =? 5)%nat
       && match inMemoryRecord RESNET_ASHRAE_DATA zipCode with
          | Some _ => true
          | None => false
          end)
    (map fst RESNET_ASHRAE_DATA ++ map fst LOCAL_RESNET_FALLBACK) = true.
Proof. vm_compute. reflexivity. Qed.


(** C4 is right about what the override table is for, and the code does
    not do it: with the bundled tables, ZIP 97219 is listed in
    [ZIP_TO_FIPS_OVERRIDE] for county 41051 (Multnomah) and is not resolved
    by step 1; when the county resolver answers 41005 the lookup displays
    the entry of 41005 (Clackamas). *)
Theorem lookup_ignores_zip_override :
  let net := zip97219 "41005" "Clackamas County" None in
  let r := lookupClimateData net false exampleLoads defaultPage
             initialState "97219" in
  assoc "97219" ZIP_TO_FIPS_OVERRIDE = Some "41051"%string
  /\ inMemoryRecord RESNET_ASHRAE_DATA "97219" = None
  /\ State.countyAshraeData initialState !! "41051"%string
     = Some multnomahEntry
  /\ Lookup.calls r
     = [CallZippopotam "97219"; CallFcc (lit 45.4543) (lit (-122.707));
        FetchNoaaDb]
  /\ Lookup.outcome r
     = Shown clackamasRecord
         (calculateHVACCosts clackamasRecord exampleLoads defaultPage).
Proof. cbv zeta. repeat split; vm_compute; reflexivity. Qed.

(** A single station that sits on the query point is the nearest one. *)
Lemma nearest_station_on_point (p q : Q) station :
  NoaaStation.latitude station = Some (Fin p) ->
  NoaaStation.longitude station = Some (Fin q) ->
  findNearestNoaaStation (Fin p) (Fin q) [station] = Some (station, Fin 0).
Proof.
  intros Hlat Hlon. unfold findNearestNoaaStation.
  cbn [Num.isFinite negb length Nat.eqb orb fold_left].
  rewrite Hlat, Hlon.
  cbn [Number_isFinite Num.isFinite negb orb Number].
  rewrite calculateDistance_same_point. reflexivity.
Qed.


(** The lookup of a ZIP that step 1 does not resolve, on a served page,
    when both resolvers answer and the county record has a finite heating
    design temperature: the station merge runs and its result is what is
    displayed. *)
Lemma lookup_network_stage net loads page st zipCode loc fipsInfo normalized :
  String.length zipCode = 5%nat ->
  inMemoryRecord (State.RESNET_ASHRAE_DATA st) zipCode = None ->
  Network.getLocationFromZip net zipCode = inl loc ->
  Network.getCountyFIPS net (Location.latitude loc) (Location.longitude loc)
    = inl fipsInfo ->
  countyRecord st loc fipsInfo = inl normalized ->
  let stations :=
    fst (fst (loadNoaaStationsDb net (State.NOAA_STATIONS_DB st))) in
  let merged :=
    mergeNearestNoaa (Location.latitude loc) (Location.longitude loc)
      stations normalized in
  Number_isFinite (Climate.hdd merged) = true ->
  Lookup.outcome (lookupClimateData net false loads page st zipCode)
    = Shown merged (calculateHVACCosts merged loads page).
Proof.
  intros Hlen Hmem Hloc Hfips Hrec. cbv zeta. intros Hhdd.
  unfold lookupClimateData. rewrite Hlen, Hmem, Hloc, Hfips, Hrec.
  cbn [Nat.eqb negb].
  destruct (loadNoaaStationsDb net (State.NOAA_STATIONS_DB st))
    as [[stations cache] fetched].
  cbn [fst] in Hhdd. rewrite Hhdd. reflexivity.
Qed.

(** The station merge for ZIP 97219 when the station file holds the
    station that sits on its centroid. *)
Lemma merge_at_97219 normalized :
  let merged :=
    mergeNearestNoaa (lit 45.4543) (lit (-122.707)) [stationAt97219]
      normalized in
  Climate.hdd merged = Some (Fin 4461)
  /\ Climate.cdd merged = Some (Fin 433)
  /\ Climate.source merged
     = match Climate.source normalized with
       | EmptyString => "NOAA Normals 2006–2020 (nearest: PORTLAND SW)"
       | src => src +:+ " + NOAA Normals 2006–2020 (nearest: PORTLAND SW)"
       end.
Proof.
  cbv zeta. unfold mergeNearestNoaa. cbn [length Nat.eqb].
  rewrite (nearest_station_on_point (Qred 45.4543) (Qred (-122.707)))
    by reflexivity.
  repeat split.
Qed.

End ResolverClaims.



(** ** The merges into the county index *)

Section MergeClaims.
Context {H : Host}.

Lemma kept_refl e : kept e e.
Proof. repeat split. Qed.

Lemma kept_trans e1 e2 e3 : kept e1 e2 -> kept e2 e3 -> kept e1 e3.
Proof.
  intros (S12 & H12 & C12) (S23 & H23 & C23). split; [|split].
  - unfold sameButDegreeDays in *. congruence.
  - intros F. pose proof (H12 F) as E12. rewrite <- E12 in F.
    rewrite (H23 F). exact E12.
  - intros F. pose proof (C12 F) as E12. rewrite <- E12 in F.
    rewrite (C23 F). exact E12.
Qed.

Lemma fillFromNormals_kept stations e : kept e (fillFromNormals stations e).
Proof.
  unfold fillFromNormals. cbv zeta.
  destruct (Number_isFinite (Entry.hdd e)) eqn:Fh,
           (Number_isFinite (Entry.cdd e)) eqn:Fc; cbn [negb andb];
    try apply kept_refl;
    destruct (nearestStation (Entry.lat e) (Entry.lon e) stations)
      as [nearest|]; try apply kept_refl;
    repeat match goal with
           | |- context [if ?b then _ else _] => destruct b
           end;
    destruct e; unfold kept, sameButDegreeDays; cbn in *;
    repeat split; congruence.
Qed.

(** Folding a step that keeps a property keeps it. *)
Lemma fold_left_invariant {A B} (P : A -> Prop) (f : A -> B -> A) l a :
  (forall a b, P a -> P (f a b)) -> P a -> P (fold_left f l a).
Proof.
  intros Hstep. revert a. induction l as [|b l IH]; intros a Ha; cbn; auto.
Qed.

Lemma mergeJsonIndex_lookup idx (county : gmap string Entry.t) k e :
  county !! k = Some e -> mergeJsonIndex idx county !! k = Some e.
Proof.
  intros Hk. unfold mergeJsonIndex.
  apply (fold_left_invariant (fun m : gmap string Entry.t => m !! k = Some e));
    [|exact Hk].
  intros m [k' v] Hm. cbn [fst snd].
  destruct (m !! k') eqn:E; [exact Hm|].
  rewrite lookup_insert_ne; [exact Hm | congruence].
Qed.

Lemma csvRow_lookup fipsIdx nameIdx stateIdx heatingIdx coolingIdx hddIdx
  cddIdx (county : gmap string Entry.t) line k e :
  county !! k = Some e ->
  csvRow fipsIdx nameIdx stateIdx heatingIdx coolingIdx hddIdx cddIdx
    county line !! k = Some e.
Proof.
  intros Hk. unfold csvRow. cbv zeta.
  destruct (length (Str.split "," line) <=? fipsIdx)%nat; [exact Hk|].
  set (fips := Str.padStart0 5 _).
  destruct (String.length fips =? 0)%nat; [exact Hk|].
  destruct (county !! fips) eqn:E; [exact Hk|].
  rewrite lookup_insert_ne; [exact Hk | congruence].
Qed.

Lemma tryLoadExternalCountyCsv_lookup response
  (county : gmap string Entry.t) k e :
  county !! k = Some e ->
  tryLoadExternalCountyCsv response county !! k = Some e.
Proof.
  intros Hk. unfold tryLoadExternalCountyCsv.
  destruct response as [text|]; [|exact Hk].
  destruct (csvLines text) as [|first [|second rest]]; try exact Hk.
  cbv zeta. destruct (Str.firstIndex _ _) as [fipsIdx|]; [|exact Hk].
  apply (fold_left_invariant (fun m : gmap string Entry.t => m !! k = Some e));
    [|exact Hk].
  intros m line Hm. now apply csvRow_lookup.
Qed.

Lemma tryMergeNoaaNormalsHddCdd_lookup response
  (county : gmap string Entry.t) k e :
  county !! k = Some e ->
  exists e', tryMergeNoaaNormalsHddCdd response county !! k = Some e'
             /\ kept e e'.
Proof.
  intros Hk. unfold tryMergeNoaaNormalsHddCdd.
  assert (Same : exists e', county !! k = Some e' /\ kept e e')
    by (exists e; split; [exact Hk | apply kept_refl]).
  destruct response as [text|]; [|exact Same].
  destruct (csvLines text) as [|first [|second rest]]; try exact Same.
  cbv zeta.
  destruct (Str.firstIndex _ _) as [idIdx|]; [|exact Same].
  destruct (Str.firstIndex _ _) as [latIdx|]; [|exact Same].
  destruct (Str.firstIndex _ _) as [lonIdx|]; [|exact Same].
  destruct (omap _ _) as [|s stations] eqn:Es; [exact Same|].
  exists (fillFromNormals (s :: stations) e). split.
  - rewrite lookup_fmap, Hk. reflexivity.
  - apply fillFromNormals_kept.
Qed.

Lemma runMerge_lookup op (county : gmap string Entry.t) k e :
  county !! k = Some e ->
  exists e', runMerge county op !! k = Some e' /\ kept e e'.
Proof.
  intros Hk. destruct op as [json | response | response]; cbn [runMerge].
  - exists e. split; [|apply kept_refl].
    destruct json as [idx|]; [now apply mergeJsonIndex_lookup | exact Hk].
  - exists e. split; [|apply kept_refl].
    now apply tryLoadExternalCountyCsv_lookup.
  - now apply tryMergeNoaaNormalsHddCdd_lookup.
Qed.

(** C7.  A FIPS code present in the index stays present through every
    sequence of merges.  The JSON and the CSV merge leave its entry as it
    is (they only add absent codes); the NOAA-normals merge, and so every
    sequence of merges, changes at most its [hdd] and [cdd], and these only
    when they were not finite. *)
Theorem merges_never_overwrite :
  (forall json (county : gmap string Entry.t) k e,
      county !! k = Some e ->
      tryLoadExternalCountyJson json county !! k = Some e)
  /\ (forall response (county : gmap string Entry.t) k e,
        county !! k = Some e ->
        tryLoadExternalCountyCsv response county !! k = Some e)
  /\ (forall response (county : gmap string Entry.t) k e,
        county !! k = Some e ->
        exists e', tryMergeNoaaNormalsHddCdd response county !! k = Some e'
                   /\ kept e e')
  /\ (forall ops (county : gmap string Entry.t) k e,
        county !! k = Some e ->
        exists e', runMerges ops county !! k = Some e' /\ kept e e').
Proof.
  split; [|split; [|split]].
  - intros [idx|] county k e Hk; [now apply mergeJsonIndex_lookup | exact Hk].
  - intros. now apply tryLoadExternalCountyCsv_lookup.
  - intros. now apply tryMergeNoaaNormalsHddCdd_lookup.
  - intros ops. unfold runMerges.
    induction ops as [|op ops IH]; intros county k e Hk; cbn [fold_left].
    + exists e. split; [exact Hk | apply kept_refl].
    + destruct (runMerge_lookup op county k e Hk) as (e1 & H1 & K1).
      destruct (IH _ _ _ H1) as (e2 & H2 & K2).
      exists e2. split; [exact H2 | now apply kept_trans with e1].
Qed.

End MergeClaims.

Lemma merges_keep_multnomah :
  exists e',
    runMerges (H := refHost)
      [ MergeJson (Some [("41051"%string, miamiEntry);
                         ("12086"%string, miamiEntry)]);
        MergeCsv (Some sampleCountyCsv);
        MergeNormals (Some sampleNormalsCsv) ]
      (list_to_map ASHRAE_COUNTY_DATA) !! "41051"%string = Some e'
    /\ kept multnomahEntry e'.
Proof.
  apply (proj2 (proj2 (proj2 (@merges_never_overwrite refHost)))).
  vm_compute. reflexivity.
Defined.


(* ===================================================================== *)
(** * Further properties                                                  *)
(* ===================================================================== *)

(** ** The order of [num] *)

Module OrderFacts.
Import NumFacts.
Local Open Scope num_scope.

Ltac by_cases3 a b c :=
  destruct a as [| | |?x], b as [| | |?y], c as [| | |?z];
  cbn [Num.ltb Num.leb]; try easy;
  rewrite ?Qltb_true, ?Qltb_false, ?Qle_bool_iff, ?Qle_bool_false;
  intros; lra.

Lemma ltb_leb_false a b : (a <? b) = true -> (b <=? a) = false.
Proof.
  destruct a as [| | |x], b as [| | |y]; cbn [Num.ltb Num.leb]; try easy.
  rewrite Qltb_true, Qle_bool_false. auto.
Qed.

Lemma ltb_leb a b : (a <? b) = true -> (a <=? b) = true.
Proof.
  destruct a as [| | |x], b as [| | |y]; cbn [Num.ltb Num.leb]; try easy.
  rewrite Qltb_true, Qle_bool_iff. lra.
Qed.

Lemma ltb_below_PInf a b : (a <? b) = true -> (a <? PInf) = true.
Proof. destruct a, b; cbn [Num.ltb]; easy. Qed.

Lemma not_leb_trans x s b :
  (x <=? b) = false -> (s <? b) = true -> (x <=? s) = false.
Proof. by_cases3 x s b. Qed.

Lemma not_ltb_trans x s b :
  (x <? b) = false -> (s <? b) = true -> (x <=? s) = false.
Proof. by_cases3 x s b. Qed.

Lemma leb_trans a b c :
  (a <=? b) = true -> (b <=? c) = true -> (a <=? c) = true.
Proof. by_cases3 a b c. Qed.

End OrderFacts.

(** ** Nearest-match scans *)

Section ScanFacts.
Import NumFacts OrderFacts.
Local Open Scope num_scope.
Context {A : Type} (d : A -> num).

(** What a scan has found after the members of [prefix], carried over the
    members of [l]. *)
Lemma scan_step prefix l (acc : option A * num) :
  match fst acc with
  | Some b => nearestIn d prefix b /\ snd acc = d b
  | None => (forall s, In s prefix -> (d s <? PInf) = false)
            /\ snd acc = PInf
  end ->
  let r := fold_left (fun acc s => closer s (d s) acc) l acc in
  match fst r with
  | Some b => nearestIn d (prefix ++ l) b /\ snd r = d b
  | None => (forall s, In s (prefix ++ l) -> (d s <? PInf) = false)
            /\ snd r = PInf
  end.
Proof.
  cbv zeta. revert prefix acc.
  induction l as [|s l IH]; intros prefix acc Hinv; cbn [fold_left].
  - rewrite List.app_nil_r. exact Hinv.
  - replace (prefix ++ s :: l) with ((prefix ++ [s]) ++ l)
      by (rewrite <- List.app_assoc; reflexivity).
    apply IH. clear IH. unfold closer.
    destruct acc as [[b|] bestD]; cbn [fst snd] in *.
    + destruct Hinv as [(before & after & -> & Hfin & Hbef & Haft) ->].
      destruct (d s <? d b) eqn:E; cbn [fst snd].
      * split; [|reflexivity].
        exists (before ++ b :: after), []. split; [reflexivity|].
        split; [exact (ltb_below_PInf _ _ E)|]. split.
        -- intros x Hx. apply List.in_app_or in Hx as [Hx|[<-|Hx]].
           ++ exact (not_leb_trans _ _ _ (Hbef x Hx) E).
           ++ exact (ltb_leb_false _ _ E).
           ++ exact (not_ltb_trans _ _ _ (Haft x Hx) E).
        -- intros x [].
      * split; [|reflexivity].
        exists before, (after ++ [s]). split.
        { rewrite <- List.app_assoc. reflexivity. }
        split; [exact Hfin|]. split; [exact Hbef|].
        intros x Hx. apply List.in_app_or in Hx as [Hx|[<-|[]]]; auto.
    + destruct Hinv as [Hnone ->].
      destruct (d s <? PInf) eqn:E; cbn [fst snd].
      * split; [|reflexivity].
        exists prefix, []. split; [reflexivity|].
        split; [exact E|]. split.
        -- intros x Hx. exact (not_ltb_trans _ _ _ (Hnone x Hx) E).
        -- intros x [].
      * split; [|reflexivity].
        intros x Hx. apply List.in_app_or in Hx as [Hx|[<-|[]]]; auto.
Qed.

Lemma scan_nearest l :
  let r := fold_left (fun acc s => closer s (d s) acc) l (None, PInf) in
  match fst r with
  | Some b => nearestIn d l b /\ snd r = d b
  | None => (forall s, In s l -> (d s <? PInf) = false) /\ snd r = PInf
  end.
Proof.
  apply (scan_step [] l (None, PInf)). cbn. split; [intros s []|reflexivity].
Qed.

Lemma nearestIn_member l b : nearestIn d l b -> In b l.
Proof.
  intros (before & after & -> & _). apply List.in_or_app. right. now left.
Qed.

End ScanFacts.

Section NearestProperties.
Context {H : Host}.
Import NumFacts OrderFacts.
Local Open Scope num_scope.

(** X1.  The ZIP station that [findNearestResnetStation] returns is a row
    of the ZIP table with finite coordinates, and it is a nearest one: its
    distance to the point is below [Infinity], no row with finite
    coordinates is strictly closer, and no row enumerated before it is as
    close.  It returns nothing only when a coordinate of the
    point is not finite or no row has a distance below [Infinity]. *)
Theorem nearest_resnet_station_is_nearest
  (table : list (string * Entry.t)) (lat lon : num) :
  let dist := fun s : Entry.t =>
    calculateDistance lat lon (Number (Entry.lat s)) (Number (Entry.lon s)) in
  match findNearestResnetStation table lat lon with
  | Some best =>
      In best (map snd table)
      /\ Number_isFinite (Entry.lat best) = true
      /\ Number_isFinite (Entry.lon best) = true
      /\ nearestIn dist (getResnetStations table) best
  | None =>
      Num.isFinite lat && Num.isFinite lon = false
      \/ forall s, In s (getResnetStations table) -> (dist s <? PInf) = false
  end.
Proof.
  cbv zeta. unfold findNearestResnetStation. cbv zeta.
  destruct (getResnetStations table) as [|s0 l] eqn:El.
  { cbn. right. intros s []. }
  cbn [length Nat.eqb orb].
  destruct (Num.isFinite lat); [|cbn; now left].
  destruct (Num.isFinite lon); [|cbn; now left].
  cbn [negb orb].
  pose proof (scan_nearest
    (fun s : Entry.t =>
       calculateDistance lat lon (Number (Entry.lat s)) (Number (Entry.lon s)))
    (s0 :: l)) as Hscan.
  cbv zeta in Hscan.
  destruct (fst (fold_left _ (s0 :: l) (None, PInf))) as [best|].
  - destruct Hscan as [Hnear _].
    pose proof (nearestIn_member _ _ _ Hnear) as Hin.
    rewrite <- El in Hin. unfold getResnetStations in Hin.
    apply List.filter_In in Hin as [Hin Hok].
    apply andb_true_iff in Hok as [Hlat Hlon].
    repeat split; assumption.
  - right. exact (proj1 Hscan).
Qed.

Lemma noaa_scan_filter lat lon l (acc : option NoaaStation.t * num) :
  fold_left
    (fun acc s =>
       if negb (Number_isFinite (NoaaStation.latitude s))
          || negb (Number_isFinite (NoaaStation.longitude s))
       then acc
       else closer s (calculateDistance lat lon
                        (Number (NoaaStation.latitude s))
                        (Number (NoaaStation.longitude s))) acc)
    l acc
  = fold_left
      (fun acc s =>
         closer s (calculateDistance lat lon
                     (Number (NoaaStation.latitude s))
                     (Number (NoaaStation.longitude s))) acc)
      (List.filter hasCoordinates l) acc.
Proof.
  revert acc. induction l as [|s l IH]; intros acc; [reflexivity|].
  cbn [fold_left List.filter]. unfold hasCoordinates at 1.
  destruct (Number_isFinite (NoaaStation.latitude s));
    destruct (Number_isFinite (NoaaStation.longitude s));
    cbn [negb orb andb fold_left]; apply IH.
Qed.

(** X2.  [findNearestNoaaStation] passes over the stations that lack a
    finite coordinate and returns a nearest one of the others (none
    strictly closer, no earlier one as close), with its distance rounded to
    a tenth of a mile.  It returns nothing only when a coordinate
    of the point is not finite or no station with coordinates has a
    distance below [Infinity]. *)
Theorem nearest_noaa_station_is_nearest
  (lat lon : num) (stations : list NoaaStation.t) :
  let dist := fun s : NoaaStation.t =>
    calculateDistance lat lon (Number (NoaaStation.latitude s))
      (Number (NoaaStation.longitude s)) in
  match findNearestNoaaStation lat lon stations with
  | Some (best, distance_mi) =>
      In best stations
      /\ hasCoordinates best = true
      /\ nearestIn dist (List.filter hasCoordinates stations) best
      /\ distance_mi = Num.round (dist best * lit 10) / lit 10
  | None =>
      Num.isFinite lat && Num.isFinite lon = false
      \/ forall s, In s stations -> hasCoordinates s = true ->
                   (dist s <? PInf) = false
  end.
Proof.
  cbv zeta. unfold findNearestNoaaStation. cbv zeta.
  destruct (Num.isFinite lat); [|cbn; now left].
  destruct (Num.isFinite lon); [|cbn; now left].
  cbn [negb orb].
  destruct (length stations =? 0)%nat eqn:Elen.
  { right. intros s Hs. apply Nat.eqb_eq in Elen.
    destruct stations; [destruct Hs|discriminate]. }
  rewrite noaa_scan_filter.
  pose proof (scan_nearest
    (fun s : NoaaStation.t =>
       calculateDistance lat lon (Number (NoaaStation.latitude s))
         (Number (NoaaStation.longitude s)))
    (List.filter hasCoordinates stations)) as Hscan.
  cbv zeta in Hscan.
  destruct (fst (fold_left _ (List.filter hasCoordinates stations) (None, PInf)))
    as [best|].
  - destruct Hscan as [Hnear Hd].
    pose proof (nearestIn_member _ _ _ Hnear) as Hin.
    apply List.filter_In in Hin as [Hin Hok].
    rewrite Hd. repeat split; assumption.
  - right. intros s Hs Hok. apply (proj1 Hscan).
    apply List.filter_In. split; assumption.
Qed.

(** X3.  [nearestStation] returns a station of the normals file that is
    nearest to the county's coordinates by [haversine]: none is strictly
    closer and no earlier one is as close.  It returns nothing
    only when a coordinate is absent or not finite, or no station has a
    distance below [Infinity]. *)
Theorem nearest_normals_station_is_nearest
  (lat lon : option num) (stations : list Normal.t) :
  let dist := fun s : Normal.t =>
    haversine (Number lat) (Number lon) (Normal.lat s) (Normal.lon s) in
  match nearestStation lat lon stations with
  | Some best => nearestIn dist stations best
  | None =>
      Number_isFinite lat && Number_isFinite lon = false
      \/ forall s, In s stations -> (dist s <? PInf) = false
  end.
Proof.
  cbv zeta. unfold nearestStation.
  destruct (Number_isFinite lat); [|cbn; now left].
  destruct (Number_isFinite lon); [|cbn; now left].
  cbn [negb orb].
  destruct (length stations =? 0)%nat eqn:Elen.
  { right. intros s Hs. apply Nat.eqb_eq in Elen.
    destruct stations; [destruct Hs|discriminate]. }
  pose proof (scan_nearest
    (fun s : Normal.t =>
       haversine (Number lat) (Number lon) (Normal.lat s) (Normal.lon s))
    stations) as Hscan.
  cbv zeta in Hscan.
  destruct (fst (fold_left _ stations (None, PInf))) as [best|].
  - exact (proj1 Hscan).
  - right. exact (proj1 Hscan).
Qed.

End NearestProperties.

(** ** The two distance functions *)

Section DistanceProperties.
Context {H : Host}.
Import NumFacts OrderFacts.
Local Open Scope num_scope.

(** The angle both distance functions multiply by their radius. *)
Lemma distances_share_angle lat1 lon1 lat2 lon2 :
  exists c,
    calculateDistance lat1 lon1 lat2 lon2 = lit 3959 * c
    /\ haversine lat1 lon1 lat2 lon2 = lit 6371 * c.
Proof. eexists. split; reflexivity. Qed.

Lemma scaled_order (x y : num) :
  (lit 6371 * x <? lit 6371 * y) = (lit 3959 * x <? lit 3959 * y).
Proof.
  destruct x as [| | |x], y as [| | |y]; try reflexivity.
  unfold Num.lit. rewrite !mul_Fin, !ltb_Fin.
  apply eq_true_iff_eq. rewrite !Qltb_true, !Qred_correct.
  change (Qred 6371) with 6371%Q. change (Qred 3959) with 3959%Q.
  split; intros; lra.
Qed.

Lemma distances_order_alike (lat lon lat1 lon1 lat2 lon2 : num) :
  (haversine lat lon lat1 lon1 <? haversine lat lon lat2 lon2)
  = (calculateDistance lat lon lat1 lon1 <? calculateDistance lat lon lat2 lon2).
Proof.
  destruct (distances_share_angle lat lon lat1 lon1) as (c1 & -> & ->).
  destruct (distances_share_angle lat lon lat2 lon2) as (c2 & -> & ->).
  apply scaled_order.
Qed.

Lemma haversine_same_point (p q : Q) :
  haversine (Fin p) (Fin q) (Fin p) (Fin q) = Fin 0.
Proof.
  destruct (distances_share_angle (Fin p) (Fin q) (Fin p) (Fin q))
    as (c & Hmi & ->).
  rewrite calculateDistance_same_point in Hmi.
  destruct c as [| | |c]; try discriminate Hmi.
  unfold Num.lit in *. rewrite mul_Fin in *.
  injection Hmi as Hmi. f_equal.
  assert (Hc : (c == 0)%Q).
  { assert (E : (Qred (Qred 3959 * c) == 0)%Q) by (rewrite <- Hmi; reflexivity).
    rewrite Qred_correct in E. change (Qred 3959) with 3959%Q in E. lra. }
  change 0%Q with (Qred 0). apply Qred_complete. rewrite Hc. ring.
Qed.


End DistanceProperties.

(** ** The heat-pump share and the split bar *)

Section ShareProperties.
Import NumFacts OrderFacts.
Local Open Scope num_scope.

Lemma max_Fin a b :
  Num.max (Fin a) (Fin b) = Fin (if Qle_bool a b then b else a).
Proof. unfold Num.max. rewrite leb_Fin. now destruct (Qle_bool a b). Qed.

Lemma min_Fin a b :
  Num.min (Fin a) (Fin b) = Fin (if Qle_bool a b then a else b).
Proof. unfold Num.min. rewrite leb_Fin. now destruct (Qle_bool a b). Qed.

(** [Math.max(lo, Math.min(hi, x))] on finite numbers. *)
Lemma clamp_Fin (lo hi x : Q) :
  (lo <= hi)%Q ->
  exists y, Num.max (Fin lo) (Num.min (Fin hi) (Fin x)) = Fin y
            /\ (lo <= y)%Q /\ (y <= hi)%Q
            /\ ((lo <= x)%Q -> (x <= hi)%Q -> (y == x)%Q).
Proof.
  intros Hlh. rewrite min_Fin, max_Fin.
  destruct (Qle_bool hi x) eqn:E1.
  - apply Qle_bool_iff in E1.
    destruct (Qle_bool lo hi) eqn:E2.
    + exists hi. split; [reflexivity|]. split; [lra|]. split; [lra|].
      intros; lra.
    + apply Qle_bool_false in E2. lra.
  - apply Qle_bool_false in E1.
    destruct (Qle_bool lo x) eqn:E2.
    + apply Qle_bool_iff in E2.
      exists x. split; [reflexivity|]. split; [lra|]. split; [lra|].
      intros; lra.
    + apply Qle_bool_false in E2.
      exists lo. split; [reflexivity|]. split; [lra|]. split; [lra|].
      intros; lra.
Qed.

Lemma setHybridSplit_within p : barWithinBounds (setHybridSplit p).
Proof.
  unfold setHybridSplit. destruct p as [| | |x]; cbn [Num.isFinite negb];
    try exact I.
  destruct (clamp_Fin 0 100 x) as (y & E & H0 & H1 & _); [lra|].
  change (lit 0) with (Fin 0). change (lit 100) with (Fin 100).
  rewrite E. exists y. auto.
Qed.

Lemma updateHybridSplitBar_within e : barWithinBounds (updateHybridSplitBar e).
Proof.
  unfold updateHybridSplitBar. destruct e as [e|]; [|exact I].
  destruct ((e <? lit 0) || (e >? lit 1)); [exact I|].
  apply setHybridSplit_within.
Qed.

(** X6.  Whatever it is given, the split bar is either in its default
    state or populated with a finite heat-pump width between 0 and 100
    percent: through [setHybridSplit], [updateHybridSplitBar],
    [updateHybridSplitFromLoads] and at the end of every run of
    [calculateHVACCosts]. *)
Theorem split_bar_stays_within_bounds :
  (forall hpPercent, barWithinBounds (setHybridSplit hpPercent))
  /\ (forall share, barWithinBounds (updateHybridSplitBar share))
  /\ (forall hpLoad furnaceLoad,
        barWithinBounds (updateHybridSplitFromLoads hpLoad furnaceLoad))
  /\ (forall climateData houseLoads page,
        barWithinBounds
          (splitBar (calculateHVACCosts climateData houseLoads page))).
Proof.
  split; [exact setHybridSplit_within|].
  split; [exact updateHybridSplitBar_within|].
  split.
  - intros hp fn. unfold updateHybridSplitFromLoads. cbv zeta.
    destruct (negb (hp >=? lit 0) || negb (fn >=? lit 0)); [exact I|].
    destruct (hp + fn <=? lit 0); [exact I|].
    apply setHybridSplit_within.
  - intros c l p. unfold calculateHVACCosts. cbv zeta. cbn [splitBar].
    apply updateHybridSplitBar_within.
Qed.

Lemma share_fraction (hd xo : num) (hdd : option num) :
  hd <> NaN -> xo <> NaN ->
  match calculateHeatPumpEfficiency hd xo hdd with
  | None => updateHybridSplitBar None = SplitDefault
  | Some s =>
      exists q w,
        s = Fin q /\ (0 <= q)%Q /\ (q <= 1)%Q
        /\ updateHybridSplitBar (Some s) = SplitPopulated (Fin w)
        /\ (w == q * 100)%Q
  end.
Proof.
  intros Hhd Hxo.
  assert (Hbar : forall q, (0 <= q)%Q -> (q <= 1)%Q ->
            exists w, updateHybridSplitBar (Some (Fin q))
                      = SplitPopulated (Fin w) /\ (w == q * 100)%Q).
  { intros q H0 H1. unfold updateHybridSplitBar, setHybridSplit, Num.gtb.
    change (lit 0) with (Fin 0). change (lit 1) with (Fin 1).
    change (lit 100) with (Fin 100).
    rewrite !ltb_Fin.
    assert (E0 : Num.Qltb q 0 = false) by (apply Qltb_false; lra).
    assert (E1 : Num.Qltb 1 q = false) by (apply Qltb_false; lra).
    rewrite E0, E1. cbn [orb].
    rewrite mul_Fin. cbn [Num.isFinite negb].
    destruct (clamp_Fin 0 100 (Qred (q * 100))) as (y & E & _ & _ & Hy);
      [lra|].
    rewrite E. exists y. split; [reflexivity|].
    rewrite Hy; rewrite Qred_correct; try lra. }
  assert (Hsome : forall q, (0 <= q)%Q -> (q <= 1)%Q ->
            exists q' w,
              Fin q = Fin q' /\ (0 <= q')%Q /\ (q' <= 1)%Q
              /\ updateHybridSplitBar (Some (Fin q)) = SplitPopulated (Fin w)
              /\ (w == q' * 100)%Q).
  { intros q H0 H1. destruct (Hbar q H0 H1) as (w & E & Hw).
    exists q, w. auto. }
  unfold calculateHeatPumpEfficiency. cbv zeta.
  destruct (falsy hdd || (Number hdd <=? lit 0)); [reflexivity|].
  change (lit 1.0) with (Fin 1). change (lit 0.0) with (Fin 0).
  change (lit 0) with (Fin 0). change (lit 1) with (Fin 1).
  destruct (xo >=? lit 65) eqn:E65; [apply Hsome; lra|].
  destruct (xo <=? hd) eqn:Ele; [apply Hsome; lra|].
  destruct (lit 65 - hd <=? Fin 0) eqn:Etot; [apply Hsome; lra|].
  destruct xo as [| | |x]; [congruence|discriminate E65| |].
  { destruct hd; [congruence|discriminate Ele ..]. }
  destruct hd as [| | |h]; [congruence|discriminate Ele| |].
  { change (lit 65 - Fin x) with (Fin (Qred (65 - x))).
    change (lit 65 - NInf) with PInf.
    change (Fin (Qred (65 - x)) / PInf) with (Fin 0).
    change (Num.min (Fin 1) (Fin 0)) with (Fin 0). apply Hsome; lra. }
  unfold Num.geb in E65. change (lit 65) with (Fin 65) in *.
  rewrite leb_Fin in E65, Ele. rewrite sub_Fin, leb_Fin in Etot.
  apply Qle_bool_false in E65, Ele, Etot. rewrite Qred_correct in Etot.
  rewrite !sub_Fin. rewrite div_Fin by (rewrite Qred_correct; lra).
  rewrite min_Fin.
  set (r := Qred (Qred (65 - x) / Qred (65 - h))).
  assert (Hr : (0 < r)%Q).
  { unfold r. rewrite !Qred_correct. apply Qlt_shift_div_l; lra. }
  destruct (Qle_bool 1 r) eqn:E1.
  - apply Hsome; lra.
  - apply Qle_bool_false in E1. apply Hsome; lra.
Qed.

(** X7.  When neither temperature is [NaN], the share that
    [calculateHeatPumpEfficiency] returns is [null] or a finite number
    between 0 and 1, and the split bar that receives it is populated with
    exactly that share in percent. *)
Theorem share_is_a_fraction (hd xo : num) (hdd : option num) :
  hd <> NaN -> xo <> NaN ->
  match calculateHeatPumpEfficiency hd xo hdd with
  | None => updateHybridSplitBar None = SplitDefault
  | Some s =>
      exists q w,
        s = Fin q /\ (0 <= q)%Q /\ (q <= 1)%Q
        /\ updateHybridSplitBar (Some s) = SplitPopulated (Fin w)
        /\ (w == q * 100)%Q
  end.
Proof. exact (share_fraction hd xo hdd). Qed.

Lemma share_is_a_fraction_at_24_35 :
  lit 24 <> NaN /\ lit 35 <> NaN
  /\ exists q w,
       calculateHeatPumpEfficiency (lit 24) (lit 35) (Some (lit 4000))
       = Some (Fin q)
       /\ updateHybridSplitBar (Some (Fin q)) = SplitPopulated (Fin w)
       /\ (0 <= q)%Q /\ (q <= 1)%Q /\ (w == q * 100)%Q.
Proof.
  assert (H24 : lit 24 <> NaN) by discriminate.
  assert (H35 : lit 35 <> NaN) by discriminate.
  split; [exact H24|]. split; [exact H35|].
  pose proof (share_is_a_fraction (lit 24) (lit 35) (Some (lit 4000)) H24 H35)
    as Hs.
  destruct (calculateHeatPumpEfficiency (lit 24) (lit 35) (Some (lit 4000)))
    as [s|] eqn:E; [|discriminate E].
  destruct Hs as (q & w & -> & H0 & H1 & Hbar & Hw).
  exists q, w. auto.
Defined.

End ShareProperties.

(** ** The box marked as the lowest *)

Section LowestProperties.
Import NumFacts OrderFacts.
Local Open Scope num_scope.

Lemma min_spec a b :
  a <> NaN -> b <> NaN ->
  (Num.min a b = a \/ Num.min a b = b)
  /\ (Num.min a b <=? a) = true /\ (Num.min a b <=? b) = true.
Proof.
  intros Ha Hb.
  destruct a as [| | |x], b as [| | |y]; try congruence;
    cbn [Num.min Num.leb];
    try (repeat split; auto; apply Qle_bool_iff; lra).
  destruct (Qle_bool x y) eqn:E; cbn [Num.leb].
  - repeat split; auto. apply Qle_bool_iff. lra.
  - apply Qle_bool_false in E. repeat split; auto; apply Qle_bool_iff; lra.
Qed.

Lemma min_PInf a : a <> NaN -> Num.min PInf a = a.
Proof. destruct a; try congruence; reflexivity. Qed.

Lemma min_NaN_l a : Num.min NaN a = NaN.
Proof. reflexivity. Qed.

Lemma min_NaN_r a : Num.min a NaN = NaN.
Proof. now destruct a. Qed.

Lemma Math_min3 a b c :
  a <> NaN -> b <> NaN -> c <> NaN ->
  let m := Math_min [a; b; c] in
  (m = a \/ m = b \/ m = c)
  /\ (m <=? a) = true /\ (m <=? b) = true /\ (m <=? c) = true.
Proof.
  intros Ha Hb Hc. unfold Math_min. cbn [fold_left]. rewrite (min_PInf a Ha).
  destruct (min_spec a b Ha Hb) as (Eab & Hab_a & Hab_b).
  assert (Hab : Num.min a b <> NaN) by (destruct Eab as [-> | ->]; assumption).
  destruct (min_spec (Num.min a b) c Hab Hc) as (E & H1 & H2).
  split.
  - destruct E as [-> | ->]; [|auto]. destruct Eab as [-> | ->]; auto.
  - repeat split; eauto using leb_trans.
Qed.

Lemma Math_min3_NaN a b c :
  a = NaN \/ b = NaN \/ c = NaN -> Math_min [a; b; c] = NaN.
Proof.
  unfold Math_min. cbn [fold_left].
  intros [-> | [-> | ->]];
    rewrite ?min_NaN_r, ?min_NaN_l; reflexivity.
Qed.

Lemma strictEq_refl a : a <> NaN -> strictEq a a = true.
Proof.
  destruct a; try congruence; try reflexivity.
  intros _. apply Qeq_bool_iff. reflexivity.
Qed.

Lemma strictEq_NaN a : strictEq a NaN = false.
Proof. now destruct a. Qed.

Lemma strictEq_leb a m s :
  strictEq a m = true -> (m <=? s) = true -> (a <=? s) = true.
Proof.
  destruct a as [| | |x], m as [| | |y], s as [| | |z];
    cbn [strictEq Num.leb]; try easy.
  rewrite Qeq_bool_iff, !Qle_bool_iff. intros; lra.
Qed.

Lemma strictEq_false_ltb s m w :
  strictEq s m = false -> (m <=? s) = true -> strictEq w m = true ->
  (w <? s) = true.
Proof.
  destruct s as [| | |z], m as [| | |y], w as [| | |x];
    cbn [strictEq Num.leb Num.ltb]; try easy.
  rewrite Qeq_bool_false, Qeq_bool_iff, Qle_bool_iff, Qltb_true.
  intros Hne Hle Heq. destruct (Qlt_le_dec x z) as [Hlt|Hge]; [exact Hlt|].
  exfalso. apply Hne. lra.
Qed.

Lemma lowest_box (results : Results.t) :
  ((forall s, totalOf results s <> NaN) ->
   exists w,
     displayCostBars results = Some w
     /\ showWinner results = w
     /\ (forall s, (totalOf results w <=? totalOf results s) = true)
     /\ (w = furnace ->
         (totalOf results furnace <? totalOf results heatPump) = true)
     /\ (w = hybrid ->
         (totalOf results hybrid <? totalOf results heatPump) = true
         /\ (totalOf results hybrid <? totalOf results furnace) = true))
  /\ ((exists s, totalOf results s = NaN) ->
      displayCostBars results = None /\ showWinner results = heatPump).
Proof.
  unfold displayCostBars, showWinner. cbv zeta.
  rewrite map_map. cbn [snd].
  cbn [map systemTypes List.find fst snd].
  set (a := totalOf results heatPump).
  set (b := totalOf results furnace).
  set (c := totalOf results hybrid).
  split.
  - intros Hall.
    assert (Ha : a <> NaN) by apply (Hall heatPump).
    assert (Hb : b <> NaN) by apply (Hall furnace).
    assert (Hc : c <> NaN) by apply (Hall hybrid).
    destruct (Math_min3 a b c Ha Hb Hc) as (Hm & Hma & Hmb & Hmc).
    set (m := Math_min [a; b; c]) in *.
    assert (Hle : forall w s, strictEq (totalOf results w) m = true ->
                              (totalOf results w <=? totalOf results s) = true).
    { intros w s Hw. apply (strictEq_leb _ m); [exact Hw|].
      destruct s; assumption. }
    destruct (strictEq a m) eqn:Ea.
    { exists heatPump. cbn [option_map fst].
      repeat split; try discriminate. intros s. now apply Hle. }
    destruct (strictEq b m) eqn:Eb.
    { exists furnace. cbn [option_map fst].
      split; [reflexivity|]. split; [reflexivity|].
      split; [intros s; now apply Hle|].
      split; [|discriminate].
      intros _. exact (strictEq_false_ltb a m b Ea Hma Eb). }
    destruct (strictEq c m) eqn:Ec.
    { exists hybrid. cbn [option_map fst].
      split; [reflexivity|]. split; [reflexivity|].
      split; [intros s; now apply Hle|].
      split; [discriminate|].
      intros _. split.
      - exact (strictEq_false_ltb a m c Ea Hma Ec).
      - exact (strictEq_false_ltb b m c Eb Hmb Ec). }
    exfalso.
    destruct Hm as [E | [E | E]]; rewrite E in *.
    + rewrite strictEq_refl in Ea by assumption. discriminate.
    + rewrite strictEq_refl in Eb by assumption. discriminate.
    + rewrite strictEq_refl in Ec by assumption. discriminate.
  - intros Hnan.
    assert (E : Math_min [a; b; c] = NaN).
    { apply Math_min3_NaN. destruct Hnan as [[] Hs]; auto. }
    rewrite E, !strictEq_NaN. split; reflexivity.
Qed.

(** X8.  When no total is [NaN], [displayCostBars] and [showWinner] mark
    the same box; its total is the lowest of the three, and a box is passed
    over only for one that is strictly cheaper (ties go to the heat pump,
    then to the furnace).  When a total is [NaN], no total equals the
    minimum: [displayCostBars] raises a [TypeError] and [showWinner] falls
    back to the heat pump. *)
Theorem lowest_box_has_the_lowest_total (results : Results.t) :
  ((forall s, totalOf results s <> NaN) ->
   exists w,
     displayCostBars results = Some w
     /\ showWinner results = w
     /\ (forall s, (totalOf results w <=? totalOf results s) = true)
     /\ (w = furnace ->
         (totalOf results furnace <? totalOf results heatPump) = true)
     /\ (w = hybrid ->
         (totalOf results hybrid <? totalOf results heatPump) = true
         /\ (totalOf results hybrid <? totalOf results furnace) = true))
  /\ ((exists s, totalOf results s = NaN) ->
      displayCostBars results = None /\ showWinner results = heatPump).
Proof. exact (lowest_box results). Qed.

End LowestProperties.

(** The boxes marked in Multnomah County, and at a design temperature of
    65. *)
Lemma lowest_box_examples :
  (displayCostBars
     (results (calculateHVACCosts multnomahRecord exampleLoads defaultPage))
   = Some heatPump)
  /\ (displayCostBars
        (results (calculateHVACCosts recordAt65 exampleLoads defaultPage))
      = None).
Proof.
  split.
  - destruct (proj1 (lowest_box_has_the_lowest_total
             (results (calculateHVACCosts multnomahRecord exampleLoads
                         defaultPage))))
      as (w & E & _).
    + intros [] E; vm_compute in E; discriminate E.
    + rewrite E. f_equal. vm_compute in E. now injection E as <-.
  - apply (proj2 (lowest_box_has_the_lowest_total
             (results (calculateHVACCosts recordAt65 exampleLoads
                         defaultPage)))).
    exists hybrid. vm_compute. reflexivity.
Defined.

(** ** Totals of the cost model *)

Section TotalsProperties.
Import NumFacts OrderFacts.
Local Open Scope num_scope.

Lemma Qred_zero (q : Q) : (q == 0)%Q -> Qred q = 0%Q.
Proof. intros E. change 0%Q with (Qred 0). now apply Qred_complete. Qed.

Lemma round_Fin v : Num.round (Fin v) = Fin (inject_Z (Qfloor (v + (1 # 2)))).
Proof. reflexivity. Qed.

Lemma round_eq (x y : Q) : (x == y)%Q -> Num.round (Fin x) = Num.round (Fin y).
Proof. intros E. rewrite !round_Fin. now rewrite E. Qed.

Lemma round_nonneg (v : Q) : (0 <= v)%Q -> (0 <= Qfloor (v + (1 # 2)))%Z.
Proof.
  intros Hv. change 0%Z with (Qfloor 0). apply Qfloor_resp_le. lra.
Qed.

(** The crossover a run uses is a finite number or [NaN]. *)
Lemma usedCrossover_cases climate loads page :
  usedCrossover (calculateHVACCosts climate loads page) = NaN
  \/ exists x, usedCrossover (calculateHVACCosts climate loads page) = Fin x.
Proof.
  unfold calculateHVACCosts. cbv zeta. cbn [usedCrossover].
  destruct (Page.autoCrossover page).
  - destruct (Num.round _) as [| | |t].
    + left. reflexivity.
    + right. eexists. reflexivity.
    + right. eexists. reflexivity.
    + right. change (lit 20) with (Fin 20). change (lit 50) with (Fin 50).
      destruct (clamp_Fin 20 50 t) as (y & -> & _); [lra|]. now exists y.
  - destruct (Page.crossoverTemp page) as [| | |x]; cbn [Num.isFinite];
      right; eexists; reflexivity.
Qed.

Lemma share_one_above_crossover (h : Q) (xo : num) :
  (xo <? Fin h) = true -> xo = NaN \/ (exists x, xo = Fin x) ->
  heatPumpPercentage (Fin h) xo = Fin 1.
Proof.
  intros Hlt [-> | (x & ->)]; [discriminate Hlt|].
  unfold heatPumpPercentage. cbn [Num.isFinite]. unfold Num.gtb.
  rewrite Hlt. reflexivity.
Qed.

Section Valid.
Variables (climate : Climate.t) (loads : HouseLoads.t) (page : Page.t).
Variables (h d : Q).
Hypothesis Hheating : Climate.heating climate = Some (Fin h).
Hypothesis Hhdd : Climate.hdd climate = Some (Fin d).
Hypothesis Hload : blankOrNonNegative (HouseLoads.heating loads).
Hypothesis Helec : blankOrNonNegative (Page.electricityRate page).
Hypothesis Hgas : blankOrNonNegative (Page.gasRate page).
Hypothesis Hcop : blankOrNonNegative (Page.heatPumpCOP page).
Hypothesis Heff : blankOrNonNegative (Page.furnaceEfficiency page).



(** X11.  At a design temperature of exactly 65, with positive degree days
    and a crossover below 65, the hybrid total is [NaN]; no box then equals
    the minimum and [displayCostBars] raises a [TypeError] in the middle of
    the run. *)
Theorem rendering_fails_at_design_temperature_65 :
  (h == 65)%Q -> (0 < d)%Q ->
  let shown := calculateHVACCosts climate loads page in
  (usedCrossover shown <? Fin h) = true ->
  totalOf (results shown) hybrid = NaN
  /\ displayCostBars (results shown) = None.
Proof.
  intros Hh Hd. cbv zeta. intros Hlt.
  pose proof (share_one_above_crossover h _ Hlt
                (usedCrossover_cases climate loads page)) as Hshare.
  assert (Hnan : totalOf (results (calculateHVACCosts climate loads page))
                   hybrid = NaN).
  { unfold totalOf. cbn [resultOf].
    rewrite calculateHVACCosts_runs. cbv zeta. cbn [Results.hybrid].
    set (xo := usedCrossover _) in *.
    rewrite Hheating, Hhdd. cbn [Number].
    destruct (or_else_positive _ 50000 Hload) as (l & El & Hl);
      [reflexivity|].
    unfold calculateSystemCosts. cbv beta zeta iota. rewrite El, Hshare.
    cbn [Costs.total Number Specs.cop Specs.furnaceAFUE].
    change (lit 65) with (Fin 65). rewrite sub_Fin.
    rewrite (div_Fin_zero l) by (rewrite ?Qred_correct; lra).
    rewrite (mul_PInf_pos d) by assumption.
    change (PInf * lit 24) with PInf.
    change (lit 1 - Fin 1) with (Fin 0).
    change (PInf * Fin 0) with NaN.
    cbn [Num.div Num.mul]. rewrite add_NaN_r. reflexivity. }
  split; [exact Hnan|].
  apply (proj2 (lowest_box _)).
  exists hybrid. exact Hnan.
Qed.

End Valid.



Lemma rendering_fails_at_recordAt65 :
  let shown := calculateHVACCosts recordAt65 exampleLoads defaultPage in
  totalOf (results shown) hybrid = NaN
  /\ displayCostBars (results shown) = None.
Proof.
  apply (rendering_fails_at_design_temperature_65 recordAt65 exampleLoads
           defaultPage 65 200); try reflexivity;
    right; eexists; (split; [reflexivity|discriminate]).
Defined.

End TotalsProperties.

(** ** Degree days and the automatic crossover *)

Section CrossoverProperties.
Import NumFacts OrderFacts.
Local Open Scope num_scope.



Lemma or_else_finite v (dflt : Q) :
  blankOrFinite v -> ~ (dflt == 0)%Q ->
  exists q, Num.or_else v (lit dflt) = Fin q /\ ~ (q == 0)%Q.
Proof.
  intros [-> | (q & ->)] Hd.
  - exists (Qred dflt). split; [reflexivity|]. now rewrite Qred_correct.
  - unfold Num.or_else, Num.truthy.
    destruct (Qeq_bool q 0) eqn:E; cbn [negb].
    + exists (Qred dflt). split; [reflexivity|]. now rewrite Qred_correct.
    + exists q. split; [reflexivity|]. now apply Qeq_bool_false.
Qed.

Lemma or_else_nonzero q d : ~ (q == 0)%Q -> Num.or_else (Fin q) d = Fin q.
Proof.
  intros Hq. unfold Num.or_else, Num.truthy.
  apply Qeq_bool_false in Hq. now rewrite Hq.
Qed.

Lemma max_lower (lo x : Q) :
  exists y, Num.max (Fin lo) (Fin x) = Fin y /\ (lo <= y)%Q.
Proof.
  rewrite max_Fin. destruct (Qle_bool lo x) eqn:E.
  - apply Qle_bool_iff in E. now exists x.
  - exists lo. split; [reflexivity|lra].
Qed.

(** The crossover that balances the two prices is a finite number between
    0 and 70 as soon as no input is infinite. *)
Lemma computeAuto_finite e g f c :
  ~ (e == 0)%Q -> ~ (g == 0)%Q -> ~ (f == 0)%Q -> ~ (c == 0)%Q ->
  exists t, computeAutoCrossoverTemperature (Fin e) (Fin g) (Fin f) (Fin c)
            = Fin t /\ (0 <= t)%Q /\ (t <= 70)%Q.
Proof.
  intros He Hg Hf Hc. unfold computeAutoCrossoverTemperature. cbv zeta.
  rewrite !or_else_nonzero by assumption.
  change (lit 100) with (Fin 100). rewrite div_Fin by (intros E; discriminate).
  change (lit 0.5) with (Fin (1 # 2)). change (lit 1.0) with (Fin 1).
  change (lit 0.01) with (Fin (1 # 100)). change (lit 1.5) with (Fin (3 # 2)).
  change (lit 17 - lit 47) with (Fin (-30)).
  change (lit 29.3) with (Fin (293 # 10)).
  change (lit 0.000001) with (Fin (1 # 1000000)).
  change (lit 47) with (Fin 47). change (lit 35) with (Fin 35).
  change (lit 0) with (Fin 0). change (lit 70) with (Fin 70).
  destruct (clamp_Fin (1 # 2) 1 (Qred (f / 100))) as (A & -> & _);
    [lra|].
  destruct (max_lower (1 # 100) e) as (E & -> & HE).
  destruct (max_lower (1 # 100) g) as (G & -> & HG).
  destruct (max_lower 1 c) as (C & -> & HC).
  rewrite sub_Fin.
  destruct (max_lower 1 (Qred (C - (3 # 2)))) as (C17 & -> & HC17).
  rewrite sub_Fin. rewrite div_Fin by (intros E0; discriminate).
  rewrite (div_Fin E G) by lra. rewrite !mul_Fin.
  set (S := Qred (Qred (C17 - C) / -30)).
  set (T := Qred (Qred ((293 # 10) * A) * Qred (E / G))).
  unfold Num.abs. rewrite ltb_Fin.
  destruct (Num.Qltb (Qred (Qabs S)) (1 # 1000000)) eqn:Eabs.
  - exists 35%Q. split; [reflexivity|]. lra.
  - apply Qltb_false in Eabs. rewrite Qred_correct in Eabs.
    assert (HS : ~ (S == 0)%Q).
    { intros E0. assert (Qabs S == 0)%Q by (rewrite E0; reflexivity). lra. }
    rewrite sub_Fin, div_Fin by exact HS. rewrite add_Fin.
    destruct (clamp_Fin 0 70 (Qred (47 + Qred (Qred (T - C) / S))))
      as (t & -> & H0 & H70 & _); [lra|].
    exists t. auto.
Qed.

(** X13.  When no rate or efficiency field is infinite, the automatic
    crossover computed from them is a finite temperature between 0 and 70,
    and a run with the automatic crossover switched on uses a crossover
    between 20 and 50. *)
Theorem automatic_crossover_is_bounded
  (climate : Climate.t) (loads : HouseLoads.t) (page : Page.t) :
  blankOrFinite (Page.electricityRate page) ->
  blankOrFinite (Page.gasRate page) ->
  blankOrFinite (Page.furnaceEfficiency page) ->
  blankOrFinite (Page.heatPumpCOP page) ->
  (exists t,
      computeAutoCrossoverTemperature (Page.electricityRate page)
        (Page.gasRate page) (Page.furnaceEfficiency page)
        (Page.heatPumpCOP page) = Fin t
      /\ (0 <= t)%Q /\ (t <= 70)%Q)
  /\ (Page.autoCrossover page = true ->
      exists x, usedCrossover (calculateHVACCosts climate loads page) = Fin x
                /\ (20 <= x)%Q /\ (x <= 50)%Q).
Proof.
  intros He Hg Hf Hc.
  destruct (or_else_finite _ 0.12 He) as (e & Ee & He0); [discriminate|].
  destruct (or_else_finite _ 1.2 Hg) as (g & Eg & Hg0); [discriminate|].
  destruct (or_else_finite _ 95 Hf) as (f & Ef & Hf0); [discriminate|].
  destruct (or_else_finite _ 3.5 Hc) as (c & Ec & Hc0); [discriminate|].
  split.
  - destruct (computeAuto_finite e g f c He0 Hg0 Hf0 Hc0) as (t & Et & Ht).
    exists t. split; [|exact Ht]. rewrite <- Et.
    unfold computeAutoCrossoverTemperature. cbv zeta.
    rewrite Ee, Eg, Ef, Ec. rewrite !or_else_nonzero by assumption.
    reflexivity.
  - intros Hauto. unfold calculateHVACCosts. cbv zeta. cbn [usedCrossover].
    rewrite Hauto.
    change (lit 1.20) with (lit 1.2). rewrite Ee, Eg, Ef, Ec.
    destruct (computeAuto_finite e g f c He0 Hg0 Hf0 Hc0) as (t & -> & _).
    rewrite round_Fin.
    change (lit 20) with (Fin 20). change (lit 50) with (Fin 50).
    destruct (clamp_Fin 20 50 (inject_Z (Qfloor (t + (1 # 2)))))
      as (x & -> & H20 & H50 & _); [lra|].
    exists x. auto.
Qed.

(** The default fields, with the automatic crossover switched on. *)
Lemma automatic_crossover_by_default :
  (exists t,
      computeAutoCrossoverTemperature (lit 0.12) (lit 1.20) (lit 95) (lit 3.5)
      = Fin t /\ (0 <= t)%Q /\ (t <= 70)%Q)
  /\ exists x,
       usedCrossover
         (calculateHVACCosts multnomahRecord exampleLoads
            (Page.mk (lit 0.12) (lit 1.20) (lit 3.5) (lit 95) true (lit 35)))
       = Fin x /\ (20 <= x)%Q /\ (x <= 50)%Q.
Proof.
  destruct (automatic_crossover_is_bounded multnomahRecord exampleLoads
              (Page.mk (lit 0.12) (lit 1.20) (lit 3.5) (lit 95) true (lit 35)))
    as [Ht Hx]; try (right; eexists; reflexivity).
  split; [exact Ht|]. apply Hx. reflexivity.
Defined.

End CrossoverProperties.

(** ** The lookup *)

Section LookupProperties.
Context {H : Host}.
Import NumFacts.
Local Open Scope num_scope.

Lemma inMemoryRecord_finite table zipCode c :
  inMemoryRecord table zipCode = Some c ->
  Number_isFinite (Climate.heating c) = true
  /\ Number_isFinite (Climate.hdd c) = true.
Proof.
  unfold inMemoryRecord. cbv zeta.
  destruct (assoc zipCode table ?? assoc zipCode LOCAL_RESNET_FALLBACK)
    as [zr|]; [|discriminate].
  destruct (forallb _ _) eqn:E; [|discriminate].
  intros [= <-]. cbn [Climate.heating Climate.hdd Number_isFinite].
  cbn [forallb] in E. rewrite !andb_true_iff in E. tauto.
Qed.

Lemma mergeNearestNoaa_heating lat lon stations normalized :
  Climate.heating (mergeNearestNoaa lat lon stations normalized)
  = Climate.heating normalized.
Proof.
  unfold mergeNearestNoaa.
  destruct (length stations =? 0)%nat; [reflexivity|].
  destruct (findNearestNoaaStation lat lon stations) as [[s d]|];
    reflexivity.
Qed.

Lemma countyRecord_heating st loc fipsInfo normalized :
  countyRecord st loc fipsInfo = inl normalized ->
  Number_isFinite (Climate.heating normalized) = true.
Proof.
  unfold countyRecord. cbv zeta.
  destruct (match State.countyAshraeData st !! _ with
            | Some e => Some e
            | None => _
            end) as [entry|]; [|discriminate].
  destruct (Number_isFinite (Climate.heating (normalizeCountyEntry entry fipsInfo)))
    eqn:E; cbn [negb]; [|discriminate].
  now intros [= <-].
Qed.


(** X15.  A lookup makes its requests in one order and stops at the first
    that cannot be used: nothing is requested for a ZIP that is not five
    characters long or when the page runs from [file:]; otherwise at most
    the geocoder, then the county resolver with the coordinates the
    geocoder returned, then the station file, and the station file only
    when it is not cached yet. *)
Theorem lookup_requests_in_order
  (net : Network.t) (file : bool) (loads : HouseLoads.t) (page : Page.t)
  (st : State.t) (zipCode : string) :
  let calls := Lookup.calls (lookupClimateData net file loads page st zipCode) in
  (String.length zipCode <> 5%nat \/ file = true -> calls = [])
  /\ (calls = []
      \/ calls = [CallZippopotam zipCode]
      \/ exists loc,
           Network.getLocationFromZip net zipCode = inl loc
           /\ (calls = [CallZippopotam zipCode;
                        CallFcc (Location.latitude loc)
                          (Location.longitude loc)]
               \/ (calls = [CallZippopotam zipCode;
                            CallFcc (Location.latitude loc)
                              (Location.longitude loc);
                            FetchNoaaDb]
                   /\ State.NOAA_STATIONS_DB st = None))).
Proof.
  cbv zeta. unfold lookupClimateData.
  destruct (String.length zipCode =? 5)%nat eqn:Elen; cbn [negb].
  2:{ split; auto. }
  apply Nat.eqb_eq in Elen.
  destruct (inMemoryRecord (State.RESNET_ASHRAE_DATA st) zipCode) as [r|].
  { split; auto. }
  destruct file.
  { split; auto. }
  assert (Hno : String.length zipCode <> 5%nat \/ false = true -> False).
  { intros [E|E]; [now apply E|discriminate E]. }
  destruct (Network.getLocationFromZip net zipCode) as [loc|err] eqn:Eloc.
  2:{ cbn [Lookup.calls]. split; [intros E; destruct (Hno E)|auto]. }
  destruct (Network.getCountyFIPS net _ _) as [fipsInfo|err].
  2:{ cbn [Lookup.calls]. split; [intros E; destruct (Hno E)|].
      right. right. exists loc. auto. }
  destruct (countyRecord st loc fipsInfo) as [normalized|err].
  2:{ cbn [Lookup.calls]. split; [intros E; destruct (Hno E)|].
      right. right. exists loc. auto. }
  unfold loadNoaaStationsDb.
  destruct (State.NOAA_STATIONS_DB st) as [db|];
    match goal with
    | |- context [if ?b then _ else _] => destruct b
    end; cbn [Lookup.calls app];
    (split; [intros E; destruct (Hno E)|]);
    right; right; exists loc; auto.
Qed.

(** X16.  When the geocoder or the county resolver fails, the lookup
    fails for good: the page shows that no county data is available, the
    error of the service is logged, the station file is not requested and
    the globals are left as they were. *)
Theorem resolver_failure_is_final
  (net : Network.t) (loads : HouseLoads.t) (page : Page.t) (st : State.t)
  (zipCode err : string) :
  String.length zipCode = 5%nat ->
  inMemoryRecord (State.RESNET_ASHRAE_DATA st) zipCode = None ->
  Network.getLocationFromZip net zipCode = inr err
  \/ (exists loc,
        Network.getLocationFromZip net zipCode = inl loc
        /\ Network.getCountyFIPS net (Location.latitude loc)
             (Location.longitude loc) = inr err) ->
  let r := lookupClimateData net false loads page st zipCode in
  Lookup.outcome r = Failed noData (Some err)
  /\ fetches (Lookup.calls r) = 0%nat
  /\ Lookup.state r = st.
Proof.
  intros Hlen Hmem Hfail. cbv zeta. unfold lookupClimateData.
  rewrite Hlen, Hmem. cbn [Nat.eqb negb].
  destruct Hfail as [-> | (loc & -> & ->)]; auto.
Qed.

Lemma fetches_app a b : fetches (a ++ b) = (fetches a + fetches b)%nat.
Proof.
  unfold fetches. now rewrite List.filter_app, List.length_app.
Qed.

(** One lookup requests the station file at most once, never when it is
    cached, and leaves it cached once it was requested or was cached. *)
Lemma lookup_fetches net file loads page st zipCode :
  let r := lookupClimateData net file loads page st zipCode in
  (fetches (Lookup.calls r) <= 1)%nat
  /\ (State.NOAA_STATIONS_DB st <> None ->
      fetches (Lookup.calls r) = 0%nat
      /\ State.NOAA_STATIONS_DB (Lookup.state r) <> None)
  /\ (fetches (Lookup.calls r) = 1%nat ->
      State.NOAA_STATIONS_DB (Lookup.state r) <> None).
Proof.
  cbv zeta. unfold lookupClimateData.
  destruct (negb (String.length zipCode =? 5)%nat).
  { cbn. repeat split; auto; discriminate. }
  destruct (inMemoryRecord (State.RESNET_ASHRAE_DATA st) zipCode) as [r|].
  { cbn. repeat split; auto; discriminate. }
  destruct file.
  { cbn. repeat split; auto; discriminate. }
  destruct (Network.getLocationFromZip net zipCode) as [loc|err].
  2:{ cbn. repeat split; auto; discriminate. }
  destruct (Network.getCountyFIPS net _ _) as [fipsInfo|err].
  2:{ cbn. repeat split; auto; discriminate. }
  destruct (countyRecord st loc fipsInfo) as [normalized|err].
  2:{ cbn. repeat split; auto; discriminate. }
  unfold loadNoaaStationsDb.
  destruct (State.NOAA_STATIONS_DB st) as [db|];
    match goal with
    | |- context [if ?b then _ else _] => destruct b
    end; cbn; repeat split; auto; try discriminate; congruence.
Qed.

Lemma session_fetches (requests : list Request.t) (st : State.t) :
  (fetches (fst (session st requests)) <= 1)%nat
  /\ (State.NOAA_STATIONS_DB st <> None ->
      fetches (fst (session st requests)) = 0%nat).
Proof.
  revert st. induction requests as [|r rest IH]; intros st.
  - cbn. split; auto.
  - cbn [session].
    set (l := lookupClimateData _ _ _ _ st _).
    destruct (lookup_fetches (Request.net r) (Request.file r)
                (Request.houseLoads r) (Request.page r) st
                (Request.zipCode r)) as (H1 & Hcached & Hfetched).
    fold l in H1, Hcached, Hfetched.
    destruct (IH (Lookup.state l)) as [IH1 IH0].
    destruct (session (Lookup.state l) rest) as [calls st'].
    cbn [fst] in *. rewrite fetches_app. split.
    + destruct (fetches (Lookup.calls l)) as [|[|n]] eqn:E; [lia| |lia].
      rewrite IH0; [lia|]. now apply Hfetched.
    + intros Hst. destruct (Hcached Hst) as [-> Hst'].
      rewrite IH0; auto.
Qed.

(** X17.  Over any series of lookups that run one after the other,
    whatever the ZIP codes, the inputs and the answers of the services, the
    station file is requested at most once; it is never requested once it
    is cached. *)
Theorem station_file_is_fetched_at_most_once
  (requests : list Request.t) (st : State.t) :
  (fetches (fst (session st requests)) <= 1)%nat
  /\ (forall db, State.NOAA_STATIONS_DB st = Some db ->
        fetches (fst (session st requests)) = 0%nat).
Proof.
  destruct (session_fetches requests st) as [H1 H0]. split; [exact H1|].
  intros db Hdb. apply H0. congruence.
Qed.

End LookupProperties.


(** A ZIP that is in no table, with no service answering. *)
Lemma resolver_failure_without_network :
  let r := @lookupClimateData refHost noNetwork false exampleLoads
             defaultPage initialState "99999" in
  Lookup.outcome r = Failed noData (Some "Location lookup failed"%string)
  /\ fetches (Lookup.calls r) = 0%nat
  /\ Lookup.state r = initialState.
Proof.
  apply (@resolver_failure_is_final refHost noNetwork exampleLoads
           defaultPage initialState "99999" "Location lookup failed");
    [reflexivity|reflexivity|left; reflexivity].
Defined.

(** ** Normalization of a county entry *)

Section NormalizeProperties.
Context {H : Host}.
Local Open Scope num_scope.

Lemma getNum_absentOrFinite v : absentOrFinite (getNum v).
Proof.
  unfold getNum, absentOrFinite. cbv zeta.
  destruct (Number v) as [| | |q]; cbn [Num.isFinite]; eauto.
Qed.

Lemma nullish_absentOrFinite a b :
  absentOrFinite a -> absentOrFinite b -> absentOrFinite (a ?? b).
Proof. intros [-> | (q & ->)] Hb; cbn [nullish]; [exact Hb|right; eauto]. Qed.

Lemma getNum_finite v : Number_isFinite v = true -> getNum v = v.
Proof.
  destruct v as [[| | |q]|]; cbn; try discriminate. reflexivity.
Qed.

Lemma getNum_not_finite v : Number_isFinite v = false -> getNum v = None.
Proof.
  destruct v as [[| | |q]|]; cbn; try discriminate; reflexivity.
Qed.

Lemma getNum_is_finite v n : getNum v = Some n -> Number_isFinite v = true.
Proof.
  destruct v as [[| | |q]|]; cbn; try discriminate. reflexivity.
Qed.


End NormalizeProperties.

(** ** The start-up merges *)

Section MergeProperties.
Context {H : Host}.
Local Open Scope num_scope.

(** X19.  After [tryLoadExternalCountyJson] has merged an index, a FIPS
    code reads as before when the county index held it, and as the first
    entry the file has for it otherwise; merging the same file again
    changes nothing. *)
Theorem json_merge_is_a_left_biased_union
  (idx : list (string * Entry.t)) (county : gmap string Entry.t) :
  (forall k,
      tryLoadExternalCountyJson (Some idx) county !! k
      = match county !! k with
        | Some e => Some e
        | None => assoc k idx
        end)
  /\ tryLoadExternalCountyJson (Some idx)
       (tryLoadExternalCountyJson (Some idx) county)
     = tryLoadExternalCountyJson (Some idx) county.
Proof.
  assert (Hlook : forall idx (county : gmap string Entry.t) k,
            mergeJsonIndex idx county !! k
            = match county !! k with
              | Some e => Some e
              | None => assoc k idx
              end).
  { clear idx county. intros idx.
    induction idx as [|[k' v] idx IH]; intros county k.
    - cbn. now destruct (county !! k).
    - unfold mergeJsonIndex in *. cbn [fold_left fst snd assoc].
      rewrite IH. clear IH.
      destruct (String.eqb k k') eqn:Ek.
      + apply String.eqb_eq in Ek. subst k'.
        destruct (county !! k) eqn:Ec.
        * now rewrite Ec.
        * now rewrite lookup_insert_eq.
      + apply String.eqb_neq in Ek.
        destruct (county !! k') eqn:Ec'.
        * reflexivity.
        * rewrite lookup_insert_ne by congruence. reflexivity. }
  split.
  - intros k. apply Hlook.
  - cbn [tryLoadExternalCountyJson]. apply map_eq. intros k.
    rewrite !Hlook.
    destruct (county !! k); [reflexivity|]. now destruct (assoc k idx).
Qed.

Lemma padStart0_length n s : (n <= String.length (Str.padStart0 n s))%nat.
Proof.
  unfold Str.padStart0. rewrite length_append.
  assert (Hz : forall k, String.length (Str.zeros k) = k)
    by (induction k; cbn; congruence).
  rewrite Hz. lia.
Qed.

Lemma optNum_absentOrFinite i cols : absentOrFinite (optNum i cols).
Proof.
  unfold optNum, csvGetNum. destruct i as [k|]; [|now left]. cbv zeta.
  destruct (StringToNumber _) as [| | |q]; cbn [Num.isFinite];
    [now left ..|right; eauto].
Qed.

(** X20.  [tryLoadExternalCountyCsv] takes nothing out of the county
    index and changes no entry of it; whatever it adds sits under a key of
    at least five characters that the index did not hold, carries that key
    as its FIPS code and the source [External CSV import], holds a finite
    number or nothing in each numeric field, and has no coordinates. *)
Theorem csv_merge_adds_well_formed_entries
  (response : option string) (county : gmap string Entry.t) (k : string) :
  match tryLoadExternalCountyCsv response county !! k with
  | Some e => county !! k = Some e \/ (county !! k = None /\ csvEntry k e)
  | None => county !! k = None
  end.
Proof.
  assert (Same : match county !! k with
                 | Some e => county !! k = Some e
                             \/ (county !! k = None /\ csvEntry k e)
                 | None => county !! k = None
                 end) by (destruct (county !! k); auto).
  unfold tryLoadExternalCountyCsv.
  destruct response as [text|]; [|exact Same].
  destruct (csvLines text) as [|first [|second rest]]; try exact Same.
  cbv zeta. destruct (Str.firstIndex _ _) as [fipsIdx|]; [|exact Same].
  apply (fold_left_invariant
           (fun m : gmap string Entry.t =>
              match m !! k with
              | Some e => county !! k = Some e
                          \/ (county !! k = None /\ csvEntry k e)
              | None => county !! k = None
              end)); [|exact Same].
  clear Same. intros m line Hm. unfold csvRow. cbv zeta.
  destruct (length (Str.split "," line) <=? fipsIdx)%nat; [exact Hm|].
  set (fips := Str.padStart0 5 _).
  destruct (String.length fips =? 0)%nat; [exact Hm|].
  destruct (m !! fips) eqn:E; [exact Hm|].
  destruct (decide (fips = k)) as [<-|Hne].
  - rewrite lookup_insert_eq. rewrite E in Hm. right. split; [exact Hm|].
    unfold csvEntry. cbn.
    repeat split; try apply optNum_absentOrFinite.
    apply padStart0_length.
  - rewrite lookup_insert_ne by exact Hne. exact Hm.
Qed.

Lemma fillFromNormals_cases stations e :
  fillFromNormals stations e
  = match nearestStation (Entry.lat e) (Entry.lon e) stations with
    | None => e
    | Some nearest =>
        let e1 :=
          if negb (Number_isFinite (Entry.hdd e))
             && Number_isFinite (Normal.hdd nearest)
          then Entry.set_hdd (Normal.hdd nearest) e else e in
        if negb (Number_isFinite (Entry.cdd e))
           && Number_isFinite (Normal.cdd nearest)
        then Entry.set_cdd (Normal.cdd nearest) e1 else e1
    end.
Proof.
  unfold fillFromNormals. cbv zeta.
  destruct (Number_isFinite (Entry.hdd e)), (Number_isFinite (Entry.cdd e));
    cbn [negb andb];
    destruct (nearestStation (Entry.lat e) (Entry.lon e) stations);
    reflexivity.
Qed.

Lemma fillFromNormals_idempotent stations e :
  fillFromNormals stations (fillFromNormals stations e)
  = fillFromNormals stations e.
Proof.
  rewrite (fillFromNormals_cases stations e).
  destruct (nearestStation (Entry.lat e) (Entry.lon e) stations)
    as [nearest|] eqn:En;
    [|rewrite fillFromNormals_cases, En; reflexivity].
  cbv zeta.
  destruct (Number_isFinite (Entry.hdd e)) eqn:Fh,
           (Number_isFinite (Normal.hdd nearest)) eqn:Nh,
           (Number_isFinite (Entry.cdd e)) eqn:Fc,
           (Number_isFinite (Normal.cdd nearest)) eqn:Nc;
    cbn [negb andb]; rewrite fillFromNormals_cases;
    destruct e;
    cbn [Entry.lat Entry.lon Entry.hdd Entry.cdd Entry.set_hdd
         Entry.set_cdd] in *;
    rewrite En; cbv zeta;
    cbn [Entry.lat Entry.lon Entry.hdd Entry.cdd Entry.set_hdd
         Entry.set_cdd];
    rewrite ?Fh, ?Nh, ?Fc, ?Nc; reflexivity.
Qed.

Lemma fillFromNormals_without_coordinates stations e :
  Number_isFinite (Entry.lat e) && Number_isFinite (Entry.lon e) = false ->
  fillFromNormals stations e = e.
Proof.
  intros Hc. unfold fillFromNormals. cbv zeta.
  destruct (negb (negb _) && negb (negb _)); [reflexivity|].
  unfold nearestStation.
  apply andb_false_iff in Hc as [-> | ->]; cbn [negb orb];
    rewrite ?orb_true_r; reflexivity.
Qed.

(** X21.  [tryMergeNoaaNormalsHddCdd] keeps the keys of the county index
    as they are, leaves every entry that lacks a finite coordinate as it
    is, and changes nothing when it is run a second time on the same
    file. *)
Theorem normals_merge_is_idempotent
  (response : option string) (county : gmap string Entry.t) :
  let merged := tryMergeNoaaNormalsHddCdd response county in
  (forall k, is_Some (merged !! k) <-> is_Some (county !! k))
  /\ (forall k e,
        county !! k = Some e ->
        Number_isFinite (Entry.lat e) && Number_isFinite (Entry.lon e)
          = false ->
        merged !! k = Some e)
  /\ tryMergeNoaaNormalsHddCdd response merged = merged.
Proof.
  cbv zeta. unfold tryMergeNoaaNormalsHddCdd.
  destruct response as [text|]; [|now repeat split].
  destruct (csvLines text) as [|first [|second rest]]; try now repeat split.
  cbv zeta.
  destruct (Str.firstIndex _ _) as [idIdx|]; [|now repeat split].
  destruct (Str.firstIndex _ _) as [latIdx|]; [|now repeat split].
  destruct (Str.firstIndex _ _) as [lonIdx|]; [|now repeat split].
  destruct (omap _ _) as [|s stations] eqn:Es; [now repeat split|].
  split; [|split].
  - intros k. rewrite lookup_fmap. now rewrite fmap_is_Some.
  - intros k e Hk Hc. rewrite lookup_fmap, Hk. cbn.
    now rewrite fillFromNormals_without_coordinates.
  - apply map_eq. intros k. rewrite !lookup_fmap.
    destruct (county !! k) as [e|]; cbn; [|reflexivity].
    now rewrite fillFromNormals_idempotent.
Qed.

End MergeProperties.

(** ** The heating load field and the annual energy panel *)

Section HeatingLoadProperties.
Import NumFacts OrderFacts.
Local Open Scope num_scope.

Lemma digitsAcc_nonneg s acc :
  (0 <= acc)%Z -> (0 <= Input.digitsAcc (Input.keepDigits s) acc)%Z.
Proof.
  revert acc. unfold Input.keepDigits.
  induction s as [|c s IH]; intros acc Hacc; cbn [Input.keep]; [exact Hacc|].
  destruct (Input.is_digit c) eqn:E; [|now apply IH].
  cbn [Input.digitsAcc]. apply IH.
  unfold Input.is_digit in E. cbv zeta in E.
  apply andb_true_iff in E as [E _]. apply Nat.leb_le in E. lia.
Qed.


Lemma nullToZero_share hd xo hdd :
  hd <> NaN -> xo <> NaN ->
  exists q, nullToZero (calculateHeatPumpEfficiency hd xo hdd) = Fin q
            /\ (0 <= q)%Q /\ (q <= 1)%Q.
Proof.
  intros Hhd Hxo. pose proof (share_fraction hd xo hdd Hhd Hxo) as Hs.
  destruct (calculateHeatPumpEfficiency hd xo hdd) as [s|].
  - destruct Hs as (q & w & -> & H0 & H1 & _). exists q. auto.
  - exists 0%Q. split; [reflexivity|]. lra.
Qed.



End HeatingLoadProperties.

(** ** The county index *)

Section IndexProperties.
Variable NumberToString : num -> string.

Local Abbreviation keyOf := (fun v => fipsKey NumberToString (fipsRaw v)).

Lemma keyOf_is_object v k : keyOf v = Some k -> exists props, v = JObj props.
Proof.
  destruct v; cbn; try discriminate. eauto.
Qed.

Lemma fipsKey_length raw k :
  fipsKey NumberToString raw = Some k -> (5 <= String.length k)%nat.
Proof.
  unfold fipsKey. destruct raw as [[]|]; try discriminate;
    intros [= <-]; apply padStart0_length.
Qed.

Lemma addEntry_lookup val (index : gmap string json) k v :
  addEntry NumberToString val index !! k = Some v ->
  index !! k = Some v \/ (v = val /\ keyOf val = Some k).
Proof.
  unfold addEntry.
  destruct (Json.isObject val); cbn [negb]; [|now left].
  destruct (fipsKey NumberToString (fipsRaw val)) as [fips|] eqn:E;
    [|now left].
  destruct (decide (fips = k)) as [->|Hne].
  - rewrite lookup_insert_eq. intros [= <-]. now right.
  - rewrite lookup_insert_ne by exact Hne. now left.
Qed.

Lemma addEntry_keeps val (index : gmap string json) k :
  is_Some (index !! k) -> is_Some (addEntry NumberToString val index !! k).
Proof.
  intros Hk. unfold addEntry.
  destruct (negb (Json.isObject val)); [exact Hk|].
  destruct (fipsKey NumberToString (fipsRaw val)) as [fips|]; [|exact Hk].
  destruct (decide (fips = k)) as [->|Hne].
  - rewrite lookup_insert_eq. eauto.
  - now rewrite lookup_insert_ne.
Qed.

Lemma addEntry_adds val (index : gmap string json) k :
  keyOf val = Some k -> is_Some (addEntry NumberToString val index !! k).
Proof.
  intros Hk. destruct (keyOf_is_object _ _ Hk) as (props & ->).
  unfold addEntry. cbn [Json.isObject negb]. cbv beta in Hk. rewrite Hk.
  rewrite lookup_insert_eq. eauto.
Qed.

Lemma nodesWithin_self depth node : In node (nodesWithin depth node).
Proof. destruct depth; now left. Qed.

Lemma nodesWithin_child depth node child v :
  In child (children node) -> In v (nodesWithin depth child) ->
  In v (nodesWithin (S depth) node).
Proof.
  intros Hc Hv. cbn [nodesWithin]. right.
  apply List.in_flat_map. eauto.
Qed.

Lemma walk_S deeper node (index : gmap string json) :
  walk NumberToString (S deeper) node index
  = match node with
    | JArr items =>
        fold_left
          (fun index item =>
             let index := addEntry NumberToString item index in
             if Json.isObject item
             then walk NumberToString deeper item index else index)
          items index
    | JObj props =>
        fold_left
          (fun index v =>
             if Json.isObject v
             then walk NumberToString deeper v index else index)
          (map snd props) (addEntry NumberToString node index)
    | _ => index
    end.
Proof. reflexivity. Qed.

(** What the walk files comes from the part of the dataset it visits. *)
Lemma walk_sound fuel :
  forall node (index : gmap string json) (known : json -> Prop),
    (forall v, In v (nodesWithin fuel node) -> known v) ->
    (forall k v, index !! k = Some v -> known v /\ keyOf v = Some k) ->
    forall k v, walk NumberToString fuel node index !! k = Some v ->
                known v /\ keyOf v = Some k.
Proof.
  induction fuel as [|deeper IH]; intros node index known Hknown Hindex;
    [exact Hindex|].
  rewrite walk_S. destruct node as [| | | |items|props]; try exact Hindex.
  - assert (Hitems : forall item, In item items ->
              forall v, In v (nodesWithin deeper item) -> known v).
    { intros item Hitem v Hv. apply Hknown.
      now apply (nodesWithin_child deeper (JArr items) item). }
    clear Hknown. revert index Hindex.
    induction items as [|item items IHitems]; intros index Hindex;
      [exact Hindex|].
    cbn [fold_left]. apply IHitems.
    + intros i Hi. apply Hitems. now right.
    + assert (Hadd : forall k v,
                addEntry NumberToString item index !! k = Some v ->
                known v /\ keyOf v = Some k).
      { intros k v Hkv. apply addEntry_lookup in Hkv as [Hkv|[-> Hkey]].
        - now apply Hindex.
        - split; [|exact Hkey].
          apply (Hitems item); [now left|apply nodesWithin_self]. }
      destruct (Json.isObject item); [|exact Hadd].
      apply (IH item _ known); [|exact Hadd].
      apply Hitems. now left.
  - assert (Hself : known (JObj props))
      by (apply Hknown, nodesWithin_self).
    assert (Hvals : forall child, In child (map snd props) ->
              forall v, In v (nodesWithin deeper child) -> known v).
    { intros child Hchild v Hv. apply Hknown.
      now apply (nodesWithin_child deeper (JObj props) child). }
    assert (Hadd : forall k v,
              addEntry NumberToString (JObj props) index !! k = Some v ->
              known v /\ keyOf v = Some k).
    { intros k v Hkv. apply addEntry_lookup in Hkv as [Hkv|[-> Hkey]].
      - now apply Hindex.
      - now split. }
    clear Hknown Hindex Hself.
    revert Hadd. generalize (addEntry NumberToString (JObj props) index).
    induction (map snd props) as [|child rest IHrest]; intros idx Hidx;
      [exact Hidx|].
    cbn [fold_left]. apply IHrest.
    + intros c Hc. apply Hvals. now right.
    + destruct (Json.isObject child); [|exact Hidx].
      apply (IH child _ known); [|exact Hidx].
      apply Hvals. now left.
Qed.

Lemma walk_keeps fuel :
  forall node (index : gmap string json) k,
    is_Some (index !! k) ->
    is_Some (walk NumberToString fuel node index !! k).
Proof.
  induction fuel as [|deeper IH]; intros node index k Hk; [exact Hk|].
  rewrite walk_S. destruct node as [| | | |items|props]; try exact Hk.
  - apply (fold_left_invariant (fun m : gmap string json => is_Some (m !! k)));
      [|exact Hk].
    intros m item Hm. cbv zeta.
    destruct (Json.isObject item); [apply IH|]; now apply addEntry_keeps.
  - apply (fold_left_invariant (fun m : gmap string json => is_Some (m !! k)));
      [|now apply addEntry_keeps].
    intros m v Hm. destruct (Json.isObject v); [now apply IH|exact Hm].
Qed.

Lemma not_object_within depth child v :
  Json.isObject child = false -> In v (nodesWithin depth child) -> v = child.
Proof.
  intros Hc Hv. destruct depth; cbn [nodesWithin] in Hv.
  - destruct Hv as [<-|[]]. reflexivity.
  - destruct Hv as [<-|Hv]; [reflexivity|].
    destruct child; try discriminate Hc; destruct Hv.
Qed.

(** An object that lies at most [fuel] levels below [node] and carries a
    FIPS code has its key in the index after a walk with one more level of
    fuel. *)
Lemma walk_complete fuel :
  forall node (index : gmap string json) v k,
    In v (nodesWithin fuel node) -> keyOf v = Some k ->
    is_Some (walk NumberToString (S fuel) node index !! k).
Proof.
  induction fuel as [|fuel IH]; intros node index v k Hv Hkey.
  - cbn [nodesWithin] in Hv. destruct Hv as [<-|[]].
    destruct (keyOf_is_object _ _ Hkey) as (props & ->).
    rewrite walk_S.
    apply (fold_left_invariant (fun m : gmap string json => is_Some (m !! k))).
    + intros m c Hm. destruct (Json.isObject c); exact Hm.
    + now apply addEntry_adds.
  - cbn [nodesWithin] in Hv. destruct Hv as [<-|Hv].
    + destruct (keyOf_is_object _ _ Hkey) as (props & ->).
      rewrite walk_S.
      apply (fold_left_invariant
               (fun m : gmap string json => is_Some (m !! k))).
      * intros m c Hm. destruct (Json.isObject c); [|exact Hm].
        now apply walk_keeps.
      * now apply addEntry_adds.
    + apply List.in_flat_map in Hv as (child & Hchild & Hv).
      assert (Hobj : Json.isObject child = true).
      { destruct (Json.isObject child) eqn:E; [reflexivity|].
        rewrite (not_object_within _ _ _ E Hv) in Hkey.
        destruct (keyOf_is_object _ _ Hkey) as (props & ->). discriminate E. }
      destruct node as [| | | |items|props]; try destruct Hchild.
      * cbn [children] in Hchild. rewrite walk_S.
        apply List.in_split in Hchild as (l1 & l2 & ->).
        rewrite fold_left_app. cbn [fold_left]. rewrite Hobj.
        apply (fold_left_invariant
                 (fun m : gmap string json => is_Some (m !! k))).
        -- intros m item Hm. cbv zeta.
           destruct (Json.isObject item);
             [apply walk_keeps|]; now apply addEntry_keeps.
        -- now apply (IH child _ v).
      * cbn [children] in Hchild. rewrite walk_S.
        apply List.in_split in Hchild as (l1 & l2 & ->).
        rewrite fold_left_app. cbn [fold_left]. rewrite Hobj.
        apply (fold_left_invariant
                 (fun m : gmap string json => is_Some (m !! k))).
        -- intros m c Hm. destruct (Json.isObject c); [|exact Hm].
           now apply walk_keeps.
        -- now apply (IH child _ v).
Qed.

Lemma shallowScan_sound dataset k v :
  shallowScan NumberToString dataset !! k = Some v ->
  Json.isObject v = true
  /\ exists key, In (key, v) (Json.entries dataset)
                 /\ (keyOf v = Some k \/ k = Str.padStart0 5 key).
Proof.
  unfold shallowScan.
  destruct (Json.truthy dataset).
  2:{ cbn. rewrite lookup_empty. discriminate. }
  assert (Hgen : forall l (m : gmap string json),
    (forall kv, In kv l -> In kv (Json.entries dataset)) ->
    (forall k v, m !! k = Some v ->
       Json.isObject v = true
       /\ exists key, In (key, v) (Json.entries dataset)
                      /\ (keyOf v = Some k \/ k = Str.padStart0 5 key)) ->
    forall k v,
      fold_left
        (fun shallow kv =>
           if negb (Json.isObject (snd kv)) then shallow
           else
             match fipsKey NumberToString
                     (Json.or_else (fipsRaw (snd kv)) (Some (JStr (fst kv))))
             with
             | Some fips =>
                 if (String.length fips =? 0)%nat then shallow
                 else <[fips := snd kv]> shallow
             | None => shallow
             end) l m !! k = Some v ->
      Json.isObject v = true
      /\ exists key, In (key, v) (Json.entries dataset)
                     /\ (keyOf v = Some k \/ k = Str.padStart0 5 key)).
  { clear k v. induction l as [|[key val] l IHl]; intros m Hl Hm; [exact Hm|].
    cbn [fold_left fst snd]. apply IHl; [intros kv Hkv; apply Hl; now right|].
    destruct (Json.isObject val) eqn:Hobj; cbn [negb]; [|exact Hm].
    destruct (fipsKey NumberToString
                (Json.or_else (fipsRaw val) (Some (JStr key))))
      as [fips|] eqn:Ef; [|exact Hm].
    destruct (String.length fips =? 0)%nat; [exact Hm|].
    intros k v. destruct (decide (fips = k)) as [->|Hne].
    - rewrite lookup_insert_eq. intros [= <-].
      split; [exact Hobj|]. exists key. split; [apply Hl; now left|].
      unfold Json.or_else in Ef.
      destruct (fipsRaw val) as [raw|] eqn:Eraw.
      + destruct (Json.truthy raw); [left; exact Ef|].
        right. now injection Ef as <-.
      + right. now injection Ef as <-.
    - rewrite lookup_insert_ne by exact Hne. apply Hm. }
  apply Hgen; [auto|].
  intros k' v'. rewrite lookup_empty. discriminate.
Qed.

Lemma within_entries dataset key v :
  Json.isObject v = true -> In (key, v) (Json.entries dataset) ->
  In v (children dataset).
Proof.
  intros Hobj Hin. destruct dataset as [| | |s|items|props]; try destruct Hin.
  - exfalso. cbn [Json.entries] in Hin.
    assert (Hchars : forall s i, In (key, v) (Json.indexed i (Json.chars s)) ->
                                 Json.isObject v = false).
    { clear. induction s as [|c s IH]; intros i; cbn; [tauto|].
      intros [[= _ <-]|Hin]; [reflexivity|eauto]. }
    rewrite (Hchars _ _ Hin) in Hobj. discriminate.
  - cbn [Json.entries children] in *.
    assert (Hidx : forall (l : list json) i,
              In (key, v) (Json.indexed i l) -> In v l).
    { clear. induction l as [|x l IH]; intros i; cbn; [tauto|].
      intros [[= _ <-]|Hin]; [now left|right; eauto]. }
    eauto.
  - cbn [Json.entries children] in *.
    apply List.in_map_iff. exists (key, v). auto.
Qed.

(** X24.  An index that [buildCountyFipsIndex] builds holds only objects
    of the dataset, found at most four levels below its root, under keys of
    at least five characters; each sits under its own FIPS field, converted
    to text and padded with zeros to five characters, or, when no object of
    the dataset carries such a field, under the padded key it has in the
    dataset.  When no index can be built the dataset itself is returned, or
    an empty object for a dataset that is falsy. *)
Theorem county_index_is_sound (dataset : json) :
  match buildCountyFipsIndex NumberToString dataset with
  | Indexed index =>
      forall k v,
        index !! k = Some v ->
        Json.isObject v = true
        /\ (5 <= String.length k)%nat
        /\ In v (nodesWithin 4 dataset)
        /\ (keyOf v = Some k
            \/ exists key, In (key, v) (Json.entries dataset)
                           /\ k = Str.padStart0 5 key)
  | Raw returned =>
      returned = (if Json.truthy dataset then dataset else JObj [])
  end.
Proof.
  unfold buildCountyFipsIndex. cbv zeta.
  destruct (size (walk NumberToString 4 dataset ∅) =? 0)%nat; cbn [negb].
  - destruct (size (shallowScan NumberToString dataset) =? 0)%nat;
      cbn [negb]; [reflexivity|].
    intros k v Hkv.
    destruct (shallowScan_sound _ _ _ Hkv) as (Hobj & key & Hin & Hk).
    split; [exact Hobj|].
    assert (Hwithin : In v (nodesWithin 4 dataset)).
    { apply (nodesWithin_child 3 dataset v);
        [now apply (within_entries dataset key)|apply nodesWithin_self]. }
    destruct Hk as [Hk| ->].
    + split; [exact (fipsKey_length _ _ Hk)|]. split; [exact Hwithin|].
      now left.
    + split; [apply padStart0_length|]. split; [exact Hwithin|].
      right. now exists key.
  - intros k v Hkv.
    destruct (walk_sound 4 dataset ∅ (fun v => In v (nodesWithin 4 dataset)))
      with (k := k) (v := v) as [Hin Hkey]; auto.
    { intros k' v'. rewrite lookup_empty. discriminate. }
    destruct (keyOf_is_object _ _ Hkey) as (props & ->).
    split; [reflexivity|]. split; [exact (fipsKey_length _ _ Hkey)|].
    split; [exact Hin|]. now left.
Qed.

(** X25.  Every object that lies at most three levels below the root of
    the dataset and carries a FIPS field can be looked up afterwards:
    [buildCountyFipsIndex] returns an index, and the index holds an entry
    under the padded code of that object. *)
Theorem county_index_is_complete (dataset v : json) (k : string) :
  In v (nodesWithin 3 dataset) -> keyOf v = Some k ->
  exists index,
    buildCountyFipsIndex NumberToString dataset = Indexed index
    /\ is_Some (index !! k).
Proof.
  intros Hv Hkey.
  pose proof (walk_complete 3 dataset ∅ v k Hv Hkey) as Hfound.
  unfold buildCountyFipsIndex. cbv zeta.
  destruct (size (walk NumberToString 4 dataset ∅) =? 0)%nat eqn:E;
    cbn [negb].
  - exfalso. apply Nat.eqb_eq in E. apply map_size_empty_iff in E.
    rewrite E, lookup_empty in Hfound. now destruct Hfound.
  - eauto.
Qed.

End IndexProperties.

(** The sample file: both entries that carry a code are found under its
    five characters. *)
Lemma county_index_of_the_sample :
  exists index,
    buildCountyFipsIndex wholeToString sampleCountyJson = Indexed index
    /\ is_Some (index !! "06089"%string).
Proof.
  apply (county_index_is_complete wholeToString sampleCountyJson
           (JObj [("fips"%string, JStr "6089");
                  ("heating"%string, JNum (lit 25))])).
  - cbn. right. left. reflexivity.
  - reflexivity.
Defined.

(** ** Cost of ownership *)

Section OwnershipProperties.
Context {H : Host}.
Import NumFacts OrderFacts.
Local Open Scope num_scope.

Lemma years_clamped (text : string) :
  exists y,
    Num.max (lit 1)
      (Num.min (lit 30) (Num.or_else (StringToNumber text) (lit 15))) = Fin y
    /\ (1 <= y)%Q /\ (y <= 30)%Q.
Proof.
  change (lit 1) with (Fin 1). change (lit 30) with (Fin 30).
  unfold Num.or_else.
  destruct (StringToNumber text) as [| | |q]; cbn [Num.truthy].
  - exists 15%Q. split; [reflexivity|]. lra.
  - exists 30%Q. split; [reflexivity|]. lra.
  - exists 1%Q. split; [reflexivity|]. lra.
  - destruct (negb (Qeq_bool q 0)).
    + destruct (clamp_Fin 1 30 q) as (y & E & H1 & H30 & _); [lra|].
      exists y. auto.
    + exists 15%Q. split; [reflexivity|]. lra.
Qed.


Lemma pow_at_least_1 (B : Q) (y : nat) :
  (1 <= B)%Q ->
  exists P, Math_pow (Fin B) y = Fin P /\ (1 <= P)%Q
            /\ ((B == 1)%Q -> (P == 1)%Q).
Proof.
  intros HB. induction y as [|y (P & E & HP & H1)].
  - exists 1%Q. split; [reflexivity|]. split; [lra|]. reflexivity.
  - cbn [Math_pow]. rewrite E, mul_Fin. exists (Qred (B * P)).
    split; [reflexivity|]. rewrite Qred_correct. split.
    + nra.
    + intros EB. rewrite EB, (H1 EB). reflexivity.
Qed.

Lemma or_else_zero (a : Q) :
  exists a', Num.or_else (Fin a) (lit 0) = Fin a' /\ (a' == a)%Q.
Proof.
  unfold Num.or_else, Num.truthy. destruct (Qeq_bool a 0) eqn:E; cbn [negb].
  - apply Qeq_bool_iff in E. exists 0%Q. split; [reflexivity|]. now rewrite E.
  - exists a. split; reflexivity.
Qed.

(** The sum of a level payment [a] over the years [ys], discounted with a
    factor [B] of at least 1, starting from [s]. *)
Lemma npv_fold (a B : Q) (n : nat) :
  (0 <= a)%Q -> (1 <= B)%Q ->
  forall ys s,
    (forall y, In y ys -> (1 <= y <= n)%nat) ->
    exists s',
      fold_left
        (fun npv y =>
           npv + Num.or_else (Number (nth_error (repeat (Fin a) n) (y - 1)))
                   (lit 0)
                 / Math_pow (Fin B) y)
        ys (Fin s) = Fin s'
      /\ (s <= s')%Q
      /\ (s' <= s + inject_Z (Z.of_nat (length ys)) * a)%Q
      /\ ((B == 1)%Q ->
          (s' == s + inject_Z (Z.of_nat (length ys)) * a)%Q).
Proof.
  intros Ha HB. induction ys as [|y ys IH]; intros s Hys.
  - exists s. cbn [fold_left length].
    change (inject_Z (Z.of_nat 0)) with 0%Q.
    split; [reflexivity|]. split; [lra|]. split; [lra|].
    intros _. ring.
  - cbn [fold_left].
    assert (Hy : (1 <= y <= n)%nat) by (apply Hys; now left).
    rewrite (nth_error_repeat (Fin a)) by lia. cbn [Number].
    destruct (or_else_zero a) as (a' & -> & Ea).
    destruct (pow_at_least_1 B y HB) as (P & -> & HP & HP1).
    rewrite div_Fin by lra. rewrite add_Fin.
    set (t := (a' / P)%Q).
    assert (Ht0 : (0 <= t)%Q) by (apply Qle_shift_div_l; lra).
    assert (Ht1 : (t <= a)%Q) by (apply Qle_shift_div_r; nra).
    assert (HtB : (B == 1)%Q -> (t == a)%Q).
    { intros EB. unfold t. rewrite (HP1 EB), Ea. field. }
    destruct (IH (Qred (s + Qred t))) as (s' & E & H1 & H2 & H3).
    { intros z Hz. apply Hys. now right. }
    exists s'. split; [exact E|].
    rewrite !Qred_correct in *.
    change (length (y :: ys)) with (S (length ys)).
    rewrite Nat2Z.inj_succ. unfold Z.succ. rewrite inject_Z_plus.
    change (inject_Z 1) with 1%Q.
    set (k := inject_Z (Z.of_nat (length ys))) in *.
    split; [lra|]. split; [lra|].
    intros EB. rewrite (H3 EB), (HtB EB). ring.
Qed.

Lemma npv_level (years a : Q) (ratePct : num) :
  (0 <= a)%Q -> blankOrNonNegative ratePct ->
  let n := inject_Z (Z.of_nat (Z.to_nat (Qfloor years))) in
  exists v,
    npvOfSeries (Fin years) ratePct (constantSeries (Fin years) (Fin a))
    = Some (Fin v)
    /\ (0 <= v)%Q /\ (v <= n * a)%Q
    /\ (ratePct = NaN \/ ratePct = Fin 0 -> (v == n * a)%Q).
Proof.
  intros Ha Hrate. cbv zeta. unfold npvOfSeries, constantSeries. cbv zeta.
  cbn [turns].
  assert (Hr : exists r, Num.or_else ratePct (lit 0) = Fin r /\ (0 <= r)%Q
                         /\ (ratePct = NaN \/ ratePct = Fin 0 -> (r == 0)%Q)).
  { destruct Hrate as [-> | (q & -> & Hq)].
    - exists 0%Q. split; [reflexivity|]. split; [lra|]. reflexivity.
    - destruct (or_else_zero q) as (q' & -> & Eq). exists q'.
      split; [reflexivity|]. split; [lra|].
      intros [E|E]; [discriminate E|]. injection E as ->. exact Eq. }
  destruct Hr as (r & -> & Hr0 & Hrz).
  change (lit 100) with (Fin 100). rewrite div_Fin by (intros E; discriminate).
  change (lit 1) with (Fin 1). rewrite add_Fin.
  set (B := Qred (1 + Qred (r / 100))).
  assert (HB : (1 <= B)%Q).
  { unfold B. rewrite !Qred_correct.
    assert (0 <= r / 100)%Q by (apply Qle_shift_div_l; lra). lra. }
  set (n := Z.to_nat (Qfloor years)).
  destruct (npv_fold a B n Ha HB (seq 1 n) 0) as (v & E & H0 & H1 & Hz).
  { intros y Hy. apply in_seq in Hy. lia. }
  change (lit 0) with (Fin 0) at 2. rewrite E.
  rewrite length_seq in *.
  exists v. split; [reflexivity|]. split; [exact H0|]. split; [lra|].
  intros Hblank. rewrite Hz; [ring|].
  unfold B. rewrite !Qred_correct, (Hrz Hblank). reflexivity.
Qed.



Lemma parseMoney_finite field : exists m, parseMoney field = Fin m.
Proof.
  unfold parseMoney. destruct field as [value|]; [|now exists (Qred 0)].
  cbv zeta. destruct (StringToNumber _) as [| | |q]; cbn [Num.isFinite];
    eauto; now exists (Qred 0).
Qed.


End OwnershipProperties.


(** ** What the cost model reads *)

Section ReadsProperties.
Local Open Scope num_scope.

Lemma calculateSystemCosts_reads loads loads' systemType specs hdd cdd cdd'
  heatingDesign coolingDesign coolingDesign' electricityRate gasRate
  crossoverTemp :
  HouseLoads.heating loads = HouseLoads.heating loads' ->
  calculateSystemCosts loads systemType specs hdd cdd heatingDesign
    coolingDesign electricityRate gasRate crossoverTemp
  = calculateSystemCosts loads' systemType specs hdd cdd' heatingDesign
      coolingDesign' electricityRate gasRate crossoverTemp.
Proof.
  intros E. unfold calculateSystemCosts. cbv zeta. rewrite E.
  destruct systemType; reflexivity.
Qed.

(** X29.  Of the climate record and the house loads, a run of
    [calculateHVACCosts] reads the heating design temperature, the heating
    degree days and the heating load only: records and loads that agree on
    these three give the same totals, the same energy figures, the same
    crossover and the same split bar, whatever their cooling figures, names,
    sources and coordinates. *)
Theorem costs_read_heating_only
  (c1 c2 : Climate.t) (loads1 loads2 : HouseLoads.t) (page : Page.t) :
  Climate.heating c1 = Climate.heating c2 ->
  Climate.hdd c1 = Climate.hdd c2 ->
  HouseLoads.heating loads1 = HouseLoads.heating loads2 ->
  calculateHVACCosts c1 loads1 page = calculateHVACCosts c2 loads2 page.
Proof.
  intros Hh Hd Hl. unfold calculateHVACCosts. cbv zeta. rewrite Hh, Hd.
  set (cdd1 := if Number_isFinite (Climate.cdd c1) then _ else _).
  set (cdd2 := if Number_isFinite (Climate.cdd c2) then _ else _).
  set (cd1 := if Number_isFinite (Climate.cooling c1) then _ else _).
  set (cd2 := if Number_isFinite (Climate.cooling c2) then _ else _).
  rewrite !(fun sys specs e g xo =>
              calculateSystemCosts_reads loads1 loads2 sys specs
                (Climate.hdd c2) cdd1 cdd2 (Number (Climate.heating c2))
                cd1 cd2 e g xo Hl).
  reflexivity.
Qed.

Lemma costs_read_heating_only_in_multnomah :
  calculateHVACCosts multnomahRecord exampleLoads defaultPage
  = calculateHVACCosts heatingOnlyRecord
      (HouseLoads.mk (lit 50000) (lit 40000)) defaultPage.
Proof.
  apply (costs_read_heating_only multnomahRecord heatingOnlyRecord
           exampleLoads (HouseLoads.mk (lit 50000) (lit 40000)) defaultPage);
    reflexivity.
Defined.

End ReadsProperties.

(** ** Degree-day estimates *)

Section EstimateProperties.
Import NumFacts OrderFacts.
Local Open Scope num_scope.

Lemma Fin_inject_Z (a b : Z) : Fin (inject_Z a) = Fin (inject_Z b) -> a = b.
Proof. intros [= E]. exact E. Qed.

Lemma daily_degrees (x : Q) :
  exists d, Num.max (lit 0) (Fin x) = Fin d
            /\ (0 <= d)%Q /\ (x <= d)%Q
            /\ ((x <= 0)%Q -> (d == 0)%Q) /\ ((0 <= x)%Q -> (d == x)%Q).
Proof.
  change (lit 0) with (Fin 0). rewrite max_Fin.
  destruct (Qle_bool 0 x) eqn:E.
  - apply Qle_bool_iff in E. exists x. split; [reflexivity|].
    repeat split; intros; lra.
  - apply Qle_bool_false in E. exists 0%Q. split; [reflexivity|].
    repeat split; intros; lra.
Qed.

Lemma yearly_degrees (x : Q) :
  exists z : Z,
    Num.round (Num.max (lit 0) (Fin x) * lit 365.25) = Fin (inject_Z z)
    /\ (0 <= z)%Z /\ ((x <= 0)%Q -> z = 0%Z)
    /\ forall y z',
         (x <= y)%Q ->
         Num.round (Num.max (lit 0) (Fin y) * lit 365.25) = Fin (inject_Z z')
         -> (z <= z')%Z.
Proof.
  destruct (daily_degrees x) as (d & -> & Hd0 & Hdx & Hdz & Hdp).
  change (lit 365.25) with (Fin (1461 # 4)). rewrite mul_Fin, round_Fin.
  eexists. split; [reflexivity|]. split; [|split].
  - apply round_nonneg. rewrite Qred_correct. lra.
  - intros Hx. rewrite Qred_correct, (Hdz Hx). reflexivity.
  - intros y z' Hxy.
    destruct (daily_degrees y) as (e & -> & He0 & Hey & Hez & Hep).
    rewrite mul_Fin, round_Fin. intros E.
    apply Fin_inject_Z in E. rewrite <- E.
    apply Qfloor_resp_le. rewrite !Qred_correct.
    assert (d <= e)%Q; [|lra].
    destruct (Qlt_le_dec x 0) as [Hneg|Hpos].
    + rewrite Hdz by lra. exact He0.
    + rewrite Hdp by exact Hpos. lra.
Qed.


End EstimateProperties.

(** ** The hybrid decision panel *)

Section DecisionProperties.
Import NumFacts OrderFacts.
Local Open Scope num_scope.

Lemma Qred_inject_Z (q : Q) (z : Z) :
  (q == inject_Z z)%Q -> Qred q = inject_Z z.
Proof.
  intros E. rewrite (Qred_complete _ _ E).
  unfold Qred, inject_Z.
  pose proof (Z.ggcd_gcd z 1) as Hg.
  pose proof (Z.ggcd_correct_divisors z 1) as Hd.
  destruct (Z.ggcd z 1) as [g [aa bb]]. cbn [fst snd] in *.
  rewrite Z.gcd_1_r in Hg. subst g. destruct Hd as [Ha Hb].
  rewrite Z.mul_1_l in Ha, Hb. subst aa bb. reflexivity.
Qed.

Lemma whole_saving (a b : Q) :
  exists z : Z,
    Num.round (Num.max (lit 0) (Fin a - Fin b)) = Fin (inject_Z z)
    /\ (0 <= z)%Z.
Proof.
  rewrite sub_Fin. change (lit 0) with (Fin 0).
  destruct (max_lower 0 (Qred (a - b))) as (d & -> & Hd).
  rewrite round_Fin. eexists. split; [reflexivity|].
  apply round_nonneg. exact Hd.
Qed.



End DecisionProperties.
